(** * DeVerify scraper: a shallow embedding of the scraper package

    The package has four Python modules: [models.py] (the record and the
    date normaliser), [db.py] (the MongoDB gateway), [scraper.py] (listing
    extraction, status derivation, the batch driver) and [main.py].

    Conventions of the embedding.
    - A Python [str] is a Rocq [string]: the UTF-8 bytes of the text.
      Its characters are the encodings of its code points; whitespace is
      that of [str.isspace], and the decimal digits outside ASCII are read
      from a table that is a parameter.
    - A Python call either returns a value or raises: [outcome A].
    - Library functions whose grammar is outside the package
      ([datetime.fromisoformat], [urllib.parse.urlparse], [urljoin]) are the
      methods of a type class; the theorems hold for every instance, and the
      instances given here are used to run the definitions. *)

From Stdlib Require Import ZArith Lia Ascii String.
From stdpp Require Import base option list strings gmap.

Local Open Scope Z_scope.

(** ** Python values, exceptions, outcomes *)

Module Py.

Inductive exn :=
  | ValueError (msg : string)
  | TypeError (msg : string)
  | RuntimeError (msg : string)
  | DriverError (msg : string)
  | BrowserError (msg : string).

Inductive outcome (A : Type) :=
  | Returned (a : A)
  | Raised (e : exn).
Arguments Returned {A} a.
Arguments Raised {A} e.

#[global] Instance outcome_ret : MRet outcome := fun _ a => Returned a.
#[global] Instance outcome_bind : MBind outcome := fun _ _ f m =>
  match m with
  | Returned a => f a
  | Raised e => Raised e
  end.

(** [try: m except Exception: h] *)
Definition try_except {A} (m : outcome A) (h : exn -> outcome A) : outcome A :=
  match m with
  | Returned a => Returned a
  | Raised e => h e
  end.

(** The values a document field holds in this package. *)
Inductive pyval :=
  | VNone
  | VBool (b : bool)
  | VInt (z : Z)
  | VStr (s : string)
  | VStrList (l : list string).

#[global] Instance pyval_eq_dec : EqDecision pyval.
Proof. solve_decision. Defined.

(** Truth value testing ([if x:], [not x], [x or y]). *)
Definition truthy (v : pyval) : bool :=
  match v with
  | VNone => false
  | VBool b => b
  | VInt z => negb (z =? 0)
  | VStr s => negb (String.eqb s "")
  | VStrList l => match l with [] => false | _ => true end
  end.

Definition truthy_str (s : string) : bool := negb (String.eqb s "").

(** [if x:] for [x : Optional[str]]. *)
Definition truthy_opt (x : option string) : bool :=
  match x with
  | Some s => truthy_str s
  | None => false
  end.

(** ** [str]

    A [str] is held as the UTF-8 encoding of its text. A character is the
    encoding of one code point: a byte that is not a continuation byte,
    together with the continuation bytes that follow it. *)

Definition is_continuation (c : ascii) : bool :=
  let n := nat_of_ascii c in ((128 <=? n) && (n <? 192))%nat.

(** The characters of a string, in order. *)
Fixpoint chars (s : string) : list string :=
  match s with
  | EmptyString => []
  | String c s' =>
      match s' with
      | EmptyString => [String c EmptyString]
      | String c' _ =>
          if is_continuation c'
          then match chars s' with
               | ch :: r => String c ch :: r
               | [] => [String c EmptyString]
               end
          else String c EmptyString :: chars s'
      end
  end.

(** The string a list of characters spells. *)
Definition of_chars (l : list string) : string := foldr String.append EmptyString l.

Definition continues (b : N) : bool := ((128 <=? b) && (b <? 192))%N.

(** The code point a character encodes (RFC 3629); [None] for a sequence of
    bytes that encodes none. *)
Definition code_point (ch : string) : option N :=
  match map N_of_ascii (list_ascii_of_string ch) with
  | [a] => if (a <? 128)%N then Some a else None
  | [a; b] =>
      if ((194 <=? a) && (a <? 224))%N && continues b
      then Some ((a - 192) * 64 + (b - 128))%N else None
  | [a; b; c] =>
      let n := ((a - 224) * 4096 + (b - 128) * 64 + (c - 128))%N in
      if ((224 <=? a) && (a <? 240))%N && continues b && continues c
         && (2048 <=? n)%N && negb ((55296 <=? n) && (n <=? 57343))%N
      then Some n else None
  | [a; b; c; d] =>
      let n := ((a - 240) * 262144 + (b - 128) * 4096 + (c - 128) * 64 + (d - 128))%N in
      if ((240 <=? a) && (a <? 245))%N && continues b && continues c && continues d
         && (65536 <=? n)%N && (n <=? 1114111)%N
      then Some n else None
  | _ => None
  end.

(** The code points [str.isspace] accepts: the ASCII ones (tab, LF, VT, FF,
    CR, the separators 0x1c-0x1f, the space) and NEL, NBSP, U+1680,
    U+2000-U+200A, U+2028, U+2029, U+202F, U+205F, U+3000. *)
Definition whitespace (n : N) : bool :=
  ((9 <=? n) && (n <=? 13) || (28 <=? n) && (n <=? 32)
   || (n =? 133) || (n =? 160) || (n =? 5760)
   || (8192 <=? n) && (n <=? 8202)
   || (n =? 8232) || (n =? 8233) || (n =? 8239) || (n =? 8287) || (n =? 12288))%N.

(** [ch.isspace()] for one character. *)
Definition char_isspace (ch : string) : bool :=
  match code_point ch with
  | Some n => whitespace n
  | None => false
  end.

(** [str.isspace] and [str.isdigit] on a character held in one byte; no
    byte above 0x7f is a character. *)
Definition isspace (c : ascii) : bool :=
  let n := nat_of_ascii c in
  ((9 <=? n) && (n <=? 13) || (28 <=? n) && (n <=? 32))%nat.

Definition isdigit (c : ascii) : bool :=
  let n := nat_of_ascii c in ((48 <=? n) && (n <=? 57))%nat.

(** [unicodedata.decimal]: the value of a decimal digit (category Nd)
    outside ASCII. The table grows with the versions of the Unicode
    database, and is a parameter for this reason. *)
Class UnicodeData := decimal : N -> option Z.

(** The decimal value of one character: what [\d] recognises and [int]
    reads. *)
Definition char_decimal `{UnicodeData} (ch : string) : option Z :=
  match code_point ch with
  | Some n =>
      if (n <? 128)%N
      then (if ((48 <=? n) && (n <=? 57))%N then Some (Z.of_N n - 48) else None)
      else decimal n
  | None => None
  end.

Fixpoint lstrip_chars (p : ascii -> bool) (s : string) : string :=
  match s with
  | EmptyString => EmptyString
  | String c s' => if p c then lstrip_chars p s' else s
  end.

Fixpoint rstrip_chars (p : ascii -> bool) (s : string) : string :=
  match s with
  | EmptyString => EmptyString
  | String c s' =>
      match rstrip_chars p s' with
      | EmptyString => if p c then EmptyString else String c EmptyString
      | r => String c r
      end
  end.

(** The same on a list of characters. *)
Fixpoint lstrip_list (p : string -> bool) (l : list string) : list string :=
  match l with
  | [] => []
  | ch :: l' => if p ch then lstrip_list p l' else l
  end.

Fixpoint rstrip_list (p : string -> bool) (l : list string) : list string :=
  match l with
  | [] => []
  | ch :: l' =>
      match rstrip_list p l' with
      | [] => if p ch then [] else [ch]
      | r => ch :: r
      end
  end.

(** [s.strip()]: the whitespace characters at both ends are removed. *)
Definition strip (s : string) : string :=
  of_chars (rstrip_list char_isspace (lstrip_list char_isspace (chars s))).

(** [s.rstrip(chars)] for a one-character [chars]. *)
Definition rstrip (ch : ascii) (s : string) : string := rstrip_chars (Ascii.eqb ch) s.

(** [s.startswith(p)] *)
Definition startswith (p s : string) : bool := String.prefix p s.

(** [s.replace(old, new)] for a non-empty [old]: occurrences are replaced
    from the left and do not overlap; [skip] counts the characters of the
    occurrence just replaced that are still to be dropped. *)
Fixpoint replace_from (old new : string) (skip : nat) (s : string) : string :=
  match s with
  | EmptyString => EmptyString
  | String c s' =>
      match skip with
      | S k => replace_from old new k s'
      | O =>
          if String.prefix old s
          then new +:+ replace_from old new (Nat.pred (String.length old)) s'
          else String c (replace_from old new O s')
      end
  end.

Definition replace (old new s : string) : string := replace_from old new O s.

(** [s.split(sep)] for a one-character [sep]; the result is never empty. *)
Fixpoint split (sep : ascii) (s : string) : list string :=
  match s with
  | EmptyString => [EmptyString]
  | String c s' =>
      if Ascii.eqb c sep then EmptyString :: split sep s'
      else match split sep s' with
           | h :: t => String c h :: t
           | [] => [String c EmptyString]
           end
  end.

(** [l[-1]] on a non-empty list; [IndexError] never arises after [split]. *)
Definition last_item (l : list string) : string := List.last l EmptyString.

(** [sep.join(l)] *)
Fixpoint join (sep : string) (l : list string) : string :=
  match l with
  | [] => EmptyString
  | [x] => x
  | x :: l' => x +:+ sep +:+ join sep l'
  end.

(** [str.lower] on the letters A-Z; every other character is kept as it
    is. The package lowers a text to look for ["submissions"] in it, and
    [_strptime] to look a month name up: what [str.lower] does to the
    letters outside ASCII changes neither answer, since none of them lowers
    to a piece of one of these words. *)
Definition lower_char (c : ascii) : ascii :=
  let n := nat_of_ascii c in
  if ((65 <=? n) && (n <=? 90))%nat then ascii_of_nat (n + 32) else c.

Fixpoint lower (s : string) : string :=
  match s with
  | EmptyString => EmptyString
  | String c s' => String (lower_char c) (lower s')
  end.

(** The last character of a string, [s[-1:]]. *)
Fixpoint last_char (s : string) : option ascii :=
  match s with
  | EmptyString => None
  | String c s' =>
      match s' with
      | EmptyString => Some c
      | String _ _ => last_char s'
      end
  end.

End Py.
Export Py.

(** ** The [datetime] library *)

Module Datetime.

(** The wall-clock fields of a [datetime]. *)
Record timestamp := Timestamp {
  year : Z; month : Z; day : Z;
  hour : Z; minute : Z; second : Z; microsecond : Z }.

(** A [datetime]: its fields and, when it is aware, its UTC offset in
    microseconds ([tzinfo = None] on a naive one). *)
Record datetime := Make_datetime {
  fields : timestamp;
  tzinfo : option Z }.

Definition naive (t : timestamp) : datetime := Make_datetime t None.

(** [datetime.utcnow()]: the reading of the system clock, always naive. *)
Definition utcnow (clock : timestamp) : datetime := naive clock.

Definition is_leap (y : Z) : bool :=
  (y mod 4 =? 0) && (negb (y mod 100 =? 0) || (y mod 400 =? 0)).

Definition days_in_month (y m : Z) : Z :=
  if m =? 2 then (if is_leap y then 29 else 28)
  else if (m =? 4) || (m =? 6) || (m =? 9) || (m =? 11) then 30
  else 31.

Definition days_before_year (y : Z) : Z :=
  let p := y - 1 in p * 365 + p / 4 - p / 100 + p / 400.

Fixpoint days_before_month_from (y : Z) (m : nat) : Z :=
  match m with
  | O => 0
  | S k => days_before_month_from y k + days_in_month y (Z.of_nat m)
  end.

(** Days before the first of month [m] in year [y]. *)
Definition days_before_month (y m : Z) : Z :=
  days_before_month_from y (Z.to_nat (m - 1)).

Definition ymd2ord (y m d : Z) : Z :=
  days_before_year y + days_before_month y m + d.

(** Microseconds since 0001-01-01T00:00:00 on the local wall clock. *)
Definition to_micros (t : timestamp) : Z :=
  (((ymd2ord (year t) (month t) (day t) * 24 + hour t) * 60 + minute t) * 60
   + second t) * 1000000 + microsecond t.

(** The checks of the [datetime] constructor. *)
Definition valid_date (y m d : Z) : bool :=
  (1 <=? y) && (y <=? 9999) && (1 <=? m) && (m <=? 12)
  && (1 <=? d) && (d <=? days_in_month y m).

Definition valid_time (h mi s us : Z) : bool :=
  (0 <=? h) && (h <=? 23) && (0 <=? mi) && (mi <=? 59)
  && (0 <=? s) && (s <=? 59) && (0 <=? us) && (us <=? 999999).

(** Comparison of tuples of fields, as [datetime._cmp] does on naive values. *)
Fixpoint cmp_list (a b : list Z) : comparison :=
  match a, b with
  | x :: a', y :: b' =>
      match x ?= y with
      | Eq => cmp_list a' b'
      | c => c
      end
  | [], [] => Eq
  | [], _ :: _ => Lt
  | _ :: _, [] => Gt
  end.

Definition field_list (t : timestamp) : list Z :=
  [year t; month t; day t; hour t; minute t; second t; microsecond t].

Definition cmp_fields (a b : timestamp) : comparison :=
  cmp_list (field_list a) (field_list b).

(** [datetime._cmp]: naive against naive and equal offsets compare the
    fields; different offsets compare the instants; a naive value against an
    aware one raises [TypeError]. *)
Definition dt_cmp (a b : datetime) : outcome comparison :=
  match tzinfo a, tzinfo b with
  | None, None => Returned (cmp_fields (fields a) (fields b))
  | Some oa, Some ob =>
      if oa =? ob then Returned (cmp_fields (fields a) (fields b))
      else Returned ((to_micros (fields a) - oa) ?= (to_micros (fields b) - ob))
  | _, _ => Raised (TypeError "can't compare offset-naive and offset-aware datetimes")
  end.

Definition is_lt (c : comparison) : bool := match c with Lt => true | _ => false end.
Definition is_gt (c : comparison) : bool := match c with Gt => true | _ => false end.

(** [a < b], [a <= b], [a > b] *)
Definition dt_lt (a b : datetime) : outcome bool := c ← dt_cmp a b; mret (is_lt c).
Definition dt_le (a b : datetime) : outcome bool := c ← dt_cmp a b; mret (negb (is_gt c)).
Definition dt_gt (a b : datetime) : outcome bool := c ← dt_cmp a b; mret (is_gt c).

(** *** Formatting *)

Definition digit_char (d : Z) : ascii := ascii_of_nat (48 + Z.to_nat d).

(** The [w] low decimal digits of [n], most significant first: ["%0wd" % n]
    for [0 <= n < 10^w]. *)
Fixpoint digits (w : nat) (n : Z) : string :=
  match w with
  | O => EmptyString
  | S w' => String (digit_char ((n / 10 ^ Z.of_nat w') mod 10)) (digits w' n)
  end.

(** The offset suffix of [isoformat]: [+HH:MM], with [:SS] and [.ffffff]
    when they are not zero. *)
Definition format_offset (off : Z) : string :=
  let sign := if off <? 0 then "-" else "+" in
  let a := Z.abs off in
  let us := a mod 1000000 in
  let s := (a / 1000000) mod 60 in
  let mi := (a / 60000000) mod 60 in
  let h := a / 3600000000 in
  sign +:+ digits 2 h +:+ ":" +:+ digits 2 mi
  +:+ (if (s =? 0) && (us =? 0) then "" else ":" +:+ digits 2 s)
  +:+ (if us =? 0 then "" else "." +:+ digits 6 us).

(** [d.isoformat()] *)
Definition isoformat (d : datetime) : string :=
  let t := fields d in
  digits 4 (year t) +:+ "-" +:+ digits 2 (month t) +:+ "-" +:+ digits 2 (day t)
  +:+ "T" +:+ digits 2 (hour t) +:+ ":" +:+ digits 2 (minute t) +:+ ":" +:+ digits 2 (second t)
  +:+ (if microsecond t =? 0 then "" else "." +:+ digits 6 (microsecond t))
  +:+ match tzinfo d with
      | Some off => format_offset off
      | None => ""
      end.

(** *** [strptime]

    [_strptime] turns the format into a regular expression, matches it at the
    start of the data without regard to case, and fails when nothing matches
    or when data remains after the first match. The expression is matched
    against the characters of the data. *)

(** A class of characters: [\d], [[lo-hi]], or one character taken without
    regard to case (the expression is compiled with [IGNORECASE]). *)
Inductive charclass :=
  | Digit
  | Range (lo hi : ascii)
  | Char (c : ascii).

Inductive regex :=
  | Eps
  | Never
  | Cls (k : charclass)
  | Seq (r1 r2 : regex)
  | Alt (r1 r2 : regex)
  | Ws1
  | Group (name : ascii) (r : regex).

(** The named groups of a match, [found.groupdict()]. *)
Definition groupdict := list (ascii * string).

(** The characters outside ASCII that [IGNORECASE] lets a letter of the
    expression match: U+0130 and U+0131 for [i], U+017F for [s], U+212A for
    [k]. *)
Definition folds_to (n : N) (c : ascii) : bool :=
  ((n =? 304) || (n =? 305))%N && Ascii.eqb (lower_char c) "i"
  || (n =? 383)%N && Ascii.eqb (lower_char c) "s"
  || (n =? 8490)%N && Ascii.eqb (lower_char c) "k".

(** The non-empty runs of whitespace at the start of [l], longest first
    (the greedy [\s+]), each with the rest of the data. *)
Fixpoint ws_runs (l : list string) : list (list string * list string) :=
  match l with
  | [] => []
  | ch :: l' =>
      if char_isspace ch
      then map (fun wr => (ch :: fst wr, snd wr)) (ws_runs l') ++ [([ch], l')]
      else []
  end.

Section Strptime.
Context `{UnicodeData}.

Definition in_class (k : charclass) (ch : string) : bool :=
  match k with
  | Digit => match char_decimal ch with Some _ => true | None => false end
  | Range lo hi =>
      match ch with
      | String x EmptyString =>
          ((nat_of_ascii lo <=? nat_of_ascii x) && (nat_of_ascii x <=? nat_of_ascii hi))%nat
      | _ => false
      end
  | Char c =>
      match ch with
      | String x EmptyString => Ascii.eqb (lower_char x) (lower_char c)
      | _ => match code_point ch with
             | Some n => folds_to n c
             | None => false
             end
      end
  end.

(** The matches of [r] at the start of the characters [l] in the order a
    backtracking matcher tries them: the characters consumed, the groups,
    the rest. *)
Fixpoint rmatch (r : regex) (l : list string)
    : list (list string * groupdict * list string) :=
  match r with
  | Eps => [([], [], l)]
  | Never => []
  | Cls k =>
      match l with
      | ch :: l' => if in_class k ch then [([ch], [], l')] else []
      | [] => []
      end
  | Seq r1 r2 =>
      flat_map (fun m1 =>
        map (fun m2 => (m1.1.1 ++ m2.1.1, m1.1.2 ++ m2.1.2, m2.2)) (rmatch r2 m1.2))
        (rmatch r1 l)
  | Alt r1 r2 => rmatch r1 l ++ rmatch r2 l
  | Ws1 => map (fun wr => (fst wr, [], snd wr)) (ws_runs l)
  | Group name r1 =>
      map (fun m => (m.1.1, (name, of_chars m.1.1) :: m.1.2, m.2)) (rmatch r1 l)
  end.

(** [int(text)] on the text of a numeric group: the decimal values of its
    characters, between the blanks at its ends. *)
Fixpoint int_from (acc : Z) (l : list string) : Z :=
  match l with
  | [] => acc
  | ch :: l' => int_from (acc * 10 + default 0 (char_decimal ch)) l'
  end.

(** The blanks [int] skips at both ends: whitespace, but for the
    separators 0x1c-0x1f. *)
Definition int_blank (ch : string) : bool :=
  match code_point ch with
  | Some n => whitespace n && negb ((28 <=? n) && (n <=? 31))%N
  | None => false
  end.

Definition int_of (s : string) : Z :=
  int_from 0 (rstrip_list int_blank (lstrip_list int_blank (chars s))).

End Strptime.

(** A literal character of the format. *)
Definition Lit (c : ascii) : regex := Cls (Char c).

Fixpoint Word (w : string) : regex :=
  match w with
  | EmptyString => Eps
  | String c w' => Seq (Lit c) (Word w')
  end.

Fixpoint Alts (rs : list regex) : regex :=
  match rs with
  | [] => Never
  | [r] => r
  | r :: rs' => Alt r (Alts rs')
  end.

(** English month names, as [calendar.month_abbr] and [calendar.month_name]
    give them in the C locale, lower-cased. *)
Definition a_month : list string :=
  ["jan"; "feb"; "mar"; "apr"; "may"; "jun"; "jul"; "aug"; "sep"; "oct"; "nov"; "dec"].
Definition f_month : list string :=
  ["january"; "february"; "march"; "april"; "may"; "june"; "july"; "august";
   "september"; "october"; "november"; "december"].

(** [__seqToRE] orders the alternatives by decreasing length (a stable sort). *)
Definition f_month_by_length : list string :=
  ["september"; "february"; "november"; "december"; "january"; "october";
   "august"; "march"; "april"; "june"; "july"; "may"].

(** The regular expression of a directive ([TimeRE]):
    [%d] is [3[0-1]|[1-2]\d|0[1-9]|[1-9]| [1-9]], [%m] is [1[0-2]|0[1-9]|[1-9]],
    [%Y] is [\d\d\d\d], [%b] and [%B] the month names. *)
Definition directive (d : ascii) : option regex :=
  if Ascii.eqb d "d" then
    Some (Group "d" (Alts [Seq (Lit "3") (Cls (Range "0" "1"));
                           Seq (Cls (Range "1" "2")) (Cls Digit);
                           Seq (Lit "0") (Cls (Range "1" "9"));
                           Cls (Range "1" "9");
                           Seq (Lit " ") (Cls (Range "1" "9"))]))
  else if Ascii.eqb d "m" then
    Some (Group "m" (Alts [Seq (Lit "1") (Cls (Range "0" "2"));
                           Seq (Lit "0") (Cls (Range "1" "9"));
                           Cls (Range "1" "9")]))
  else if Ascii.eqb d "Y" then
    Some (Group "Y" (Seq (Cls Digit) (Seq (Cls Digit) (Seq (Cls Digit) (Cls Digit)))))
  else if Ascii.eqb d "b" then Some (Group "b" (Alts (map Word a_month)))
  else if Ascii.eqb d "B" then Some (Group "B" (Alts (map Word f_month_by_length)))
  else None.

(** [TimeRE.pattern]: a run of whitespace in the format is [\s+], [%x] is
    the directive's expression, any other character stands for itself. The
    formats of the package are ASCII. *)
Fixpoint pattern (fmt : string) : option regex :=
  match fmt with
  | EmptyString => Some Eps
  | String c rest =>
      if Ascii.eqb c "%" then
        match rest with
        | String d rest' =>
            r ← directive d; p ← pattern rest'; Some (Seq r p)
        | EmptyString => None
        end
      else if isspace c then
        match rest with
        | String c' _ => if isspace c' then pattern rest else p ← pattern rest; Some (Seq Ws1 p)
        | EmptyString => Some Ws1
        end
      else p ← pattern rest; Some (Seq (Lit c) p)
  end.

(** [list.index] *)
Fixpoint index_of (x : string) (l : list string) : option Z :=
  match l with
  | [] => None
  | y :: l' => if String.eqb x y then Some 0 else Z.succ <$> index_of x l'
  end.

Definition group (name : ascii) (g : groupdict) : option string :=
  snd <$> List.find (fun kv => Ascii.eqb (fst kv) name) g.

Section StrptimeCall.
Context `{UnicodeData}.

(** The month of a match: [%m] as a number, [%b] and [%B] by the position
    of the lower-cased name; 1 when the format has no month. A name matched
    through one of the characters outside ASCII is not in the list, lowered
    or not. *)
Definition month_of (g : groupdict) : option Z :=
  match group "m" g, group "b" g, group "B" g with
  | Some t, _, _ => Some (int_of t)
  | None, Some t, _ => Z.succ <$> index_of (lower t) a_month
  | None, None, Some t => Z.succ <$> index_of (lower t) f_month
  | None, None, None => Some 1
  end.

(** [datetime.strptime(data, fmt)] for formats made of [%Y %m %d %b %B],
    whitespace and literal characters. *)
Definition strptime (data fmt : string) : outcome datetime :=
  match pattern fmt with
  | None => Raised (ValueError "bad directive in format")
  | Some re =>
      match rmatch re (chars data) with
      | [] => Raised (ValueError "time data does not match format")
      | (_, g, rest) :: _ =>
          match rest with
          | _ :: _ => Raised (ValueError "unconverted data remains")
          | [] =>
              let y := default 1900 (int_of <$> group "Y" g) in
              let d := default 1 (int_of <$> group "d" g) in
              match month_of g with
              | None => Raised (ValueError "month name is not in list")
              | Some m =>
                  if valid_date y m d
                  then Returned (naive (Timestamp y m d 0 0 0 0))
                  else Raised (ValueError "date value out of range")
              end
          end
      end
  end.

End StrptimeCall.

End Datetime.
Export Datetime.

(** ** Library functions taken as parameters *)

Module Lib.

(** [datetime.fromisoformat]: the datetime a string denotes, or [ValueError]. *)
Class IsoParser := fromisoformat : string -> outcome datetime.

(** The six components [urlparse] returns. *)
Record ParseResult := Make_ParseResult {
  scheme : string; netloc : string; path : string;
  params : string; query : string; fragment : string }.

(** [urllib.parse]: [urlparse(url)] and [urljoin(base, url)]; both raise
    [ValueError] on some malformed inputs. *)
Class UrlLib := {
  urlparse : string -> outcome ParseResult;
  urljoin : string -> string -> outcome string }.

(** *** A model of [fromisoformat]

    The grammar [YYYY-MM-DD[*HH[:MM[:SS[.fff[fff]]]][+HH:MM[:SS[.ffffff]]]]]
    that [isoformat] emits, as Lib/datetime.py reads it. *)

Fixpoint all_digits (s : string) : bool :=
  match s with
  | EmptyString => true
  | String c s' => isdigit c && all_digits s'
  end.

Fixpoint number_from (acc : Z) (s : string) : Z :=
  match s with
  | EmptyString => acc
  | String c s' => number_from (acc * 10 + (Z.of_nat (nat_of_ascii c) - 48)) s'
  end.

Definition number (s : string) : option Z :=
  if truthy_str s && all_digits s then Some (number_from 0 s) else None.

Definition char_at (n : nat) (s : string) : option ascii := String.get n s.

Definition expect (b : bool) : option unit := if b then Some tt else None.

(** [HH[:MM[:SS[.fff[fff]]]]] *)
Definition parse_hh_mm_ss_ff (s : string) : option (Z * Z * Z * Z) :=
  let len := String.length s in
  h ← number (String.substring 0 2 s);
  if (len =? 2)%nat then Some (h, 0, 0, 0) else
  _ ← expect (bool_decide (char_at 2 s = Some ":"%char));
  mi ← number (String.substring 3 2 s);
  if (len =? 5)%nat then Some (h, mi, 0, 0) else
  _ ← expect (bool_decide (char_at 5 s = Some ":"%char));
  sec ← number (String.substring 6 2 s);
  if (len =? 8)%nat then Some (h, mi, sec, 0) else
  _ ← expect (bool_decide (char_at 8 s = Some "."%char));
  if (len =? 12)%nat then us ← number (String.substring 9 3 s); Some (h, mi, sec, us * 1000)
  else if (len =? 15)%nat then us ← number (String.substring 9 6 s); Some (h, mi, sec, us)
  else None.

(** The position after the first ["-"] of the time string, else after the
    first ["+"]: [tstr.find('-') + 1 or tstr.find('+') + 1]. *)
Definition tz_pos (tstr : string) : option nat :=
  match String.index 0 "-" tstr with
  | Some i => Some (S i)
  | None => S <$> String.index 0 "+" tstr
  end.

Definition micros_of (c : Z * Z * Z * Z) : Z :=
  let '(h, mi, s, us) := c in ((h * 60 + mi) * 60 + s) * 1000000 + us.

(** [HH[:MM[:SS[.fff[fff]]]][+HH:MM[:SS[.ffffff]]]] *)
Definition parse_isoformat_time (tstr : string) : option (Z * Z * Z * Z * option Z) :=
  match tz_pos tstr with
  | None => c ← parse_hh_mm_ss_ff tstr; Some (c, None)
  | Some p =>
      c ← parse_hh_mm_ss_ff (String.substring 0 (p - 1) tstr);
      let tzstr := String.substring p (String.length tstr - p) tstr in
      let n := String.length tzstr in
      _ ← expect ((n =? 5)%nat || (n =? 8)%nat || (n =? 15)%nat);
      tz ← parse_hh_mm_ss_ff tzstr;
      let off := micros_of tz in
      let sign := if bool_decide (char_at (p - 1) tstr = Some "-"%char) then -1 else 1 in
      _ ← expect (off <? 86400000000);
      Some (c, Some (sign * off))
  end.

Definition fromisoformat_model (date_string : string) : outcome datetime :=
  let dstr := String.substring 0 10 date_string in
  let tstr := String.substring 11 (String.length date_string - 11) date_string in
  let parsed :=
    _ ← expect ((String.length dstr =? 10)%nat);
    y ← number (String.substring 0 4 dstr);
    _ ← expect (bool_decide (char_at 4 dstr = Some "-"%char));
    m ← number (String.substring 5 2 dstr);
    _ ← expect (bool_decide (char_at 7 dstr = Some "-"%char));
    d ← number (String.substring 8 2 dstr);
    t ← (if truthy_str tstr then parse_isoformat_time tstr else Some (0, 0, 0, 0, None));
    let '(h, mi, s, us, tz) := t in
    _ ← expect (valid_date y m d && valid_time h mi s us);
    Some (Make_datetime (Timestamp y m d h mi s us) tz) in
  match parsed with
  | Some d => Returned d
  | None => Raised (ValueError "Invalid isoformat string")
  end.

(** *** A model of [urllib.parse] *)

(** The text before the first character satisfying [p], and the text from
    that character on. *)
Fixpoint break (p : ascii -> bool) (s : string) : string * string :=
  match s with
  | EmptyString => (EmptyString, EmptyString)
  | String c s' =>
      if p c then (EmptyString, s)
      else let r := break p s' in (String c r.1, r.2)
  end.

Definition tail (s : string) : string :=
  match s with
  | EmptyString => EmptyString
  | String _ s' => s'
  end.

Fixpoint contains (c : ascii) (s : string) : bool :=
  match s with
  | EmptyString => false
  | String x s' => Ascii.eqb x c || contains c s'
  end.

Definition isalpha (c : ascii) : bool :=
  let n := nat_of_ascii (lower_char c) in ((97 <=? n) && (n <=? 122))%nat.

Definition scheme_char (c : ascii) : bool :=
  isalpha c || isdigit c || Ascii.eqb c "+" || Ascii.eqb c "-" || Ascii.eqb c ".".

Fixpoint all_chars (p : ascii -> bool) (s : string) : bool :=
  match s with
  | EmptyString => true
  | String c s' => p c && all_chars p s'
  end.

Definition uses_relative : list string :=
  [""; "ftp"; "http"; "gopher"; "nntp"; "imap"; "wais"; "file"; "https"; "shttp"; "mms";
   "prospero"; "rtsp"; "rtspu"; "sftp"; "svn"; "svn+ssh"; "ws"; "wss"].
Definition uses_netloc : list string :=
  [""; "ftp"; "http"; "gopher"; "nntp"; "telnet"; "imap"; "wais"; "file"; "mms"; "https";
   "shttp"; "snews"; "prospero"; "rtsp"; "rtspu"; "rsync"; "svn"; "svn+ssh"; "sftp"; "nfs";
   "git"; "git+ssh"; "ws"; "wss"].
Definition uses_params : list string :=
  [""; "ftp"; "hdl"; "prospero"; "http"; "imap"; "https"; "shttp"; "rtsp"; "rtspu"; "sip";
   "sips"; "mms"; "sftp"; "tel"].

Definition mem (x : string) (l : list string) : bool := existsb (String.eqb x) l.

(** [_splitparams]: the parameters follow the first [";"] of the last
    segment of the path. *)
Definition splitparams (url : string) : string * string :=
  let segs := split "/" url in
  let lastseg := last_item segs in
  let r := break (Ascii.eqb ";") lastseg in
  if truthy_str r.2
  then (String.substring 0 (String.length url - String.length r.2) url, tail r.2)
  else (url, EmptyString).

(** [urlparse(url, scheme=default)] *)
Definition urlparse_with (default : string) (url : string) : outcome ParseResult :=
  let r := break (Ascii.eqb ":") url in
  let '(sch, url1) :=
    if truthy_str r.1 && truthy_str r.2 && all_chars scheme_char r.1
       && match r.1 with String c _ => isalpha c | EmptyString => false end
    then (lower r.1, tail r.2) else (default, url) in
  let '(loc, url2) :=
    if String.prefix "//" url1
    then break (fun c => Ascii.eqb c "/" || Ascii.eqb c "?" || Ascii.eqb c "#") (tail (tail url1))
    else (EmptyString, url1) in
  if xorb (contains "[" loc) (contains "]" loc) then Raised (ValueError "Invalid IPv6 URL") else
  let f := break (Ascii.eqb "#") url2 in
  let q := break (Ascii.eqb "?") f.1 in
  let '(pth, prm) := if mem sch uses_params && contains ";" q.1 then splitparams q.1
                     else (q.1, EmptyString) in
  Returned (Make_ParseResult sch loc pth prm (tail q.2) (tail f.2)).

Definition urlparse_model (url : string) : outcome ParseResult := urlparse_with EmptyString url.

(** [urlunparse] *)
Definition urlunparse (p : ParseResult) : string :=
  let url := if truthy_str (params p) then path p +:+ ";" +:+ params p else path p in
  let url :=
    if truthy_str (netloc p)
       || (truthy_str (scheme p) && mem (scheme p) uses_netloc && negb (String.prefix "//" url))
    then "//" +:+ netloc p +:+
         (if truthy_str url && negb (String.prefix "/" url) then "/" +:+ url else url)
    else url in
  let url := if truthy_str (scheme p) then scheme p +:+ ":" +:+ url else url in
  let url := if truthy_str (query p) then url +:+ "?" +:+ query p else url in
  if truthy_str (fragment p) then url +:+ "#" +:+ fragment p else url.

(** The loop of [urljoin] over the segments: [".."] pops, ["."] is skipped. *)
Definition resolve_segments (segments : list string) : list string :=
  fold_left (fun resolved seg =>
    if String.eqb seg ".." then removelast resolved
    else if String.eqb seg "." then resolved
    else resolved ++ [seg]) segments [].

(** [segments[1:-1] = filter(None, segments[1:-1])] *)
Definition drop_empty_inner (segments : list string) : list string :=
  match segments with
  | [] => []
  | [x] => [x]
  | x :: rest => x :: List.filter truthy_str (removelast rest) ++ [List.last rest EmptyString]
  end.

Definition urljoin_model (base url : string) : outcome string :=
  if negb (truthy_str base) then Returned url else
  if negb (truthy_str url) then Returned base else
  b ← urlparse_with EmptyString base;
  u ← urlparse_with (scheme b) url;
  if negb (String.eqb (scheme u) (scheme b)) || negb (mem (scheme u) uses_relative)
  then Returned url
  else if mem (scheme u) uses_netloc && truthy_str (netloc u)
  then Returned (urlunparse u)
  else
    let loc := if mem (scheme u) uses_netloc then netloc b else netloc u in
    if negb (truthy_str (path u)) && negb (truthy_str (params u))
    then Returned (urlunparse (Make_ParseResult (scheme u) loc (path b) (params b)
                     (if truthy_str (query u) then query u else query b) (fragment u)))
    else
      let base_parts := split "/" (path b) in
      let base_parts := if truthy_str (last_item base_parts) then removelast base_parts
                        else base_parts in
      let segments := if String.prefix "/" (path u) then split "/" (path u)
                      else drop_empty_inner (base_parts ++ split "/" (path u)) in
      let resolved := resolve_segments segments in
      let resolved := if mem (last_item segments) ["."; ".."] then resolved ++ [EmptyString]
                      else resolved in
      let joined := join "/" resolved in
      Returned (urlunparse (Make_ParseResult (scheme u) loc
                  (if truthy_str joined then joined else "/")
                  (params u) (query u) (fragment u))).

End Lib.
Export Lib.

(** ** models.py *)

Module Models.

Record HackathonItem := Make_HackathonItem {
  id : string;
  name : string;
  startDate : string;
  endDate : string;
  status : string;
  testHack : bool;
  tags : option (list string) }.

(** [HackathonItem.to_dict]: [asdict(self)]. *)
Definition to_dict (h : HackathonItem) : gmap string pyval :=
  <["id" := VStr (id h)]>
  (<["name" := VStr (name h)]>
  (<["startDate" := VStr (startDate h)]>
  (<["endDate" := VStr (endDate h)]>
  (<["status" := VStr (status h)]>
  (<["testHack" := VBool (testHack h)]>
  (<["tags" := match tags h with Some l => VStrList l | None => VNone end]> ∅)))))).

(** The formats [parse_iso_date] tries, in this order. *)
Definition date_formats : list string :=
  ["%Y-%m-%d"; "%d %b %Y"; "%d %B %Y"; "%b %d, %Y"; "%B %d, %Y"].

Section Dates.
Context `{UnicodeData}.

(** The [for fmt in ...: try: return ... except Exception: pass] loop: the
    ISO form of the first format that parses, [None] when the loop ends. *)
Fixpoint first_parse (s : string) (fmts : list string) : option string :=
  match fmts with
  | [] => None
  | fmt :: rest =>
      match strptime s fmt with
      | Returned d => Some (isoformat d)
      | Raised _ => first_parse s rest
      end
  end.

Definition parse_iso_date (s : string) : outcome string :=
  let s := strip s in
  match first_parse s date_formats with
  | Some iso => Returned iso
  | None => Returned s
  end.

End Dates.

End Models.

(** ** db.py *)

Module Db.

(** A [MongoClient], known by the URI it was created with. *)
Record client := Make_client { client_uri : string }.

(** What the module asks of the driver. *)
Inductive driver_call :=
  | Connect (uri : string)
  | Ping (uri : string)
  | Close (uri : string)
  | UpdateOne (uri db coll : string) (key : pyval) (item : gmap string pyval).

(** [UpdateResult]: matched, modified, and whether a document was inserted. *)
Record UpdateResult := Make_UpdateResult {
  matched_count : Z; modified_count : Z; upserted : bool }.

(** The module's globals, the process environment, and the driver's side:
    which URIs are answered, the deployment a URI leads to (two URIs may
    lead to the same one), which updates go through (the driver may fail to
    encode one and the deployment may refuse one: rights, reserved names,
    sizes, values it cannot hold), what the collections of each deployment
    hold, the calls received. *)
Record world := Make_world {
  MONGO_URI : string;
  MONGO_DB : string;
  MONGO_COLLECTION : string;
  _client : option client;
  pymongo_installed : bool;
  environ : gmap string string;
  reachable : string -> bool;
  deployment : string -> string;
  accepts : string * string * string -> pyval -> gmap string pyval -> bool;
  collections : gmap (string * string * string) (list (gmap string pyval));
  calls : list driver_call }.

Definition set_MONGO_URI (uri : string) (w : world) : world :=
  Make_world uri (MONGO_DB w) (MONGO_COLLECTION w) (_client w) (pymongo_installed w)
    (environ w) (reachable w) (deployment w) (accepts w) (collections w) (calls w).

Definition set_client (c : option client) (w : world) : world :=
  Make_world (MONGO_URI w) (MONGO_DB w) (MONGO_COLLECTION w) c (pymongo_installed w)
    (environ w) (reachable w) (deployment w) (accepts w) (collections w) (calls w).

Definition log_call (d : driver_call) (w : world) : world :=
  Make_world (MONGO_URI w) (MONGO_DB w) (MONGO_COLLECTION w) (_client w) (pymongo_installed w)
    (environ w) (reachable w) (deployment w) (accepts w) (collections w) (calls w ++ [d]).

Definition set_collection (k : string * string * string) (docs : list (gmap string pyval))
    (w : world) : world :=
  Make_world (MONGO_URI w) (MONGO_DB w) (MONGO_COLLECTION w) (_client w) (pymongo_installed w)
    (environ w) (reachable w) (deployment w) (accepts w) (<[k := docs]> (collections w))
    (calls w).

(** Where the documents of a collection handle are kept: the deployment
    of the client's URI, the database, the collection. *)
Definition namespace (w : world) (col : string * string * string) : string * string * string :=
  (deployment w col.1.1, col.1.2, col.2).

(** A call of the module: its outcome and the world it leaves. *)
Definition action (A : Type) : Type := world -> outcome A * world.

(** [os.getenv(name, default)] *)
Definition getenv (w : world) (name fallback : string) : string :=
  default fallback (environ w !! name).

Definition _ensure_client : action unit := fun w =>
  match _client w with
  | Some _ => (Returned tt, w)
  | None =>
      if negb (pymongo_installed w)
      then (Raised (RuntimeError "pymongo is not installed"), w)
      else
        let uri := MONGO_URI w in
        let w1 := log_call (Ping uri) (log_call (Connect uri) (set_client (Some (Make_client uri)) w)) in
        if reachable w uri then (Returned tt, w1)
        else (Raised (RuntimeError "Failed to connect to MongoDB"),
              set_client None (log_call (Close uri) w1))
  end.

(** The checks the driver makes on a name before it hands a database or
    a collection over ([client[name]], [db[name]]); [InvalidName] when one
    fails. *)
Definition has (sub s : string) : bool :=
  match String.index 0 sub s with
  | Some _ => true
  | None => false
  end.

Definition database_name_ok (n : string) : bool :=
  String.eqb n "$external"
  || truthy_str n
     && negb (existsb (fun c => contains c n)
                [" "; "."; "$"; "/"; "\"; ascii_of_nat 0; ascii_of_nat 34]%char).

Definition collection_name_ok (n : string) : bool :=
  truthy_str n && negb (has ".." n)
  && (negb (contains "$" n) || startswith "oplog.$main" n || startswith "$cmd" n)
  && negb (startswith "." n)
  && negb (bool_decide (last_char n = Some "."%char))
  && negb (contains (ascii_of_nat 0) n).

(** A collection handle: the client's URI, the database, the collection. *)
Definition get_collection (collection_name : option string) : action (string * string * string) :=
  fun w =>
  match _ensure_client w with
  | (Raised e, w1) => (Raised e, w1)
  | (Returned _, w1) =>
      let db_name := getenv w1 "MONGO_DB" (MONGO_DB w1) in
      let coll_name :=
        if truthy_opt collection_name then default "" collection_name
        else getenv w1 "MONGO_COLLECTION" (MONGO_COLLECTION w1) in
      match _client w1 with
      | Some c =>
          if negb (database_name_ok db_name)
          then (Raised (DriverError "InvalidName: database name"), w1)
          else if negb (collection_name_ok coll_name)
          then (Raised (DriverError "InvalidName: collection name"), w1)
          else (Returned (client_uri c, db_name, coll_name), w1)
      | None => (Raised (TypeError "'NoneType' object is not subscriptable"), w1)
      end
  end.

(** Whether the filter [{"id": key}] selects a document: its [id] is the
    key, or an array that holds the key. *)
Definition selects (key : pyval) (d : gmap string pyval) : bool :=
  match d !! "id" with
  | Some v =>
      bool_decide (v = key)
      || match key, v with
         | VStr k, VStrList l => bool_decide (k ∈ l)
         | _, _ => false
         end
  | None => false
  end.

(** [$set] of the fields of [item] on the first document the filter
    selects; [None] when it selects none. The fields are taken as plain
    names. *)
Fixpoint set_first (key : pyval) (item : gmap string pyval) (docs : list (gmap string pyval))
    : option (list (gmap string pyval) * bool) :=
  match docs with
  | [] => None
  | d :: rest =>
      if selects key d
      then Some ((item ∪ d) :: rest, negb (bool_decide (item ∪ d = d)))
      else (fun r => (d :: r.1, r.2)) <$> set_first key item rest
  end.

(** [col.update_one({"id": key}, {"$set": item}, upsert=True)]; the [_id] the
    server adds to an inserted document is left out. *)
Definition update_one (col : string * string * string) (key : pyval) (item : gmap string pyval)
    : action UpdateResult := fun w =>
  let '(uri, db, coll) := col in
  let w1 := log_call (UpdateOne uri db coll key item) w in
  let ns := namespace w col in
  if negb (reachable w uri) then (Raised (DriverError "ServerSelectionTimeoutError"), w1)
  else if negb (accepts w ns key item) then (Raised (DriverError "the update is refused"), w1)
  else
    let docs := default [] (collections w !! ns) in
    match set_first key item docs with
    | Some (docs', changed) =>
        (Returned (Make_UpdateResult 1 (if changed then 1 else 0) false), set_collection ns docs' w1)
    | None =>
        (Returned (Make_UpdateResult 0 0 true),
         set_collection ns (docs ++ [<["id" := key]> item]) w1)
    end.

(** The argument of [upsert_hackathon]: a dict, or some other object. *)
Inductive pyobj :=
  | Dict (d : gmap string pyval)
  | Other (v : pyval).

Definition upsert_hackathon (item : pyobj) : action UpdateResult := fun w =>
  match item with
  | Other _ => (Raised (ValueError "item must be a dict"), w)
  | Dict d =>
      match d !! "id" with
      | None => (Raised (ValueError "item must contain a non-empty 'id' field for upsert"), w)
      | Some key =>
          if negb (truthy key)
          then (Raised (ValueError "item must contain a non-empty 'id' field for upsert"), w)
          else
            match get_collection None w with
            | (Raised e, w1) => (Raised e, w1)
            | (Returned col, w1) => update_one col key d w1
            end
      end
  end.

Definition set_mongo_uri (uri : option string) : action unit := fun w =>
  if negb (truthy_opt uri) then (Returned tt, w)
  else
    let w1 := set_MONGO_URI (default "" uri) w in
    let w2 := match _client w1 with
              | Some c => log_call (Close (client_uri c)) w1
              | None => w1
              end in
    (Returned tt, set_client None w2).

Definition get_mongo_uri : action string := fun w => (Returned (MONGO_URI w), w).

End Db.

(** ** The page as the browser hands it over

    A loaded page is a snapshot of its element tree. An element handle is
    the path from the root element to the element: the positions taken
    among the children at each level. *)

Module Dom.

#[warnings="-register-all"]
Inductive node :=
  | Text (s : string)
  | Elem (tag : string) (attrs : list (string * string)) (children : list node).

Record Page := Make_Page { page_url : string; root : node }.

Definition handle := list nat.

(** The selectors the package uses: [tag], [tag[attr]], [[attr]], [tag.class]. *)
Record selector := Make_selector {
  sel_tag : option string;
  sel_class : option string;
  sel_attr : option string }.

Definition by_tag (t : string) : selector := Make_selector (Some t) None None.
Definition by_tag_attr (t a : string) : selector := Make_selector (Some t) None (Some a).
Definition by_attr (a : string) : selector := Make_selector None None (Some a).
Definition by_tag_class (t c : string) : selector := Make_selector (Some t) (Some c) None.

Fixpoint assoc (k : string) (l : list (string * string)) : option string :=
  match l with
  | [] => None
  | (k', v) :: l' => if String.eqb k k' then Some v else assoc k l'
  end.

(** The whitespace of HTML: tab, LF, FF, CR and the space. *)
Definition html_space (c : ascii) : bool :=
  let n := nat_of_ascii c in
  ((n =? 9) || (n =? 10) || (n =? 12) || (n =? 13) || (n =? 32))%nat.

(** The whitespace-separated words of a [class] attribute. *)
Fixpoint words_from (cur : string) (s : string) : list string :=
  match s with
  | EmptyString => if truthy_str cur then [cur] else []
  | String c s' =>
      if html_space c then (if truthy_str cur then [cur] else []) ++ words_from EmptyString s'
      else words_from (cur +:+ String c EmptyString) s'
  end.

Definition class_list (attrs : list (string * string)) : list string :=
  match assoc "class" attrs with
  | Some v => words_from EmptyString v
  | None => []
  end.

Definition sel_matches (sel : selector) (n : node) : bool :=
  match n with
  | Text _ => false
  | Elem tag attrs _ =>
      match sel_tag sel with Some t => String.eqb t tag | None => true end
      && match sel_class sel with Some c => existsb (String.eqb c) (class_list attrs) | None => true end
      && match sel_attr sel with Some a => bool_decide (is_Some (assoc a attrs)) | None => true end
  end.

Definition children_of (n : node) : list node :=
  match n with
  | Text _ => []
  | Elem _ _ cs => cs
  end.

(** The node a handle points to. *)
Fixpoint resolve (n : node) (h : handle) : option node :=
  match h with
  | [] => Some n
  | i :: h' => c ← children_of n !! i; resolve c h'
  end.

(** The elements below [n] in document order, each with its path from [n]. *)
Fixpoint descendants (n : node) : list (handle * node) :=
  match n with
  | Text _ => []
  | Elem _ _ cs =>
      (fix go (i : nat) (l : list node) : list (handle * node) :=
         match l with
         | [] => []
         | c :: l' =>
             match c with
             | Elem _ _ _ => [([i], c)]
             | Text _ => []
             end
             ++ map (fun hn => (i :: hn.1, hn.2)) (descendants c)
             ++ go (S i) l'
         end) 0%nat cs
  end.

(** [node.textContent] *)
Fixpoint text_of (n : node) : string :=
  match n with
  | Text s => s
  | Elem _ _ cs =>
      (fix go (l : list node) : string :=
         match l with
         | [] => EmptyString
         | c :: l' => text_of c +:+ go l'
         end) cs
  end.

Section Handles.
Context (page : Page).

(** [el.query_selector_all(sel)]: the matching elements below [el]. *)
Definition query_selector_all (el : handle) (sel : selector) : list handle :=
  match resolve (root page) el with
  | Some n => map (fun hn => el ++ hn.1) (List.filter (fun hn => sel_matches sel hn.2) (descendants n))
  | None => []
  end.

(** [el.query_selector(sel)]: the first of them, or [None]. *)
Definition query_selector (el : handle) (sel : selector) : option handle :=
  head (query_selector_all el sel).

(** [page.query_selector_all(sel)]: the root element counts as well. *)
Definition page_query_selector_all (sel : selector) : list handle :=
  (if sel_matches sel (root page) then [[]] else []) ++ query_selector_all [] sel.

Definition page_query_selector (sel : selector) : option handle :=
  head (page_query_selector_all sel).

(** [el.evaluate_handle("el => el.parentElement").as_element()] *)
Definition parent_element (el : handle) : option handle :=
  match el with
  | [] => None
  | _ :: _ => Some (removelast el)
  end.

(** [el.text_content() or ""] *)
Definition text_content (el : handle) : string :=
  match resolve (root page) el with
  | Some n => text_of n
  | None => EmptyString
  end.

(** [el.get_attribute(name)] *)
Definition get_attribute (el : handle) (name : string) : option string :=
  match resolve (root page) el with
  | Some (Elem _ attrs _) => assoc name attrs
  | _ => None
  end.

End Handles.

(** What [context.new_page().goto(url, timeout)] comes to: the page, a
    [TimeoutError], or another error of the browser. *)
Inductive navigation :=
  | Loaded (p : Page)
  | TimedOut
  | Failed (e : exn).

Class Browser := goto : string -> navigation.

End Dom.
Export Dom.

(** ** scraper.py *)

Module Scraper.

Section Helpers.
Context `{UrlLib}.

Definition slug_from_url (url : string) : outcome string :=
  p ← urlparse url;
  let path := rstrip "/" (Lib.path p) in
  if negb (truthy_str path) || String.eqb path "/"
  then p' ← urlparse url; mret (replace "." "-" (netloc p'))
  else mret (last_item (split "/" path)).

Definition normalize_url (base href : string) : outcome string := urljoin base href.

End Helpers.

(** An item of the listing: the dict with the keys [title], [url],
    [submission_period], [begins_iso], [ends_iso]. *)
Record entry := Make_entry {
  title : string;
  url : string;
  submission_period : option string;
  begins_iso : option string;
  ends_iso : option string }.

Definition h3_marker : selector := by_tag_attr "h3" "data-v-64e017b4".
Definition sel_a : selector := by_tag "a".
Definition sel_a_href : selector := by_tag_attr "a" "href".
Definition sel_submission_period : selector := by_tag_class "div" "submission-period".
Definition sel_iso_date : selector := by_attr "data-iso-date".
Definition sel_td_iso_date : selector := by_tag_attr "td" "data-iso-date".
Definition sel_h1 : selector := by_tag "h1".

Section Listing.
Context `{UrlLib} (page : Page).

(** The walk up from the heading, at most [n] parents: the [href] of the
    first anchor found below a parent; [None] when the walk ends without
    one or the anchor has no [href]. *)
Fixpoint anchor_walk (n : nat) (ancestor : handle) : option string :=
  match n with
  | O => None
  | S k =>
      match parent_element ancestor with
      | None => None
      | Some parent =>
          match query_selector page parent sel_a with
          | Some anchor => get_attribute page anchor "href"
          | None => anchor_walk k parent
          end
      end
  end.

(** The [href] of a heading: the anchor inside it, else the walk up four
    levels; when that gave nothing, any [a[href]] inside the heading. *)
Definition heading_href (h3 : handle) : option string :=
  let href :=
    match query_selector page h3 sel_a with
    | Some a_el => get_attribute page a_el "href"
    | None => anchor_walk 4 h3
    end in
  if truthy_opt href then href
  else match query_selector page h3 sel_a_href with
       | Some maybe_a => get_attribute page maybe_a "href"
       | None => href
       end.

(** Protocol upgrade and resolution against the page's URL; the [href] as
    it stands when [urljoin] raises. *)
Definition resolve_url (href : string) : string :=
  let href := if startswith "//" href then "https:" +:+ href else href in
  match normalize_url (page_url page) href with
  | Returned u => u
  | Raised _ => href
  end.

(** The walk up from the heading, at most [n] parents, for the first
    [div.submission-period] below a parent. *)
Fixpoint submission_walk (n : nat) (ancestor : handle) : option handle :=
  match n with
  | O => None
  | S k =>
      match parent_element ancestor with
      | None => None
      | Some parent =>
          match query_selector page parent sel_submission_period with
          | Some sp => Some sp
          | None => submission_walk k parent
          end
      end
  end.

Definition make_entry (h3 : handle) (title url : string) : entry :=
  match submission_walk 6 h3 with
  | Some found_sp =>
      let dates := query_selector_all page found_sp sel_iso_date in
      Make_entry title url (Some (strip (text_content page found_sp)))
        (d ← dates !! 0%nat; get_attribute page d "data-iso-date")
        (d ← dates !! 1%nat; get_attribute page d "data-iso-date")
  | None => Make_entry title url None None None
  end.

(** One turn of the loop over the headings: the set [seen] and the list
    [items] before and after. *)
Definition listing_step (acc : gset string * list entry) (h3 : handle)
    : gset string * list entry :=
  let '(seen, items) := acc in
  let title := strip (text_content page h3) in
  match heading_href h3 with
  | None => acc
  | Some href =>
      if negb (truthy_str href) then acc
      else
        let url := resolve_url href in
        if negb (truthy_str url) || bool_decide (url ∈ seen) then acc
        else ({[url]} ∪ seen, items ++ [make_entry h3 title url])
  end.

Definition extract_from_headings (h3_nodes : list handle) : list entry :=
  (fold_left listing_step h3_nodes (∅, [])).2.

Definition extract_listing_items : list entry :=
  extract_from_headings (page_query_selector_all page h3_marker).

End Listing.

(** The display string and the two dates of a card laid out as a table. *)
Definition extract_submission_period_from_listing_card (page : Page) (card : handle)
    : option string * option string * option string :=
  let td_nodes := query_selector_all page card sel_td_iso_date in
  match td_nodes with
  | _ :: _ =>
      let texts := map (fun n => strip (text_content page n)) td_nodes in
      (Some (join " — " (List.filter truthy_str texts)),
       (d ← td_nodes !! 0%nat; get_attribute page d "data-iso-date"),
       (d ← td_nodes !! 1%nat; get_attribute page d "data-iso-date"))
  | [] =>
      match query_selector_all page card (by_tag "td") with
      | td0 :: td1 :: td2 :: _ =>
          if bool_decide (String.index 0 "submissions" (lower (strip (text_content page td0))) <> None)
          then (Some (strip (text_content page td1) +:+ " — " +:+ strip (text_content page td2)),
                get_attribute page td1 "data-iso-date",
                get_attribute page td2 "data-iso-date")
          else (None, None, None)
      | _ => (None, None, None)
      end
  end.

Section Status.
Context `{IsoParser}.

(** [datetime.fromisoformat(x.replace("Z", "+00:00")) if x else None] *)
Definition parse_optional (x : option string) : outcome (option datetime) :=
  match x with
  | Some str =>
      if truthy_str str then d ← fromisoformat (replace "Z" "+00:00" str); mret (Some d)
      else mret None
  | None => mret None
  end.

(** The body of the [try]: the status it returns, [None] when it falls
    through to the end of the block. *)
Definition status_body (now : datetime) (start_iso end_iso : option string)
    : outcome (option string) :=
  s ← parse_optional start_iso;
  e ← parse_optional end_iso;
  c1 ← match s with
       | Some sd => dt_lt now sd
       | None => mret false
       end;
  if c1 : bool then mret (Some "upcoming") else
  c2 ← match s, e with
       | Some sd, Some ed => b ← dt_le sd now; if b : bool then dt_le now ed else mret false
       | _, _ => mret false
       end;
  if c2 : bool then mret (Some "running") else
  c3 ← match e with
       | Some ed => dt_gt now ed
       | None => mret false
       end;
  if c3 : bool then mret (Some "ended") else mret None.

(** [clock] is what the system clock reads when the function is called. *)
Definition determine_status_from_iso (clock : timestamp) (start_iso end_iso : option string)
    : outcome string :=
  match status_body (utcnow clock) start_iso end_iso with
  | Returned (Some st) => Returned st
  | Returned None => Returned "upcoming"
  | Raised _ => Returned "upcoming"
  end.

End Status.

Section Orchestrator.
Context `{IsoParser} `{UrlLib} `{Browser}.

(** [x or y] on optional strings. *)
Definition or_else (x y : option string) : option string :=
  if truthy_opt x then x else y.

(** The visit of the detail page: the title and the dates after it. A
    timeout leaves them as they were; another error of the browser leaves
    the [try] of the item. *)
Definition enrich (item_url name : string) (begins_iso ends_iso : option string)
    : outcome (string * option string * option string) :=
  match goto item_url with
  | Loaded detail_page =>
      let name :=
        match page_query_selector detail_page sel_h1 with
        | Some h1 =>
            let h1_text := strip (text_content detail_page h1) in
            if truthy_str h1_text then h1_text else name
        | None => name
        end in
      let date_tds := page_query_selector_all detail_page sel_td_iso_date in
      let begins_iso :=
        match date_tds !! 0%nat with
        | Some td => or_else (get_attribute detail_page td "data-iso-date") begins_iso
        | None => begins_iso
        end in
      let ends_iso :=
        match date_tds !! 1%nat with
        | Some td => or_else (get_attribute detail_page td "data-iso-date") ends_iso
        | None => ends_iso
        end in
      Returned (name, begins_iso, ends_iso)
  | TimedOut => Returned (name, begins_iso, ends_iso)
  | Failed e => Raised e
  end.

Definition opt_val (x : option string) : pyval :=
  match x with
  | Some s => VStr s
  | None => VNone
  end.

(** The submission period of the document: the listing's text, else the
    dates that are known, joined. *)
Definition period_of (it : entry) (begins_iso ends_iso : option string) : option string :=
  if truthy_opt (submission_period it) then submission_period it
  else
    let parts := (if truthy_opt begins_iso then [default "" begins_iso] else [])
                 ++ (if truthy_opt ends_iso then [default "" ends_iso] else []) in
    match parts with
    | [] => None
    | _ => Some (join " — " parts)
    end.

(** The document of one item of the listing, as the loop builds it before
    the upsert. *)
Definition assemble (clock : timestamp) (it : entry) : outcome (gmap string pyval) :=
  let item_url := url it in
  let name := title it in
  '(name, begins_iso, ends_iso) ←
    (if truthy_str item_url then enrich item_url name (begins_iso it) (ends_iso it)
     else Returned (name, begins_iso it, ends_iso it));
  let submission_period := period_of it begins_iso ends_iso in
  status ← determine_status_from_iso clock begins_iso ends_iso;
  id ← (if truthy_str item_url then slug_from_url item_url else Returned name);
  mret (<["id" := VStr id]>
        (<["name" := VStr name]>
        (<["submission_period" := opt_val submission_period]>
        (<["status" := VStr status]> ∅)))).

(** The loop over the items: the documents built so far and the world of
    the gateway. An item whose processing raises is reported and left out;
    a failed upsert is reported and the document kept. [clock n] is the
    reading of the clock at the [n]-th item. *)
Fixpoint process_items (clock : nat -> timestamp) (idx : nat) (items : list entry)
    (results : list (gmap string pyval)) (w : Db.world)
    : list (gmap string pyval) * Db.world :=
  match items with
  | [] => (results, w)
  | it :: rest =>
      match assemble (clock idx) it with
      | Returned doc =>
          let w' := (Db.upsert_hackathon (Db.Dict doc) w).2 in
          process_items clock (S idx) rest (results ++ [doc]) w'
      | Raised _ => process_items clock (S idx) rest results w
      end
  end.

Definition scrape_all_from_listing (clock : nat -> timestamp) (listing_url : string) (limit : Z)
    (w : Db.world) : outcome (list (gmap string pyval)) * Db.world :=
  match goto listing_url with
  | Loaded page =>
      let items := extract_listing_items page in
      let items := if 0 <? limit then take (Z.to_nat limit) items else items in
      let '(results, w') := process_items clock 1 items [] w in
      (Returned results, w')
  | TimedOut => (Raised (BrowserError "Timeout exceeded"), w)
  | Failed e => (Raised e, w)
  end.

End Orchestrator.

End Scraper.

(** ** scraper.py: the diagnostic and the command line *)

Module Cli.

(** What [diagnose_db] prints, line by line. *)
Inductive report :=
  | Header
  | Config (uri db coll : string)
  | UriNotSet
  | DriverMissing
  | ConnectFailed
  | Connected (coll : string) (count : nat)
  | SamplesHeader
  | Sample (fields : gmap string pyval)
  | ReadFailed.

(** What [diagnose_db] asks of the driver, through a client of its own. *)
Inductive diag_call :=
  | DConnect (uri : string)
  | DPing (uri : string)
  | DCount (uri db coll : string)
  | DFind (uri db coll : string) (limit : nat)
  | DClose (uri : string).

(** [{k: s.get(k) for k in ("id", "name", "submission_period", "status", "_id")}] *)
Definition sample_fields (s : gmap string pyval) : gmap string pyval :=
  list_to_map
    (map (fun k => (k, default VNone (s !! k)))
       ["id"; "name"; "submission_period"; "status"; "_id"]).

(** How the two reads go once the server has answered the ping. *)
Inductive reads :=
  | ReadsOk
  | CountFails
  | FindFails.

(** [diagnose_db()]: the lines printed and the calls made to the driver.
    The function assigns no global of either module and writes nothing to
    the store. A name the driver refuses is an error of the reads. *)
Definition diagnose_db (r : reads) (w : Db.world) : list report * list diag_call :=
  let uri := Db.getenv w "MONGO_URI" "mongodb://localhost:27017" in
  let db_name := Db.getenv w "MONGO_DB" "hackathons" in
  let coll_name := Db.getenv w "MONGO_COLLECTION" "hack-info" in
  let head := [Header; Config (if truthy_str uri then uri else "(not set)") db_name coll_name] in
  if negb (truthy_str uri) then (head ++ [UriNotSet], [])
  else if negb (Db.pymongo_installed w) then (head ++ [DriverMissing], [])
  else if negb (Db.reachable w uri) then (head ++ [ConnectFailed], [DConnect uri; DPing uri])
  else if negb (Db.database_name_ok db_name && Db.collection_name_ok coll_name)
  then (head ++ [ReadFailed], [DConnect uri; DPing uri; DClose uri])
  else
    let docs := default [] (Db.collections w !! Db.namespace w (uri, db_name, coll_name)) in
    match r with
    | CountFails =>
        (head ++ [ReadFailed],
         [DConnect uri; DPing uri; DCount uri db_name coll_name; DClose uri])
    | FindFails =>
        (head ++ [Connected coll_name (length docs); ReadFailed],
         [DConnect uri; DPing uri; DCount uri db_name coll_name;
          DFind uri db_name coll_name 3; DClose uri])
    | ReadsOk =>
        (head ++ [Connected coll_name (length docs); SamplesHeader]
              ++ map (fun s => Sample (sample_fields s)) (take 3 docs),
         [DConnect uri; DPing uri; DCount uri db_name coll_name;
          DFind uri db_name coll_name 3; DClose uri])
    end.

(** The arguments of the command line, after [argparse]; [--delay] only
    sets the pause between two items. *)
Record args := Make_args {
  listing_url : string;
  limit : Z;
  diagnose : bool;
  mongo_uri : option string }.

(** What a run of [main] leaves: the diagnostic when one was asked for,
    else the documents of the batch or the error re-raised. *)
Inductive run :=
  | Diagnosed (printed : list report) (driver : list diag_call)
  | Scraped (result : outcome (list (gmap string pyval))).

Section Main.
Context `{IsoParser} `{UrlLib} `{Browser}.

(** [main()] of scraper.py. The URI given with [--mongo-uri] is set first;
    [--diagnose-db] then runs the diagnostic and leaves; otherwise the batch
    runs and its error, if any, is printed and re-raised. *)
Definition main (a : args) (r : reads) (clock : nat -> timestamp) (w : Db.world)
    : run * Db.world :=
  let w1 := if truthy_opt (mongo_uri a) then (Db.set_mongo_uri (mongo_uri a) w).2 else w in
  if diagnose a then
    let d := diagnose_db r w1 in (Diagnosed d.1 d.2, w1)
  else
    let res := Scraper.scrape_all_from_listing clock (listing_url a) (limit a) w1 in
    (Scraped res.1, res.2).

End Main.

End Cli.

(** ** The specification's wording of the status table *)

Module Spec.

Section Tables.
Context `{IsoParser}.

(** How a timestamp argument reads: not given (or empty), given and
    refused by the parser, given and parsed. *)
Inductive reading :=
  | Absent
  | Unparsable
  | Parsed (d : datetime).

Definition read (x : option string) : reading :=
  match x with
  | None => Absent
  | Some str =>
      if truthy_str str
      then match fromisoformat (replace "Z" "+00:00" str) with
           | Returned d => Parsed d
           | Raised _ => Unparsable
           end
      else Absent
  end.

(** The table compares wall-clock fields against the UTC clock; for a
    timestamp without offset, and for one with offset zero (the [Z] form),
    that is the order of the instants. *)
Definition before (a b : timestamp) : bool := is_lt (cmp_fields a b).
Definition not_after (a b : timestamp) : bool := negb (is_gt (cmp_fields a b)).
Definition after (a b : timestamp) : bool := is_gt (cmp_fields a b).

Definition start_in_future (now : timestamp) (s : reading) : bool :=
  match s with
  | Parsed sd => before now (fields sd)
  | _ => false
  end.

Definition within (now : timestamp) (s e : reading) : bool :=
  match s, e with
  | Parsed sd, Parsed ed => not_after (fields sd) now && not_after now (fields ed)
  | _, _ => false
  end.

Definition end_in_past (now : timestamp) (e : reading) : bool :=
  match e with
  | Parsed ed => after now (fields ed)
  | _ => false
  end.

Definition is_parsed (r : reading) : bool :=
  match r with
  | Parsed _ => true
  | _ => false
  end.

Definition is_unparsable (r : reading) : bool :=
  match r with
  | Unparsable => true
  | _ => false
  end.

(** The table as the specification words it: both absent, upcoming; start
    in the future, upcoming; start <= now <= end, running; only the end
    present and in the past, ended; upcoming in every remaining case. *)
Definition deriveStatus_stated (now : timestamp) (s e : reading) : string :=
  match s, e with
  | Absent, Absent => "upcoming"
  | _, _ =>
      if start_in_future now s then "upcoming"
      else if within now s e then "running"
      else if negb (is_parsed s) && end_in_past now e then "ended"
      else "upcoming"
  end.

(** The table with its third line as the code has it: the end in the past
    gives ended also when the start parsed (and is not in the future); a
    start that is given and does not parse gives upcoming. *)
Definition deriveStatus_table (now : timestamp) (s e : reading) : string :=
  match s, e with
  | Absent, Absent => "upcoming"
  | _, _ =>
      if start_in_future now s then "upcoming"
      else if within now s e then "running"
      else if negb (is_unparsable s) && end_in_past now e then "ended"
      else "upcoming"
  end.

(** A reading without UTC offset. *)
Definition offset_free (r : reading) : Prop :=
  match r with
  | Parsed d => tzinfo d = None
  | _ => True
  end.

End Tables.

(** The detail page of an item supplies no title and no dates: it timed
    out, or it has no [h1] with text and no [td[data-iso-date]]. *)
Definition no_override `{Browser} (item_url : string) : Prop :=
  match goto item_url with
  | Loaded detail_page =>
      match page_query_selector detail_page Scraper.sel_h1 with
      | Some h1 => strip (text_content detail_page h1) = ""
      | None => True
      end
      /\ page_query_selector_all detail_page Scraper.sel_td_iso_date = []
  | TimedOut => True
  | Failed _ => False
  end.

(** The path of a URL without its trailing slashes names no segment. *)
Definition no_segment (stripped : string) : bool :=
  negb (truthy_str stripped) || String.eqb stripped "/".

(** The most characters a match of [r] can consume, when [r] has no [\s+]. *)
Fixpoint max_len (r : regex) : option nat :=
  match r with
  | Eps | Never => Some 0%nat
  | Cls _ => Some 1%nat
  | Seq r1 r2 => a ← max_len r1; b ← max_len r2; Some (a + b)%nat
  | Alt r1 r2 => a ← max_len r1; b ← max_len r2; Some (Nat.max a b)
  | Ws1 => None
  | Group _ r1 => max_len r1
  end.

(** Every match of [r] goes through a [\s+]. *)
Fixpoint needs_space (r : regex) : bool :=
  match r with
  | Eps | Never | Cls _ => false
  | Seq r1 r2 => needs_space r1 || needs_space r2
  | Alt r1 r2 => needs_space r1 && needs_space r2
  | Ws1 => true
  | Group _ r1 => needs_space r1
  end.

(** None of the characters is whitespace. *)
Definition no_space (l : list string) : bool :=
  forallb (fun ch => negb (char_isspace ch)) l.

(** A character held in one byte. *)
Definition single (c : ascii) : string := String c EmptyString.

(** A list of characters as [chars] gives them: each is a byte followed by
    continuation bytes, and each but the first starts with a byte that is
    not one. *)
Definition is_char (t : string) : bool :=
  match t with
  | String _ r => all_chars is_continuation r
  | EmptyString => false
  end.

Definition starts_char (t : string) : bool :=
  match t with
  | String c _ => negb (is_continuation c)
  | EmptyString => false
  end.

Definition canonical (l : list string) : Prop :=
  Forall (fun t => is_char t = true) l
  /\ Forall (fun t => starts_char t = true) (List.tl l).

(** No byte of the string is a continuation byte: each is a character. *)
Definition bytewise (s : string) : bool :=
  all_chars (fun c => negb (is_continuation c)) s.

(** [strptime] refuses the data under this format. *)
Definition refused `{UnicodeData} (data fmt : string) : Prop :=
  exists e, strptime data fmt = Raised e.

(** The ISO form of a date at midnight: [dddd-dd-ddT00:00:00]. *)
Definition midnight_form (r : string) : Prop :=
  exists y1 y2 y3 y4 m1 m2 d1 d2,
    forallb isdigit [y1; y2; y3; y4; m1; m2; d1; d2] = true
    /\ r = String y1 (String y2 (String y3 (String y4 (String "-"
            (String m1 (String m2 (String "-" (String d1 (String d2 "T00:00:00"))))))))).

(** What the loop over the headings keeps true: the URLs of the items are
    distinct, not empty, and all in [seen]. *)
Definition listing_inv (acc : gset string * list Scraper.entry) : Prop :=
  NoDup (map Scraper.url acc.2)
  /\ Forall (fun it => Scraper.url it <> "") acc.2
  /\ forall u, u ∈ map Scraper.url acc.2 -> u ∈ acc.1.

(** A record whose ['id'] is missing or empty. *)
Definition id_missing_or_empty (item : gmap string pyval) : Prop :=
  match item !! "id" with
  | None => True
  | Some v => truthy v = false
  end.

(** The outcome is a validation error. *)
Definition is_validation_error {A} (o : outcome A) : Prop :=
  match o with
  | Raised (ValueError _) => True
  | _ => False
  end.

(** The text [YYYY-MM-DD] of a date, as [isoformat] prints it. *)
Definition date_text (y m d : Z) : string :=
  digits 4 y +:+ "-" +:+ digits 2 m +:+ "-" +:+ digits 2 d.

(** The expression [\d\d\d\d] of [%Y] and the expression of [-%m-%d]. *)
Definition re_year : regex :=
  Group "Y" (Seq (Cls Digit) (Seq (Cls Digit) (Seq (Cls Digit) (Cls Digit)))).
Definition re_month_day : option regex := pattern "-%m-%d".

(** *** Notions used for the gateway *)

(** The URI the next store operation talks to: the one of the cached
    client, else [MONGO_URI]. *)
Definition uri_in_effect (w : Db.world) : string :=
  match Db._client w with
  | Some c => Db.client_uri c
  | None => Db.MONGO_URI w
  end.

(** The collection [upsert_hackathon] writes to. *)
Definition target (w : Db.world) : string * string * string :=
  (uri_in_effect w,
   Db.getenv w "MONGO_DB" (Db.MONGO_DB w),
   Db.getenv w "MONGO_COLLECTION" (Db.MONGO_COLLECTION w)).

(** A connection can be had: a client is cached or the driver is
    installed, and the server of the URI in effect answers. *)
Definition can_connect (w : Db.world) : Prop :=
  (is_Some (Db._client w) \/ Db.pymongo_installed w = true)
  /\ Db.reachable w (uri_in_effect w) = true.

(** The driver takes the names of the database and of the collection. *)
Definition names_ok (w : Db.world) : Prop :=
  Db.database_name_ok (Db.getenv w "MONGO_DB" (Db.MONGO_DB w)) = true
  /\ Db.collection_name_ok (Db.getenv w "MONGO_COLLECTION" (Db.MONGO_COLLECTION w)) = true.

(** The collection can be had: a connection can, and the names pass. *)
Definition collection_at_hand (w : Db.world) : Prop := can_connect w /\ names_ok w.

(** The fields of an item are plain names: [$set] reads a name with a dot
    as a path into the document and a leading [$] as an operator, and
    [_id] cannot be set on a document that has one. *)
Definition plain_field (k : string) : bool :=
  truthy_str k && negb (contains "." k) && negb (startswith "$" k)
  && negb (contains (ascii_of_nat 0) k) && negb (String.eqb k "_id").

Definition plain_fields (item : gmap string pyval) : Prop :=
  forall k, is_Some (item !! k) -> plain_field k = true.

(** The deployment carries out the upsert of [item] under [key] in the
    target collection. *)
Definition taken (w : Db.world) (key : pyval) (item : gmap string pyval) : Prop :=
  Db.accepts w (Db.namespace w (target w)) key item = true.

(** The deployment refuses no update of the target collection. *)
Definition takes_all (w : Db.world) : Prop :=
  forall key item, Db.accepts w (Db.namespace w (target w)) key item = true.

(** The documents of a collection of the world: those its deployment
    holds under the names of the database and of the collection. *)
Definition docs_of (w : Db.world) (col : string * string * string) : list (gmap string pyval) :=
  default [] (Db.collections w !! Db.namespace w col).

(** A value that is not an array. *)
Definition scalar (v : pyval) : Prop :=
  match v with
  | VStrList _ => False
  | _ => True
  end.

(** The ['id'] fields of the documents that have one. *)
Definition doc_ids (docs : list (gmap string pyval)) : list pyval :=
  omap (fun d : gmap string pyval => d !! "id") docs.

(** The documents the loop over the items builds: those of the items whose
    processing returns, in order; [clock n] is read at the [n]-th item. *)
Fixpoint assembled `{IsoParser} `{UrlLib} `{Browser} (clock : nat -> timestamp) (idx : nat)
    (items : list Scraper.entry) : list (gmap string pyval) :=
  match items with
  | [] => []
  | it :: rest =>
      match Scraper.assemble (clock idx) it with
      | Returned doc => doc :: assembled clock (S idx) rest
      | Raised _ => assembled clock (S idx) rest
      end
  end.

(** The shape of a document of the batch: the four keys, a status among
    the three, and a submission period that is [None] or a non-empty text. *)
Definition batch_document (doc : gmap string pyval) : Prop :=
  dom doc = ({["id"; "name"; "submission_period"; "status"]} : gset string)
  /\ (exists i, doc !! "id" = Some (VStr i))
  /\ (exists n, doc !! "name" = Some (VStr n))
  /\ (doc !! "submission_period" = Some VNone
      \/ exists p, doc !! "submission_period" = Some (VStr p) /\ p <> "")
  /\ (doc !! "status" = Some (VStr "upcoming")
      \/ doc !! "status" = Some (VStr "running")
      \/ doc !! "status" = Some (VStr "ended")).

(** What a collection holds after [update_one] with [upsert=True]. *)
Definition upserted_docs (key : pyval) (item : gmap string pyval)
    (docs : list (gmap string pyval)) : list (gmap string pyval) :=
  match Db.set_first key item docs with
  | Some r => r.1
  | None => docs ++ [<["id" := key]> item]
  end.

End Spec.

(** ** Instances and sample data used to run the definitions *)

Module Samples.

(** The decimal digits of Unicode 14.0 outside ASCII: they come in blocks
    of ten, zero to nine, and the blocks start at these code points. *)
Definition decimal_blocks : list N :=
  [1632; 1776; 1984; 2406; 2534; 2662; 2790; 2918; 3046; 3174; 3302; 3430; 3558;
   3664; 3792; 3872; 4160; 4240; 6112; 6160; 6470; 6608; 6784; 6800; 6992; 7088;
   7232; 7248; 42528; 43216; 43264; 43472; 43504; 43600; 44016; 65296; 66720;
   68912; 69734; 69872; 69942; 70096; 70384; 70736; 70864; 71248; 71360; 71472;
   71904; 72016; 72784; 73040; 73120; 92768; 92864; 93008; 120782; 120792; 120802;
   120812; 120822; 123200; 123632; 125264; 130032]%N.

#[global] Instance model_unicode : UnicodeData := fun n =>
  match List.find (fun b => (b <=? n) && (n <? b + 10))%N decimal_blocks with
  | Some b => Some (Z.of_N (n - b))
  | None => None
  end.

#[global] Instance model_iso : IsoParser := fromisoformat_model.
#[global] Instance model_url : UrlLib :=
  {| urlparse := urlparse_model; urljoin := urljoin_model |}.

(** 2026-11-03T12:00:00 on the UTC clock. *)
Definition clock_2026 : timestamp := Timestamp 2026 11 3 12 0 0 0.

(** A listing with three headings: the first has its anchor three levels
    up, protocol-relative; the second holds an anchor to the same address;
    the third has no anchor within four levels. *)
Definition listing_page : Page :=
  Make_Page "https://devpost.com/hackathons"
    (Elem "html" []
      [Elem "body" []
        [Elem "div" [("class", "card")]
           [Elem "a" [("href", "//alpha.devpost.com/")]
              [Elem "div" []
                 [Elem "h3" [("data-v-64e017b4", "")] [Text " Alpha Hack "]]];
            Elem "div" [("class", "info submission-period")]
              [Elem "span" [("data-iso-date", "2030-01-01T00:00:00Z")] [Text "Jan 01"];
               Text " - ";
               Elem "span" [("data-iso-date", "2030-02-01T00:00:00Z")] [Text "Feb 01, 2030"]]];
         Elem "div" [("class", "card")]
           [Elem "h3" [("data-v-64e017b4", "")]
              [Elem "a" [("href", "https://alpha.devpost.com/")] [Text "Alpha again"]]];
         Elem "div" [("class", "card")]
           [Elem "div" []
              [Elem "div" []
                 [Elem "div" []
                    [Elem "h3" [("data-v-64e017b4", "")] [Text "No link"]]]]]]]).

(** A detail page with neither [h1] nor dated cells. *)
Definition plain_detail_page : Page :=
  Make_Page "https://alpha.devpost.com/"
    (Elem "html" [] [Elem "body" [] [Elem "p" [] [Text "Welcome"]]]).

#[global] Instance sample_browser : Browser := fun u =>
  if String.eqb u "https://devpost.com/hackathons" then Loaded listing_page
  else if String.eqb u "https://alpha.devpost.com/" then Loaded plain_detail_page
  else TimedOut.

(** An item dated 2030 with no end and no text of its own. *)
Definition entry_2030 : Scraper.entry :=
  Scraper.Make_entry "Alpha Hack" "https://alpha.devpost.com/" None
    (Some "2030-01-01T00:00:00Z") None.

(** The entry the listing gives for its first heading. *)
Definition entry_alpha : Scraper.entry :=
  Scraper.Make_entry "Alpha Hack" "https://alpha.devpost.com/"
    (Some "Jan 01 - Feb 01, 2030")
    (Some "2030-01-01T00:00:00Z") (Some "2030-02-01T00:00:00Z").

(** The local server under its two names; every other URI leads to a
    deployment of its own. *)
Definition local_deployment (uri : string) : string :=
  if String.eqb uri "mongodb://127.0.0.1:27017" then "mongodb://localhost:27017" else uri.

(** A process that has not connected yet; only the local server answers. *)
Definition fresh_world : Db.world :=
  Db.Make_world "mongodb://localhost:27017" "hackathons" "hack-info" None true ∅
    (String.eqb "mongodb://localhost:27017") local_deployment (fun _ _ _ => true) ∅ [].

(** The same process once connected. *)
Definition connected_world : Db.world :=
  Db.set_client (Some (Db.Make_client "mongodb://localhost:27017")) fresh_world.

(** [{"id": "abc", "name": "X"}] and [{"id": "abc", "name": "Y"}] *)
Definition item_abc_x : gmap string pyval :=
  <["id" := VStr "abc"]> (<["name" := VStr "X"]> ∅).
Definition item_abc_y : gmap string pyval :=
  <["id" := VStr "abc"]> (<["name" := VStr "Y"]> ∅).

(** The document the batch builds for the one entry of the sample listing. *)
Definition doc_alpha : gmap string pyval :=
  <["id" := VStr "alpha-devpost-com"]>
  (<["name" := VStr "Alpha Hack"]>
  (<["submission_period" := VStr "Jan 01 - Feb 01, 2030"]>
  (<["status" := VStr "upcoming"]> ∅))).

(** A process whose collection of the default target holds four documents. *)
Definition stocked_world : Db.world :=
  Db.Make_world "mongodb://localhost:27017" "hackathons" "hack-info" None true ∅
    (String.eqb "mongodb://localhost:27017") local_deployment (fun _ _ _ => true)
    {[ ("mongodb://localhost:27017", "hackathons", "hack-info")
       := [item_abc_x; item_abc_y; item_abc_x; item_abc_y] ]} [].

(** [--diagnose-db --mongo-uri mongodb://db.example:27017] *)
Definition diagnose_args : Cli.args :=
  Cli.Make_args "https://devpost.com/hackathons" 0 true (Some "mongodb://db.example:27017").

(** [--mongo-uri mongodb://localhost:27017], the batch on the sample listing. *)
Definition batch_args : Cli.args :=
  Cli.Make_args "https://devpost.com/hackathons" 0 false (Some "mongodb://localhost:27017").

(** A process configured for a server that is gone; the local one answers. *)
Definition misconfigured_world : Db.world :=
  Db.Make_world "mongodb://old.example:27017" "hackathons" "hack-info" None true ∅
    (String.eqb "mongodb://localhost:27017") local_deployment (fun _ _ _ => true) ∅ [].

(** A process whose configured server does not answer. *)
Definition offline_world : Db.world :=
  Db.Make_world "mongodb://localhost:27017" "hackathons" "hack-info" None true ∅
    (fun _ => false) local_deployment (fun _ _ _ => true) ∅ [].

End Samples.

(** * Properties *)

Import Scraper Spec Samples.

(** ** Status derivation *)

Section StatusFacts.
Context `{IsoParser}.

Lemma parse_optional_absent x : read x = Absent -> parse_optional x = Returned None.
Proof.
  destruct x as [str|]; cbn; [|done].
  destruct (truthy_str str); [|done].
  destruct (fromisoformat _); discriminate.
Qed.

Lemma parse_optional_parsed x d : read x = Parsed d -> parse_optional x = Returned (Some d).
Proof.
  destruct x as [str|]; cbn; [|discriminate].
  destruct (truthy_str str); [|discriminate].
  destruct (fromisoformat _); [|discriminate]. intros [= ->]. done.
Qed.

Lemma parse_optional_unparsable x :
  read x = Unparsable -> exists e, parse_optional x = Raised e.
Proof.
  destruct x as [str|]; cbn; [|discriminate].
  destruct (truthy_str str); [|discriminate].
  destruct (fromisoformat _) as [d|e]; [discriminate|]. eauto.
Qed.

Lemma parse_optional_cases x :
  match read x with
  | Absent => parse_optional x = Returned None
  | Parsed d => parse_optional x = Returned (Some d)
  | Unparsable => exists e, parse_optional x = Raised e
  end.
Proof.
  destruct (read x) eqn:E;
    eauto using parse_optional_absent, parse_optional_parsed, parse_optional_unparsable.
Qed.

(** Whatever the body of the [try] does, the function returns. *)
Lemma determine_status_returns clock s e :
  exists st, determine_status_from_iso clock s e = Returned st.
Proof.
  unfold determine_status_from_iso.
  destruct (status_body _ _ _) as [[st|]|]; eauto.
Qed.

(** A timestamp the parser refuses ends the [try] before any comparison. *)
Lemma determine_status_unparsable clock s e :
  read s = Unparsable \/ read e = Unparsable ->
  determine_status_from_iso clock s e = Returned "upcoming".
Proof.
  intros Hu. unfold determine_status_from_iso, status_body.
  destruct Hu as [Hs|He].
  - destruct (parse_optional_unparsable _ Hs) as [x ->]. done.
  - destruct (parse_optional_unparsable _ He) as [x ->].
    destruct (parse_optional s); done.
Qed.

(** With no end, no line of the table but the first can fire. *)
Lemma determine_status_no_end clock s :
  determine_status_from_iso clock s None = Returned "upcoming".
Proof.
  unfold determine_status_from_iso, status_body.
  destruct (parse_optional s) as [[sd|]|];
    cbn [mbind mret outcome_bind outcome_ret]; try reflexivity.
  destruct (dt_lt (utcnow clock) sd) as [[]|]; reflexivity.
Qed.

(** The comparison of the naive clock with an aware timestamp raises, so a
    timestamp with an offset (the [Z] form among them) in the place that is
    compared first yields the default. *)
Lemma determine_status_aware_start clock s e d off :
  read s = Parsed d -> tzinfo d = Some off ->
  determine_status_from_iso clock s e = Returned "upcoming".
Proof.
  intros Hs Hd. unfold determine_status_from_iso, status_body.
  rewrite (parse_optional_parsed _ _ Hs).
  destruct (parse_optional e) as [ed|]; cbn; [|reflexivity].
  unfold dt_lt, dt_cmp, utcnow, naive. cbn. rewrite Hd. reflexivity.
Qed.

(** C1, as amended: for timestamps without UTC offset the function follows
    the table: both absent, upcoming; start parsed and now < start,
    upcoming whatever the end; both parsed and start <= now <= end,
    running; end parsed and now > end, with the start absent or parsed and
    not in the future, ended; upcoming in every remaining case. *)
Theorem determine_status_follows_table clock s e :
  offset_free (read s) -> offset_free (read e) ->
  determine_status_from_iso clock s e
  = Returned (deriveStatus_table clock (read s) (read e)).
Proof.
  intros Hs He.
  pose proof (parse_optional_cases s) as Ps.
  pose proof (parse_optional_cases e) as Pe.
  unfold determine_status_from_iso, status_body.
  destruct (read s) as [| |[sf stz]], (read e) as [| |[ef etz]]; cbn in Hs, He; subst;
    repeat match goal with
    | P : exists _, _ |- _ => destruct P as [? P]
    end;
    rewrite ?Ps, ?Pe;
    unfold deriveStatus_table, start_in_future, within, end_in_past, before, not_after, after,
      dt_lt, dt_le, dt_gt, dt_cmp, utcnow, naive;
    cbn [mbind mret outcome_bind outcome_ret fields tzinfo is_unparsable negb andb];
    try reflexivity;
    repeat match goal with
    | |- context [cmp_fields ?a ?b] => destruct (cmp_fields a b)
    end; reflexivity.
Qed.

(** C2, as amended: the function returns for every pair of arguments, and
    a timestamp that is given and does not parse, in either place, makes it
    return the default "upcoming" whatever the other argument is. *)
Theorem determine_status_never_raises clock s e :
  (exists st, determine_status_from_iso clock s e = Returned st)
  /\ (read s = Unparsable \/ read e = Unparsable ->
      determine_status_from_iso clock s e = Returned "upcoming").
Proof.
  split; [apply determine_status_returns | apply determine_status_unparsable].
Qed.

End StatusFacts.

(** Start 2020, end 2040, clock 2026, no offsets: the table says running. *)
Lemma determine_status_follows_table_witness :
  offset_free (read (Some "2020-01-01T00:00:00"))
  /\ offset_free (read (Some "2040-01-01T00:00:00"))
  /\ determine_status_from_iso clock_2026 (Some "2020-01-01T00:00:00")
       (Some "2040-01-01T00:00:00")
     = Returned (deriveStatus_table clock_2026 (read (Some "2020-01-01T00:00:00"))
                   (read (Some "2040-01-01T00:00:00")))
  /\ deriveStatus_table clock_2026 (read (Some "2020-01-01T00:00:00"))
       (read (Some "2040-01-01T00:00:00")) = "running".
Proof.
  split; [reflexivity|]. split; [reflexivity|]. split; [|reflexivity].
  apply (determine_status_follows_table clock_2026
           (Some "2020-01-01T00:00:00") (Some "2040-01-01T00:00:00")); reflexivity.
Defined.

(** C1 as stated fails: start 2020 and end 2021 both parse, the clock reads
    2026; the start is not in the future, now is not within the period, and
    the end is not the only timestamp present, so the stated table says
    upcoming. The function returns ended. *)
Lemma determine_status_stated_counterexample :
  determine_status_from_iso clock_2026 (Some "2020-01-01T00:00:00") (Some "2021-01-01T00:00:00")
  = Returned "ended"
  /\ deriveStatus_stated clock_2026 (read (Some "2020-01-01T00:00:00"))
       (read (Some "2021-01-01T00:00:00")) = "upcoming".
Proof. split; vm_compute; reflexivity. Qed.

(** The same period written with the [Z] suffix: now is within it, and the
    function returns the default. *)
Example determine_status_z_suffix :
  determine_status_from_iso clock_2026 (Some "2020-01-01T00:00:00Z") (Some "2040-01-01T00:00:00Z")
  = Returned "upcoming".
Proof. vm_compute. reflexivity. Qed.

Lemma determine_status_never_raises_witness :
  read (Some "garbage") = Unparsable
  /\ determine_status_from_iso clock_2026 (Some "garbage") (Some "2000-01-01T00:00:00")
     = Returned "upcoming".
Proof.
  split; [reflexivity|].
  apply (proj2 (determine_status_never_raises clock_2026 (Some "garbage")
                  (Some "2000-01-01T00:00:00"))).
  left. reflexivity.
Defined.

(** C2 as stated fails: with the end 2000-01-01 and the clock at 2026, an
    unparsable start gives upcoming, and no start at all gives ended. *)
Lemma determine_status_malformed_counterexample :
  read (Some "garbage") = Unparsable
  /\ determine_status_from_iso clock_2026 (Some "garbage") (Some "2000-01-01T00:00:00")
     = Returned "upcoming"
  /\ determine_status_from_iso clock_2026 None (Some "2000-01-01T00:00:00")
     = Returned "ended".
Proof. repeat split; vm_compute; reflexivity. Qed.

(** ** The gateway *)

Lemma ensure_client_not_validation w :
  ~ is_validation_error (Db._ensure_client w).1.
Proof.
  unfold Db._ensure_client.
  destruct (Db._client w); [intros []|].
  destruct (Db.pymongo_installed w); cbn; [|intros []].
  destruct (Db.reachable w _); intros [].
Qed.

Lemma get_collection_not_validation name w :
  ~ is_validation_error (Db.get_collection name w).1.
Proof.
  unfold Db.get_collection.
  pose proof (ensure_client_not_validation w) as He.
  destruct (Db._ensure_client w) as [[[]|e] w1]; cbn in *; [|exact He].
  destruct (Db._client w1); [|intros []].
  destruct (Db.database_name_ok _); cbn; [|intros []].
  destruct (Db.collection_name_ok _); intros [].
Qed.

Lemma update_one_not_validation col key item w :
  ~ is_validation_error (Db.update_one col key item w).1.
Proof.
  unfold Db.update_one. destruct col as [[uri db] coll].
  destruct (Db.reachable w uri); cbn; [|intros []].
  destruct (Db.accepts w _ _ _); cbn; [|intros []].
  destruct (Db.set_first _ _ _) as [[docs' changed]|]; intros [].
Qed.

(** C3: an upsert of a record whose ['id'] is missing or empty raises the
    validation error and leaves the world as it was: no call reaches the
    driver, the collections and the module's globals are unchanged. With
    an ['id'] that is present and not empty, no validation error is
    raised. *)
Theorem upsert_validates_id (item : gmap string pyval) (w : Db.world) :
  (id_missing_or_empty item ->
     is_validation_error (Db.upsert_hackathon (Db.Dict item) w).1
     /\ (Db.upsert_hackathon (Db.Dict item) w).2 = w)
  /\ (~ id_missing_or_empty item ->
      ~ is_validation_error (Db.upsert_hackathon (Db.Dict item) w).1).
Proof.
  unfold id_missing_or_empty, Db.upsert_hackathon.
  destruct (item !! "id") as [key|]; [|split; [done|tauto]].
  destruct (truthy key); cbn; [|split; [done|congruence]].
  split; [discriminate|]. intros _.
  pose proof (get_collection_not_validation None w) as Hg.
  destruct (Db.get_collection None w) as [[col|e] w1]; cbn in *; [|exact Hg].
  apply update_one_not_validation.
Qed.

(** The empty dict against a process that is connected. *)
Lemma upsert_validates_id_witness :
  id_missing_or_empty ∅
  /\ is_validation_error (Db.upsert_hackathon (Db.Dict ∅) connected_world).1
  /\ (Db.upsert_hackathon (Db.Dict ∅) connected_world).2 = connected_world.
Proof.
  split; [exact I|].
  apply (proj1 (upsert_validates_id ∅ connected_world)). exact I.
Defined.

(** C8: [set_mongo_uri] with a URI that is [None] or empty returns and
    changes nothing. With a non-empty URI it sets [MONGO_URI] to it and
    [_client] to [None], and leaves [MONGO_DB], [MONGO_COLLECTION], the
    environment and the collections as they were; the next
    [_ensure_client] then connects to the new URI. *)
Theorem set_mongo_uri_effect (uri : option string) (w : Db.world) :
  let w' := (Db.set_mongo_uri uri w).2 in
  (Db.set_mongo_uri uri w).1 = Returned tt
  /\ (truthy_opt uri = false -> w' = w)
  /\ (forall u, uri = Some u -> u <> "" ->
      Db.MONGO_URI w' = u
      /\ Db._client w' = None
      /\ Db.MONGO_DB w' = Db.MONGO_DB w
      /\ Db.MONGO_COLLECTION w' = Db.MONGO_COLLECTION w
      /\ Db.pymongo_installed w' = Db.pymongo_installed w
      /\ Db.environ w' = Db.environ w
      /\ Db.collections w' = Db.collections w
      /\ (Db.pymongo_installed w = true ->
          exists rest, Db.calls (Db._ensure_client w').2
                       = Db.calls w' ++ Db.Connect u :: rest)).
Proof.
  unfold Db.set_mongo_uri. cbn zeta.
  destruct (truthy_opt uri) eqn:Ht; cbn [negb].
  - split; [reflexivity|]. split; [discriminate|].
    intros u -> Hu.
    destruct w as [uri0 db coll [c|] inst env reach dep acc cols cs]; cbn;
      (split_and!; try reflexivity);
      intros ->; unfold Db._ensure_client; cbn;
      destruct (reach u); cbn; eexists; rewrite <- ?app_assoc; reflexivity.
  - split; [reflexivity|]. split; [reflexivity|].
    intros u -> Hu. cbn in Ht. unfold truthy_str in Ht.
    apply negb_false_iff, String.eqb_eq in Ht. contradiction.
Qed.

(** A connected process is pointed at another server. *)
Lemma set_mongo_uri_effect_witness :
  Db.MONGO_URI (Db.set_mongo_uri (Some "mongodb://db.example:27017") connected_world).2
  = "mongodb://db.example:27017"
  /\ Db._client (Db.set_mongo_uri (Some "mongodb://db.example:27017") connected_world).2 = None
  /\ (Db.set_mongo_uri (Some "") connected_world).2 = connected_world.
Proof.
  pose proof (set_mongo_uri_effect (Some "mongodb://db.example:27017") connected_world) as H1.
  pose proof (set_mongo_uri_effect (Some "") connected_world) as H2.
  cbv zeta in H1, H2.
  destruct H1 as (_ & _ & H1). destruct H2 as (_ & H2 & _).
  destruct (H1 _ eq_refl ltac:(discriminate)) as (Hu & Hc & _).
  split; [exact Hu|]. split; [exact Hc|]. apply H2. reflexivity.
Defined.

(** ** Strings *)

Lemma truthy_str_true s : truthy_str s = true <-> s <> "".
Proof.
  unfold truthy_str. rewrite negb_true_iff. split.
  - intros Hf ->. rewrite String.eqb_refl in Hf. discriminate.
  - intros Hn. apply String.eqb_neq. exact Hn.
Qed.

Lemma truthy_str_false s : truthy_str s = false <-> s = "".
Proof.
  unfold truthy_str. rewrite negb_false_iff. apply String.eqb_eq.
Qed.

(** What [rstrip_chars] leaves is empty or ends with a character outside
    the stripped class. *)
Lemma rstrip_chars_last p s :
  rstrip_chars p s = "" \/ exists c, last_char (rstrip_chars p s) = Some c /\ p c = false.
Proof.
  induction s as [|a s IH]; cbn; [by left|].
  destruct (rstrip_chars p s) as [|b r] eqn:E.
  - destruct (p a) eqn:Ea; [by left|]. right. exists a. done.
  - right. destruct IH as [IH|(c & Hc & Hp)]; [discriminate|].
    exists c. split; [|done]. exact Hc.
Qed.

Lemma split_nonempty sep s : split sep s <> [].
Proof.
  destruct s as [|a s]; cbn; [done|].
  destruct (Ascii.eqb a sep); [done|]. destruct (split sep s); done.
Qed.

(** The last piece of a split is not empty when the string ends with a
    character other than the separator. *)
Lemma split_last_nonempty sep s c :
  last_char s = Some c -> c <> sep -> last_item (split sep s) <> "".
Proof.
  unfold last_item.
  induction s as [|a s IH]; cbn; [discriminate|].
  intros Hl Hc.
  destruct s as [|b s'].
  - cbn in Hl. injection Hl as ->.
    destruct (Ascii.eqb_spec c sep) as [->|_]; [done|]. cbn. discriminate.
  - specialize (IH Hl Hc).
    pose proof (split_nonempty sep (String b s')) as Hne.
    destruct (split sep (String b s')) as [|h t]; [done|].
    destruct (Ascii.eqb a sep); [exact IH|].
    destruct t as [|h' t']; [cbn; discriminate | exact IH].
Qed.

Lemma replace_char_nonempty old new s :
  s <> "" -> new <> "" -> replace (String old "") new s <> "".
Proof.
  unfold replace. destruct s as [|a s]; [done|]. intros _ Hn. cbn.
  destruct (ascii_dec old a) as [_|_]; [|discriminate].
  replace (String.prefix "" s) with true by (destruct s; reflexivity).
  destruct new as [|n new']; [done|]. discriminate.
Qed.

(** ** Slugs *)

Section SlugFacts.
Context `{UrlLib}.

Lemma slug_from_url_value url p :
  urlparse url = Returned p ->
  slug_from_url url
  = Returned (if no_segment (rstrip "/" (path p)) then replace "." "-" (netloc p)
              else last_item (split "/" (rstrip "/" (path p)))).
Proof.
  intros Hp. unfold slug_from_url, no_segment. rewrite Hp. cbn.
  destruct (negb (truthy_str _) || String.eqb _ "/"); reflexivity.
Qed.

(** C10: [slug_from_url] raises what [urlparse] raises on the URL, and
    only then. On a URL that [urlparse] accepts with a non-empty network
    location it returns, its result is not empty, and it is the location
    with every ["."] replaced by ["-"] when the path without its trailing
    slashes is empty or ["/"], else the last ["/"]-separated segment of
    that path. *)
Theorem slug_from_url_nonempty url :
  (forall e, urlparse url = Raised e -> slug_from_url url = Raised e)
  /\ (forall p, urlparse url = Returned p ->
        (exists slug, slug_from_url url = Returned slug)
        /\ (netloc p <> "" ->
            exists slug,
              slug_from_url url = Returned slug
              /\ slug <> ""
              /\ slug = (if no_segment (rstrip "/" (path p)) then replace "." "-" (netloc p)
                         else last_item (split "/" (rstrip "/" (path p)))))).
Proof.
  split; [intros e He; unfold slug_from_url; by rewrite He|].
  intros p Hp. split; [eexists; apply slug_from_url_value, Hp|].
  intros Hn. eexists. split; [apply slug_from_url_value, Hp|].
  split; [|reflexivity].
  unfold no_segment.
  destruct (truthy_str (rstrip "/" (path p))) eqn:Ht; cbn [negb orb].
  - destruct (String.eqb _ "/"); [apply replace_char_nonempty; done|].
    apply truthy_str_true in Ht.
    destruct (rstrip_chars_last (Ascii.eqb "/") (path p)) as [He|(c & Hc & Hs)]; [done|].
    apply (split_last_nonempty "/" _ c Hc).
    intros ->. cbn in Hs. discriminate.
  - apply replace_char_nonempty; done.
Qed.

End SlugFacts.

(** A path with a segment, and a path that is only a slash. *)
Lemma slug_from_url_nonempty_witness :
  (exists slug, slug_from_url "https://devpost.com/software/alpha//" = Returned slug
                /\ slug <> "" /\ slug = "alpha")
  /\ slug_from_url "https://alpha.devpost.com/" = Returned "alpha-devpost-com".
Proof.
  split; [|reflexivity].
  apply (proj2 (slug_from_url_nonempty "https://devpost.com/software/alpha//")
           (Make_ParseResult "https" "devpost.com" "/software/alpha//" "" "" ""));
    [reflexivity | discriminate].
Defined.

(** C10 as stated fails: the function is not total. The URL below has the
    host part ["[::1"]; [urlparse] refuses the unmatched bracket, and
    [slug_from_url] raises with it. *)
Lemma slug_from_url_total_counterexample :
  urlparse "http://[::1/x" = Raised (ValueError "Invalid IPv6 URL")
  /\ slug_from_url "http://[::1/x" = Raised (ValueError "Invalid IPv6 URL").
Proof. split; reflexivity. Qed.

(** ** The assembled document *)

Section AssembleFacts.
Context `{IsoParser} `{UrlLib} `{Browser}.

(** A detail page that supplies nothing leaves the listing's data as it is. *)
Lemma enrich_no_override item_url name begins ends :
  no_override item_url ->
  enrich item_url name begins ends = Returned (name, begins, ends).
Proof.
  unfold no_override, enrich.
  destruct (goto item_url) as [dp| |e]; [|done|done].
  intros [Hh1 Htd]. rewrite Htd. cbn.
  destruct (page_query_selector dp sel_h1) as [h1|]; [|done].
  rewrite Hh1. reflexivity.
Qed.

(** C7: for an item of the listing with [begins_iso] 2030-01-01T00:00:00Z
    and no [ends_iso], whose detail page supplies no title and no dates,
    the document built has status "upcoming", the listing's title as its
    name, as [id] the slug of the URL when there is one and the title
    otherwise, and as [submission_period] the listing's text when there is
    one and the start timestamp otherwise. *)
Theorem assemble_upcoming_2030 clock (it : entry) (the_id : string) :
  begins_iso it = Some "2030-01-01T00:00:00Z" ->
  ends_iso it = None ->
  (url it <> "" -> no_override (url it)) ->
  (if truthy_str (url it) then slug_from_url (url it) else Returned (title it))
  = Returned the_id ->
  assemble clock it
  = Returned (<["id" := VStr the_id]>
              (<["name" := VStr (title it)]>
              (<["submission_period" :=
                   VStr (if truthy_opt (submission_period it)
                         then default "" (submission_period it)
                         else "2030-01-01T00:00:00Z")]>
              (<["status" := VStr "upcoming"]> ∅)))).
Proof.
  intros Hb He Hno Hid. unfold assemble.
  assert (Hen : (if truthy_str (url it)
                 then enrich (url it) (title it) (begins_iso it) (ends_iso it)
                 else Returned (title it, begins_iso it, ends_iso it))
                = Returned (title it, begins_iso it, ends_iso it)).
  { destruct (truthy_str (url it)) eqn:Hu; [|reflexivity].
    apply enrich_no_override, Hno, truthy_str_true, Hu. }
  rewrite Hen. cbn [mbind outcome_bind].
  rewrite He, determine_status_no_end. cbn [mbind outcome_bind].
  rewrite Hid. cbn [mbind outcome_bind mret outcome_ret].
  unfold period_of. rewrite Hb.
  destruct (submission_period it) as [sp|]; cbn; [|reflexivity].
  destruct (truthy_str sp); reflexivity.
Qed.

End AssembleFacts.

(** The sample item: its detail page has no [h1] and no dated cell. *)
Lemma assemble_upcoming_2030_witness :
  assemble clock_2026 entry_2030
  = Returned (<["id" := VStr "alpha-devpost-com"]>
              (<["name" := VStr "Alpha Hack"]>
              (<["submission_period" := VStr "2030-01-01T00:00:00Z"]>
              (<["status" := VStr "upcoming"]> ∅)))).
Proof.
  apply (assemble_upcoming_2030 clock_2026 entry_2030 "alpha-devpost-com");
    [reflexivity | reflexivity | | reflexivity].
  intros _. split; reflexivity.
Defined.

(** ** Listing extraction *)

Section ListingFacts.
Context `{UrlLib} (page : Page).

Lemma make_entry_url h3 t u : url (make_entry page h3 t u) = u.
Proof. unfold make_entry. destruct (submission_walk _ _ _); reflexivity. Qed.

Lemma sel_a_href_is_a n : sel_matches sel_a_href n = true -> sel_matches sel_a n = true.
Proof.
  destruct n as [|tag attrs cs]; cbn; [done|].
  rewrite !andb_true_r. intros [Ht _]%andb_true_iff. exact Ht.
Qed.

Lemma no_anchor_no_href el :
  query_selector page el sel_a = None -> query_selector page el sel_a_href = None.
Proof.
  unfold query_selector, query_selector_all.
  destruct (resolve (root page) el) as [n|]; [|done].
  induction (descendants n) as [|hn l IH]; [done|]. cbn.
  destruct (sel_matches sel_a_href hn.2) eqn:E.
  - rewrite (sel_a_href_is_a _ E). discriminate.
  - destruct (sel_matches sel_a hn.2); [discriminate|]. exact IH.
Qed.

(** No anchor inside the heading and none below its first four ancestors:
    no [href]. *)
Lemma heading_href_unlinked h3 :
  query_selector page h3 sel_a = None -> anchor_walk page 4 h3 = None ->
  heading_href page h3 = None.
Proof.
  intros Ha Hw. unfold heading_href. rewrite Ha, Hw, (no_anchor_no_href _ Ha). reflexivity.
Qed.

(** A heading that yields no [href] leaves [seen] and [items] as they are. *)
Lemma listing_step_unlinked acc h :
  heading_href page h = None \/ heading_href page h = Some "" ->
  listing_step page acc h = acc.
Proof.
  unfold listing_step. destruct acc as [seen items].
  intros [-> | ->]; reflexivity.
Qed.

Lemma listing_step_inv acc h : listing_inv acc -> listing_inv (listing_step page acc h).
Proof.
  destruct acc as [seen items]. intros (Hnd & Hne & Hin).
  unfold listing_step.
  destruct (heading_href page h) as [href|]; [|done].
  destruct (truthy_str href); cbn [negb]; [|done].
  destruct (truthy_str (resolve_url page href)) eqn:Hu; cbn [negb orb]; [|done].
  case_bool_decide as Hseen; [done|].
  unfold listing_inv. cbn [fst snd].
  rewrite map_app. cbn [map]. rewrite make_entry_url.
  split_and!.
  - apply NoDup_app. split_and!; [done| |apply NoDup_singleton].
    intros u Hu1 Hu2%list_elem_of_singleton. subst u. apply Hseen, Hin, Hu1.
  - apply Forall_app. split; [done|]. apply Forall_singleton.
    rewrite make_entry_url. apply truthy_str_true, Hu.
  - intros u [Hu1|Hu1%list_elem_of_singleton]%elem_of_app; [|set_solver].
    apply elem_of_union_r, Hin, Hu1.
Qed.

Lemma fold_listing_inv hs acc :
  listing_inv acc -> listing_inv (fold_left (listing_step page) hs acc).
Proof.
  revert acc. induction hs as [|h hs IH]; intros acc Hacc; [done|].
  cbn. apply IH, listing_step_inv, Hacc.
Qed.

Lemma listing_inv_start : listing_inv (∅, []).
Proof.
  split_and!; [apply NoDup_nil_2 | apply Forall_nil_2 | ].
  intros u Hu. cbn in Hu. by apply elem_of_nil in Hu.
Qed.

(** C5: the URLs of the entries returned are pairwise distinct, and two
    headings whose [href]s resolve to the same non-empty URL yield exactly
    one entry. *)
Theorem listing_urls_distinct :
  NoDup (map url (extract_listing_items page))
  /\ (forall h1 h2 href1 href2,
        page_query_selector_all page h3_marker = [h1; h2] ->
        heading_href page h1 = Some href1 -> href1 <> "" ->
        heading_href page h2 = Some href2 -> href2 <> "" ->
        resolve_url page href1 = resolve_url page href2 ->
        resolve_url page href1 <> "" ->
        length (extract_listing_items page) = 1%nat).
Proof.
  split.
  - apply (fold_listing_inv _ _ listing_inv_start).
  - intros h1 h2 href1 href2 Hhs H1 Hn1 H2 Hn2 Heq Hne.
    unfold extract_listing_items, extract_from_headings. rewrite Hhs.
    cbn [fold_left]. unfold listing_step at 2. rewrite H1.
    apply truthy_str_true in Hn1, Hn2, Hne. rewrite Hn1, Hne. cbn [negb orb].
    rewrite bool_decide_eq_false_2 by set_solver.
    unfold listing_step. rewrite H2, Hn2, <- Heq, Hne. cbn [negb orb].
    rewrite bool_decide_eq_true_2 by set_solver. reflexivity.
Qed.

(** C6: a page with no marked heading yields the empty list; a heading for
    which no [href] is found contributes nothing, whatever the headings
    before and after it; and no returned entry has an empty URL. *)
Theorem listing_skips_unlinked :
  (page_query_selector_all page h3_marker = [] -> extract_listing_items page = [])
  /\ (forall hs1 h hs2,
        heading_href page h = None \/ heading_href page h = Some "" ->
        extract_from_headings page (hs1 ++ h :: hs2) = extract_from_headings page (hs1 ++ hs2))
  /\ Forall (fun it => url it <> "") (extract_listing_items page).
Proof.
  split_and!.
  - intros Hhs. unfold extract_listing_items. rewrite Hhs. reflexivity.
  - intros hs1 h hs2 Hh. unfold extract_from_headings.
    rewrite !fold_left_app. cbn [fold_left].
    rewrite (listing_step_unlinked _ _ Hh). reflexivity.
  - apply (fold_listing_inv _ _ listing_inv_start).
Qed.

End ListingFacts.

(** The sample listing: its first two headings resolve to one address. *)
Lemma listing_urls_distinct_witness :
  NoDup (map url (extract_listing_items listing_page))
  /\ length (extract_listing_items listing_page) = 1%nat.
Proof.
  split; [apply (listing_urls_distinct listing_page)|].
  reflexivity.
Defined.

(** The sample listing: its third heading has no anchor in reach. *)
Lemma listing_skips_unlinked_witness :
  heading_href listing_page [0; 2; 0; 0; 0; 0]%nat = None
  /\ extract_from_headings listing_page ([[0; 0; 0; 0; 0]%nat] ++ [0; 2; 0; 0; 0; 0]%nat :: [])
     = extract_from_headings listing_page ([[0; 0; 0; 0; 0]%nat] ++ [])
  /\ Forall (fun it => url it <> "") (extract_listing_items listing_page).
Proof.
  pose proof (listing_skips_unlinked listing_page) as (_ & Hskip & Hurl).
  split; [reflexivity|]. split; [|exact Hurl].
  apply Hskip. left. reflexivity.
Defined.

(** ** The date normaliser *)

Lemma rstrip_chars_idem p s : rstrip_chars p (rstrip_chars p s) = rstrip_chars p s.
Proof.
  induction s as [|c s IH]; cbn; [done|].
  destruct (rstrip_chars p s) as [|b r] eqn:E.
  - destruct (p c) eqn:Ec; cbn; [done|]. rewrite Ec. done.
  - change (rstrip_chars p (String c (String b r)))
      with (match rstrip_chars p (String b r) with
            | EmptyString => if p c then EmptyString else String c EmptyString
            | String x y => String c (String x y)
            end).
    rewrite IH. done.
Qed.

Lemma app_nil_l t : "" +:+ t = t.
Proof. reflexivity. Qed.

Lemma app_cons c s t : String c s +:+ t = String c (s +:+ t).
Proof. reflexivity. Qed.

Lemma app_assoc_s a b c : (a +:+ b) +:+ c = a +:+ (b +:+ c).
Proof. induction a as [|x a IH]; [done|]. rewrite !app_cons, IH. done. Qed.

Lemma length_app_s a b : String.length (a +:+ b) = (String.length a + String.length b)%nat.
Proof. induction a as [|x a IH]; [done|]. rewrite app_cons. cbn. rewrite IH. done. Qed.

(** *** Strings and their characters *)

Lemma of_chars_cons t l : of_chars (t :: l) = t +:+ of_chars l.
Proof. reflexivity. Qed.

(** The characters of a string spell the string. *)
Lemma of_chars_chars s : of_chars (chars s) = s.
Proof.
  induction s as [|c s IH]; [done|].
  cbn [chars]. destruct s as [|c' s']; [done|].
  destruct (is_continuation c').
  - destruct (chars (String c' s')) as [|ch r] eqn:E; [discriminate|].
    rewrite of_chars_cons in *. rewrite app_cons. by rewrite IH.
  - rewrite of_chars_cons, app_cons, app_nil_l. by rewrite IH.
Qed.

Lemma chars_shape s :
  canonical (chars s)
  /\ match s with
     | EmptyString => chars s = []
     | String c _ => exists r l, chars s = String c r :: l
     end.
Proof.
  induction s as [|c s IH]; [by repeat split|].
  cbn [chars]. destruct s as [|c' s'].
  - split; [|eauto]. split; [by repeat constructor | constructor].
  - destruct IH as [[Hc Ht] (r & l & E)].
    destruct (is_continuation c') eqn:Ec.
    + rewrite E in *. split; [|eauto].
      apply Forall_cons in Hc as [Hr Hl]. split; [|exact Ht].
      constructor; [|exact Hl]. cbn in *. by rewrite Ec.
    + split; [|eauto]. split.
      * constructor; [done | exact Hc].
      * cbn [List.tl]. rewrite E in *. constructor; [|exact Ht]. cbn. by rewrite Ec.
Qed.

Lemma chars_canonical s : canonical (chars s).
Proof. apply chars_shape. Qed.

(** A byte followed by continuation bytes is one character, when what
    follows does not start with a continuation byte. *)
Lemma chars_char c r s2 :
  all_chars is_continuation r = true ->
  match s2 with String c' _ => is_continuation c' = false | EmptyString => True end ->
  chars (String c (r +:+ s2)) = String c r :: chars s2.
Proof.
  revert c. induction r as [|x r IH]; intros c Hr Hs.
  - rewrite app_nil_l. cbn [chars]. destruct s2 as [|c' s']; [done|]. by rewrite Hs.
  - cbn in Hr. apply andb_true_iff in Hr as [Hx Hr].
    rewrite app_cons.
    change (chars (String c (String x (r +:+ s2))))
      with (if is_continuation x
            then match chars (String x (r +:+ s2)) with
                 | ch :: l => String c ch :: l
                 | [] => [String c EmptyString]
                 end
            else String c EmptyString :: chars (String x (r +:+ s2))).
    rewrite Hx, (IH x Hr Hs). reflexivity.
Qed.

(** A list of characters is the list of the characters of what it spells. *)
Lemma chars_of_chars l : canonical l -> chars (of_chars l) = l.
Proof.
  induction l as [|t l IH]; [done|]. intros [Hc Ht].
  apply Forall_cons in Hc as [Hch Hc]. cbn [List.tl] in Ht.
  destruct t as [|c r]; [discriminate|]. cbn in Hch.
  rewrite of_chars_cons, app_cons.
  rewrite chars_char; [| exact Hch |].
  - f_equal. apply IH. split; [exact Hc|]. destruct l; [constructor|].
    apply Forall_cons in Ht as [_ Ht]. exact Ht.
  - destruct l as [|u l']; [done|]. apply Forall_cons in Ht as [Hu _].
    destruct u as [|c' u']; [discriminate|]. rewrite of_chars_cons, app_cons.
    cbn in Hu. by apply negb_true_iff in Hu.
Qed.

Lemma canonical_tail t l : canonical (t :: l) -> canonical l.
Proof.
  intros [Hc Ht]. apply Forall_cons in Hc as [_ Hc]. split; [exact Hc|].
  cbn in Ht. destruct l; [constructor|]. apply Forall_cons in Ht as [_ Ht]. exact Ht.
Qed.

Lemma lstrip_list_canonical p l : canonical l -> canonical (lstrip_list p l).
Proof.
  induction l as [|t l IH]; [done|]. intros Hl. cbn.
  destruct (p t); [apply IH, (canonical_tail _ _ Hl) | exact Hl].
Qed.

Lemma rstrip_list_first p l u r : rstrip_list p l = u :: r -> exists l', l = u :: l'.
Proof.
  destruct l as [|t l]; [discriminate|]. cbn.
  destruct (rstrip_list p l); [destruct (p t)|]; intros [= <- <-]; eauto.
Qed.

Lemma rstrip_list_canonical p l : canonical l -> canonical (rstrip_list p l).
Proof.
  induction l as [|t l IH]; [done|]. intros Hl.
  pose proof (IH (canonical_tail _ _ Hl)) as [Hc Ht]. destruct Hl as [Hlc Hlt].
  apply Forall_cons in Hlc as [Hch _]. cbn [List.tl] in Hlt.
  cbn. destruct (rstrip_list p l) as [|u r] eqn:E.
  - destruct (p t); split; repeat constructor; done.
  - split; [by constructor|]. cbn [List.tl]. constructor; [|exact Ht].
    destruct (rstrip_list_first _ _ _ _ E) as [l' ->].
    by apply Forall_cons in Hlt as [Hu _].
Qed.

Lemma rstrip_list_idem p l : rstrip_list p (rstrip_list p l) = rstrip_list p l.
Proof.
  induction l as [|t l IH]; cbn; [done|].
  destruct (rstrip_list p l) as [|u r] eqn:E.
  - destruct (p t) eqn:Et; cbn; [done|]. by rewrite Et.
  - change (rstrip_list p (t :: u :: r))
      with (match rstrip_list p (u :: r) with
            | [] => if p t then [] else [t]
            | x :: y => t :: x :: y
            end).
    rewrite IH. done.
Qed.

Lemma lstrip_list_head p l :
  lstrip_list p l = [] \/ exists t r, lstrip_list p l = t :: r /\ p t = false.
Proof.
  induction l as [|t l IH]; cbn; [by left|].
  destruct (p t) eqn:Et; [exact IH|]. right. eauto.
Qed.

Lemma rstrip_list_head p t r :
  p t = false -> exists r', rstrip_list p (t :: r) = t :: r'.
Proof.
  intros Ht. cbn. destruct (rstrip_list p r); [rewrite Ht|]; eauto.
Qed.

Lemma strip_idem s : strip (strip s) = strip s.
Proof.
  unfold strip.
  rewrite chars_of_chars
    by (apply rstrip_list_canonical, lstrip_list_canonical, chars_canonical).
  f_equal.
  destruct (lstrip_list_head char_isspace (chars s)) as [->|(t & r & -> & Ht)]; [done|].
  destruct (rstrip_list_head char_isspace t r Ht) as [r' Hr]. rewrite Hr.
  cbn [lstrip_list]. rewrite Ht, <- Hr. apply rstrip_list_idem.
Qed.

Lemma lstrip_list_none p l : forallb (fun t => negb (p t)) l = true -> lstrip_list p l = l.
Proof.
  destruct l as [|t l]; [done|]. cbn. intros [Ht _]%andb_true_iff.
  apply negb_true_iff in Ht. by rewrite Ht.
Qed.

Lemma rstrip_list_none p l : forallb (fun t => negb (p t)) l = true -> rstrip_list p l = l.
Proof.
  induction l as [|t l IH]; [done|]. cbn. intros [Ht Hl]%andb_true_iff.
  rewrite (IH Hl). apply negb_true_iff in Ht. rewrite Ht. by destruct l.
Qed.

(** A string without whitespace is its own trimmed form. *)
Lemma strip_no_space s : no_space (chars s) = true -> strip s = s.
Proof.
  intros Hs. unfold strip.
  rewrite lstrip_list_none, rstrip_list_none by exact Hs. apply of_chars_chars.
Qed.

(** The characters of a string without continuation bytes are its bytes. *)
Lemma chars_bytewise s :
  bytewise s = true -> chars s = map single (list_ascii_of_string s).
Proof.
  induction s as [|c s IH]; [done|]. unfold bytewise. cbn [all_chars].
  intros [_ Hs]%andb_true_iff. cbn [chars list_ascii_of_string map].
  destruct s as [|c' s']; [done|].
  pose proof Hs as Hs'. cbn [all_chars] in Hs'. apply andb_true_iff in Hs' as [Hc' _].
  apply negb_true_iff in Hc'. rewrite Hc'. f_equal. apply IH, Hs.
Qed.

Lemma bytewise_append a b : bytewise (a +:+ b) = bytewise a && bytewise b.
Proof.
  unfold bytewise. induction a as [|c a IH]; [done|].
  rewrite app_cons. cbn. rewrite IH. by rewrite andb_assoc.
Qed.

Lemma list_ascii_append a b :
  list_ascii_of_string (a +:+ b) = list_ascii_of_string a ++ list_ascii_of_string b.
Proof. induction a as [|c a IH]; [done|]. rewrite app_cons. cbn. by rewrite IH. Qed.

(** One byte as a character: the classes are those of ASCII. *)
Lemma char_isspace_single c : char_isspace (single c) = isspace c.
Proof. destruct c as [[] [] [] [] [] [] [] []]; reflexivity. Qed.

Lemma isdigit_bytewise c : isdigit c = true -> is_continuation c = false.
Proof. destruct c as [[] [] [] [] [] [] [] []]; done. Qed.

Lemma isdigit_not_space c : isdigit c = true -> isspace c = false.
Proof.
  unfold isdigit, isspace. intros [H1 H2]%andb_true_iff.
  apply Nat.leb_le in H1, H2.
  apply orb_false_iff. split; apply andb_false_iff; right; apply Nat.leb_gt; lia.
Qed.

Lemma digit_char_isdigit z : 0 <= z < 10 -> isdigit (digit_char z) = true.
Proof.
  intros Hz.
  assert (Hc : z = 0 \/ z = 1 \/ z = 2 \/ z = 3 \/ z = 4 \/ z = 5 \/ z = 6 \/ z = 7
               \/ z = 8 \/ z = 9) by lia.
  repeat (destruct Hc as [->|Hc]; [reflexivity|]). subst z. reflexivity.
Qed.

Lemma no_space_app a b : no_space (a ++ b) = true -> no_space b = true.
Proof. unfold no_space. rewrite forallb_app. by intros [_ ?]%andb_true_iff. Qed.

Lemma ws_runs_no_space l : no_space l = true -> ws_runs l = [].
Proof.
  destruct l as [|ch l]; cbn; [done|].
  destruct (char_isspace ch); [discriminate|done].
Qed.

Lemma ws_runs_split l wr : In wr (ws_runs l) -> l = wr.1 ++ wr.2.
Proof.
  revert wr. induction l as [|ch l IH]; intros wr; cbn; [done|].
  destruct (char_isspace ch); [|done].
  rewrite in_app_iff, in_map_iff.
  intros [(wr' & <- & Hin)|[<-|[]]]; cbn; [|done].
  by rewrite <- (IH _ Hin).
Qed.

Lemma flat_map_nil {A B} (f : A -> list B) l :
  (forall x, In x l -> f x = []) -> flat_map f l = [].
Proof.
  induction l as [|x l IH]; cbn; [done|]. intros Hf.
  rewrite (Hf x) by auto. apply IH. auto.
Qed.

Section DateNormaliser.
Context `{UnicodeData}.

(** A match consumes a prefix of the data. *)
Lemma rmatch_split r l m : In m (rmatch r l) -> l = m.1.1 ++ m.2.
Proof.
  revert l m. induction r as [| |k|r1 IH1 r2 IH2|r1 IH1 r2 IH2| |name r IH]; intros l m; cbn.
  - intros [<-|[]]. done.
  - intros [].
  - destruct l as [|ch l]; [intros []|].
    destruct (in_class k ch); [intros [<-|[]]; done | intros []].
  - rewrite in_flat_map. intros (m1 & H1 & Hm). apply in_map_iff in Hm as (m2 & <- & H2).
    cbn. rewrite <- app_assoc.
    transitivity (m1.1.1 ++ m1.2); [apply IH1, H1 | f_equal; apply IH2, H2].
  - rewrite in_app_iff. intros [Hm|Hm]; eauto.
  - rewrite in_map_iff. intros (wr & <- & Hin). cbn. apply ws_runs_split, Hin.
  - rewrite in_map_iff. intros (m' & <- & Hin). cbn. apply IH, Hin.
Qed.

(** A match has no more characters than the expression allows. *)
Lemma rmatch_max_len r : forall l m n,
  max_len r = Some n -> In m (rmatch r l) -> (length m.1.1 <= n)%nat.
Proof.
  induction r as [| |k|r1 IH1 r2 IH2|r1 IH1 r2 IH2| |name r IH]; intros l m n; cbn.
  - intros [= <-] [<-|[]]. done.
  - intros _ [].
  - intros [= <-]. destruct l as [|ch l]; [intros []|].
    destruct (in_class k ch); [intros [<-|[]]; done | intros []].
  - destruct (max_len r1) as [a|]; [|discriminate].
    destruct (max_len r2) as [b|]; [|discriminate]. cbn. intros [= <-].
    rewrite in_flat_map. intros (m1 & H1 & Hm). apply in_map_iff in Hm as (m2 & <- & H2).
    cbn. rewrite length_app.
    apply Nat.add_le_mono; [exact (IH1 _ _ _ eq_refl H1) | exact (IH2 _ _ _ eq_refl H2)].
  - destruct (max_len r1) as [a|]; [|discriminate].
    destruct (max_len r2) as [b|]; [|discriminate]. cbn. intros [= <-].
    rewrite in_app_iff. intros [Hm|Hm].
    + specialize (IH1 _ _ _ eq_refl Hm). lia.
    + specialize (IH2 _ _ _ eq_refl Hm). lia.
  - discriminate.
  - intros Hn. rewrite in_map_iff. intros (m' & <- & Hin). cbn. eapply IH; eauto.
Qed.

(** An expression that must cross a [\s+] matches no data free of whitespace. *)
Lemma rmatch_needs_space r : forall l,
  needs_space r = true -> no_space l = true -> rmatch r l = [].
Proof.
  induction r as [| |k|r1 IH1 r2 IH2|r1 IH1 r2 IH2| |name r IH]; intros l; cbn;
    try discriminate.
  - intros Hn Hs. apply flat_map_nil. intros m1 H1.
    apply orb_true_iff in Hn as [Hn|Hn].
    + rewrite (IH1 _ Hn Hs) in H1. destruct H1.
    + rewrite IH2; [done|done|].
      pose proof (rmatch_split _ _ _ H1) as Hsp. rewrite Hsp in Hs.
      exact (no_space_app _ _ Hs).
  - intros [H1 H2]%andb_true_iff Hs. rewrite IH1, IH2; done.
  - intros _ Hs. rewrite ws_runs_no_space; done.
  - intros Hn Hs. rewrite IH; done.
Qed.

(** A format whose expression must cross whitespace refuses data without any. *)
Lemma strptime_refuses_no_space data fmt re :
  pattern fmt = Some re -> needs_space re = true -> no_space (chars data) = true ->
  refused data fmt.
Proof.
  intros Hp Hn Hs. unfold refused, strptime. rewrite Hp, rmatch_needs_space by done. eauto.
Qed.

(** A format whose matches have fewer characters than the data leaves data
    unconverted. *)
Lemma strptime_refuses_long data fmt re n :
  pattern fmt = Some re -> max_len re = Some n -> (n < length (chars data))%nat ->
  refused data fmt.
Proof.
  intros Hp Hn Hlen. unfold refused, strptime. rewrite Hp.
  destruct (rmatch re (chars data)) as [|[[c g] rest] ms] eqn:E; [eauto|].
  assert (Hin : In (c, g, rest) (rmatch re (chars data))) by (rewrite E; left; done).
  pose proof (rmatch_split _ _ _ Hin) as Hsplit.
  pose proof (rmatch_max_len _ _ _ _ Hn Hin) as Hmax. cbn in Hsplit, Hmax.
  destruct rest as [|x rest]; [|eauto].
  rewrite Hsplit, app_nil_r in Hlen. lia.
Qed.

(** What [strptime] returns under these formats is a date at midnight. *)
Lemma strptime_midnight data fmt d :
  strptime data fmt = Returned d -> exists y m dd, d = naive (Timestamp y m dd 0 0 0 0).
Proof.
  unfold strptime.
  destruct (pattern fmt) as [re|]; [|discriminate].
  destruct (rmatch re (chars data)) as [|[[c g] rest] ms]; [discriminate|].
  destruct rest; [|discriminate].
  destruct (month_of g) as [m|]; [|discriminate].
  destruct (valid_date _ _ _); [|discriminate].
  intros [= <-]. eauto.
Qed.

Lemma isoformat_midnight y m dd :
  midnight_form (isoformat (naive (Timestamp y m dd 0 0 0 0))).
Proof.
  unfold midnight_form. do 8 eexists. split; [|reflexivity].
  cbn [forallb]. rewrite !digit_char_isdigit; [reflexivity|..];
    apply Z.mod_pos_bound; lia.
Qed.

(** The ISO form of a date at midnight has nineteen characters, one to a
    byte, none of them whitespace. *)
Lemma midnight_form_chars r :
  midnight_form r ->
  chars r = map single (list_ascii_of_string r)
  /\ length (chars r) = 19%nat
  /\ no_space (chars r) = true.
Proof.
  intros (y1 & y2 & y3 & y4 & m1 & m2 & d1 & d2 & Hd & ->).
  cbn [forallb] in Hd.
  repeat match goal with
  | H : _ && _ = true |- _ => apply andb_true_iff in H as [? H]
  end.
  assert (Hb : chars (String y1 (String y2 (String y3 (String y4 (String "-"
                 (String m1 (String m2 (String "-" (String d1 (String d2 "T00:00:00"))))))))))
               = map single (list_ascii_of_string
                   (String y1 (String y2 (String y3 (String y4 (String "-"
                     (String m1 (String m2 (String "-" (String d1 (String d2 "T00:00:00")))))))))))).
  { apply chars_bytewise. unfold bytewise. cbn [all_chars].
    rewrite (isdigit_bytewise y1), (isdigit_bytewise y2), (isdigit_bytewise y3),
      (isdigit_bytewise y4), (isdigit_bytewise m1), (isdigit_bytewise m2),
      (isdigit_bytewise d1), (isdigit_bytewise d2) by done.
    reflexivity. }
  split; [exact Hb|]. rewrite Hb. split; [reflexivity|].
  cbn [list_ascii_of_string map]. unfold no_space. cbn [forallb].
  rewrite !char_isspace_single.
  rewrite (isdigit_not_space y1), (isdigit_not_space y2), (isdigit_not_space y3),
    (isdigit_not_space y4), (isdigit_not_space m1), (isdigit_not_space m2),
    (isdigit_not_space d1), (isdigit_not_space d2) by done.
  reflexivity.
Qed.

Lemma midnight_form_strip r : midnight_form r -> strip r = r.
Proof. intros Hr. apply strip_no_space, (midnight_form_chars r Hr). Qed.

(** None of the five formats accepts the ISO form of a date at midnight. *)
Lemma midnight_form_refused r :
  midnight_form r -> Forall (refused r) Models.date_formats.
Proof.
  intros Hr.
  destruct (midnight_form_chars r Hr) as (_ & Hl & Hs).
  unfold Models.date_formats.
  repeat apply Forall_cons_2; [| | | | | apply Forall_nil_2].
  - eapply strptime_refuses_long; [reflexivity | reflexivity | rewrite Hl; lia].
  - eapply strptime_refuses_no_space; [reflexivity | reflexivity | exact Hs].
  - eapply strptime_refuses_no_space; [reflexivity | reflexivity | exact Hs].
  - eapply strptime_refuses_no_space; [reflexivity | reflexivity | exact Hs].
  - eapply strptime_refuses_no_space; [reflexivity | reflexivity | exact Hs].
Qed.

(** The loop over the formats: the first that parses decides, and the loop
    ends empty-handed exactly when all refuse. *)
Lemma first_parse_spec s fmts :
  (exists tried fmt rest d,
      fmts = tried ++ fmt :: rest
      /\ Forall (refused s) tried
      /\ strptime s fmt = Returned d
      /\ Models.first_parse s fmts = Some (isoformat d))
  \/ (Forall (refused s) fmts /\ Models.first_parse s fmts = None).
Proof.
  induction fmts as [|fmt fmts IH]; [right; split; [apply Forall_nil_2 | reflexivity]|].
  cbn [Models.first_parse].
  destruct (strptime s fmt) as [d|e] eqn:E.
  - left. exists [], fmt, fmts, d. split_and!; [reflexivity | apply Forall_nil_2 | exact E | reflexivity].
  - destruct IH as [(tried & f & rest & d & -> & Ht & Hf & Hp)|[Hall Hp]].
    + left. exists (fmt :: tried), f, rest, d.
      split_and!; [reflexivity | | exact Hf | exact Hp].
      apply Forall_cons_2; [exists e; exact E | exact Ht].
    + right. split; [|exact Hp]. apply Forall_cons_2; [exists e; exact E | exact Hall].
Qed.

Lemma first_parse_refused s fmts :
  Forall (refused s) fmts -> Models.first_parse s fmts = None.
Proof.
  induction 1 as [|fmt fmts [e He] _ IH]; [reflexivity|].
  cbn. rewrite He. exact IH.
Qed.

(** C4: [parse_iso_date] goes through the formats [%Y-%m-%d], [%d %b %Y],
    [%d %B %Y], [%b %d, %Y], [%B %d, %Y] in this order on the trimmed
    input and returns the ISO form of the first parse; when every format
    refuses it returns the trimmed input, and it never raises.
    "2024-03-15", in each of the five notations, gives
    "2024-03-15T00:00:00"; "not a date" comes back unchanged. *)
Theorem parse_iso_date_first_format :
  Models.date_formats = ["%Y-%m-%d"; "%d %b %Y"; "%d %B %Y"; "%b %d, %Y"; "%B %d, %Y"]
  /\ Models.parse_iso_date "2024-03-15" = Returned "2024-03-15T00:00:00"
  /\ Models.parse_iso_date "15 Mar 2024" = Returned "2024-03-15T00:00:00"
  /\ Models.parse_iso_date "15 March 2024" = Returned "2024-03-15T00:00:00"
  /\ Models.parse_iso_date "Mar 15, 2024" = Returned "2024-03-15T00:00:00"
  /\ Models.parse_iso_date "March 15, 2024" = Returned "2024-03-15T00:00:00"
  /\ Models.parse_iso_date "not a date" = Returned "not a date"
  /\ Models.parse_iso_date "  not a date " = Returned "not a date"
  /\ forall s,
       (exists tried fmt rest d,
           Models.date_formats = tried ++ fmt :: rest
           /\ Forall (refused (strip s)) tried
           /\ strptime (strip s) fmt = Returned d
           /\ Models.parse_iso_date s = Returned (isoformat d))
       \/ (Forall (refused (strip s)) Models.date_formats
           /\ Models.parse_iso_date s = Returned (strip s)).
Proof.
  do 8 (split; [vm_compute; reflexivity|]).
  intros s. unfold Models.parse_iso_date.
  destruct (first_parse_spec (strip s) Models.date_formats)
    as [(tried & fmt & rest & d & Hf & Ht & Hd & Hp)|[Hall Hp]]; rewrite Hp.
  - left. exists tried, fmt, rest, d. done.
  - right. done.
Qed.

(** C9: [parse_iso_date] is idempotent: it returns, and applied to what it
    returned it returns the same string. *)
Theorem parse_iso_date_idempotent s :
  exists r, Models.parse_iso_date s = Returned r /\ Models.parse_iso_date r = Returned r.
Proof.
  unfold Models.parse_iso_date.
  destruct (first_parse_spec (strip s) Models.date_formats)
    as [(tried & fmt & rest & d & Hf & Ht & Hd & Hp)|[Hall Hp]]; rewrite Hp.
  - exists (isoformat d). split; [reflexivity|].
    destruct (strptime_midnight _ _ _ Hd) as (y & m & dd & ->).
    pose proof (isoformat_midnight y m dd) as Hm.
    rewrite (midnight_form_strip _ Hm).
    rewrite (first_parse_refused _ _ (midnight_form_refused _ Hm)). reflexivity.
  - exists (strip s). split; [reflexivity|].
    rewrite strip_idem, Hp. reflexivity.
Qed.

End DateNormaliser.

(** * Further properties *)

(** ** The gateway: connection and upsert *)

Lemma doc_ids_cons d l :
  doc_ids (d :: l) = match d !! "id" with Some v => v :: doc_ids l | None => doc_ids l end.
Proof. reflexivity. Qed.

(** The filter selects what the upsert wrote. *)
Lemma selects_own key item d : item !! "id" = Some key -> Db.selects key (item ∪ d) = true.
Proof.
  intros Hid. unfold Db.selects. rewrite (lookup_union_Some_l _ _ _ _ Hid).
  by rewrite bool_decide_eq_true_2.
Qed.

(** On an [id] that is not an array the filter is equality. *)
Lemma selects_scalar key d v :
  d !! "id" = Some v -> scalar v -> Db.selects key d = bool_decide (v = key).
Proof.
  intros Hd Hs. unfold Db.selects. rewrite Hd.
  destruct key, v; cbn in *; try done; by rewrite orb_false_r.
Qed.

Lemma set_first_none key item docs :
  Db.set_first key item docs = None <-> existsb (Db.selects key) docs = false.
Proof.
  induction docs as [|d docs IH]; cbn; [done|].
  destruct (Db.selects key d); cbn; [done|].
  destruct (Db.set_first key item docs) as [r|]; cbn.
  - split; [discriminate|]. intros Hn. by apply IH in Hn.
  - split; [|done]. intros _. by apply IH.
Qed.

Lemma set_first_some key item docs docs' changed :
  item !! "id" = Some key ->
  Db.set_first key item docs = Some (docs', changed) ->
  length docs' = length docs
  /\ (exists doc, doc ∈ docs' /\ item ⊆ doc /\ doc !! "id" = Some key)
  /\ (forall d, d ∈ docs -> Db.selects key d = false -> d ∈ docs')
  /\ (forall k, scalar k -> k ∈ doc_ids docs -> k ∈ doc_ids docs')
  /\ (Forall scalar (doc_ids docs) -> doc_ids docs' = doc_ids docs).
Proof.
  intros Hid. revert docs' changed.
  induction docs as [|d docs IH]; intros docs' changed; cbn [Db.set_first]; [discriminate|].
  destruct (Db.selects key d) eqn:Hd.
  - intros [= <- <-].
    assert (Hnew : (item ∪ d) !! "id" = Some key) by apply lookup_union_Some_l, Hid.
    rewrite !doc_ids_cons, Hnew.
    assert (Hv : exists v, d !! "id" = Some v).
    { unfold Db.selects in Hd. destruct (d !! "id"); [eauto | discriminate]. }
    destruct Hv as [v Hv]. rewrite Hv. split_and!.
    + reflexivity.
    + exists (item ∪ d). split_and!; [left | apply map_union_subseteq_l | exact Hnew].
    + intros d' [->|Hin]%elem_of_cons Hne; [congruence | by right].
    + intros k Hk [->|Hin]%elem_of_cons; [|by right].
      rewrite (selects_scalar _ _ _ Hv Hk) in Hd. apply bool_decide_eq_true in Hd as ->. left.
    + intros [Hs _]%Forall_cons.
      rewrite (selects_scalar _ _ _ Hv Hs) in Hd. by apply bool_decide_eq_true in Hd as ->.
  - destruct (Db.set_first key item docs) as [[r c]|]; [|discriminate].
    cbn. intros [= <- <-].
    destruct (IH _ _ eq_refl) as (Hlen & (doc & Hin & Hsub & Hk) & Hothers & Hkeep & Hids).
    rewrite !doc_ids_cons. split_and!.
    + cbn. by rewrite Hlen.
    + exists doc. split_and!; [by right | done | done].
    + intros d' [->|Hin']%elem_of_cons Hne; [left | right; by apply Hothers].
    + intros k Hs. destruct (d !! "id") as [v|]; [|by apply Hkeep].
      intros [->|Hin']%elem_of_cons; [left | right; by apply Hkeep].
    + destruct (d !! "id") as [v|]; [|exact Hids].
      intros [_ Hs]%Forall_cons. by rewrite Hids.
Qed.

(** The list of documents after an upsert: one document holds the item,
    the documents the filter does not select are still there, the number of
    documents grows by one exactly when the filter selected none, and no
    [id] is lost but an array that held the key. *)
Lemma upserted_docs_spec key item docs :
  item !! "id" = Some key ->
  (exists doc, doc ∈ upserted_docs key item docs /\ item ⊆ doc /\ doc !! "id" = Some key)
  /\ (forall d, d ∈ docs -> Db.selects key d = false -> d ∈ upserted_docs key item docs)
  /\ length (upserted_docs key item docs)
     = (if existsb (Db.selects key) docs then length docs else S (length docs))
  /\ (forall k, scalar k -> k ∈ doc_ids docs -> k ∈ doc_ids (upserted_docs key item docs))
  /\ (Forall scalar (doc_ids docs) ->
      doc_ids (upserted_docs key item docs)
      = (if bool_decide (key ∈ doc_ids docs) then doc_ids docs else doc_ids docs ++ [key])).
Proof.
  intros Hid. unfold upserted_docs.
  destruct (Db.set_first key item docs) as [[docs' changed]|] eqn:E.
  - destruct (set_first_some _ _ _ _ _ Hid E) as (Hlen & Hdoc & Hothers & Hkeep & Hids).
    assert (Hex : existsb (Db.selects key) docs = true).
    { destruct (existsb (Db.selects key) docs) eqn:Hx; [done|].
      apply set_first_none with (item := item) in Hx. congruence. }
    rewrite Hex. cbn [fst]. split_and!; [done..|].
    intros Hs. rewrite (Hids Hs). rewrite bool_decide_eq_true_2; [done|].
    rewrite <- (Hids Hs). destruct Hdoc as (doc & Hin & _ & Hk).
    unfold doc_ids. apply list_elem_of_omap. eauto.
  - apply set_first_none in E. rewrite E.
    rewrite (insert_id _ _ _ Hid). split_and!.
    + exists item. split_and!; [apply elem_of_app; right; left | done | done].
    + intros d Hd _. apply elem_of_app. by left.
    + rewrite length_app. cbn. lia.
    + intros k _ Hk. unfold doc_ids. rewrite omap_app. apply elem_of_app. by left.
    + intros Hs. rewrite bool_decide_eq_false_2.
      * unfold doc_ids. rewrite omap_app. cbn. rewrite Hid. reflexivity.
      * intros Hin. unfold doc_ids in Hin. apply list_elem_of_omap in Hin as (d & Hd & Hk).
        assert (Hsel : Db.selects key d = true).
        { unfold Db.selects. rewrite Hk. by rewrite bool_decide_eq_true_2. }
        assert (Hno : forall d', d' ∈ docs -> Db.selects key d' = false).
        { clear -E. induction docs as [|x l IH]; [by intros ? ?%elem_of_nil|].
          cbn in E. apply orb_false_iff in E as [Hx Hl].
          intros d' [->|Hin]%elem_of_cons; [done | by apply IH]. }
        rewrite (Hno d Hd) in Hsel. discriminate.
Qed.

(** With a connection to be had, the first operation leaves a client for
    the URI in effect and touches nothing else but the driver's log. *)
Lemma ensure_client_connects w :
  can_connect w ->
  exists w1,
    Db._ensure_client w = (Returned tt, w1)
    /\ Db._client w1 = Some (Db.Make_client (uri_in_effect w))
    /\ Db.MONGO_URI w1 = Db.MONGO_URI w /\ Db.MONGO_DB w1 = Db.MONGO_DB w
    /\ Db.MONGO_COLLECTION w1 = Db.MONGO_COLLECTION w
    /\ Db.pymongo_installed w1 = Db.pymongo_installed w
    /\ Db.environ w1 = Db.environ w /\ Db.reachable w1 = Db.reachable w
    /\ Db.deployment w1 = Db.deployment w /\ Db.accepts w1 = Db.accepts w
    /\ Db.collections w1 = Db.collections w
    /\ Db.calls w1
       = Db.calls w
         ++ match Db._client w with
            | Some _ => []
            | None => [Db.Connect (uri_in_effect w); Db.Ping (uri_in_effect w)]
            end.
Proof.
  intros [Hc Hr]. unfold Db._ensure_client, uri_in_effect in *.
  destruct w as [uri db coll [[cu]|] inst env reach dep acc cols cs]; cbn in *.
  - eexists. split_and!; try reflexivity. cbn. by rewrite app_nil_r.
  - destruct Hc as [[? Hx] | ->]; [discriminate|]. cbn. rewrite Hr. eexists.
    split_and!; try reflexivity. cbn. by rewrite <- app_assoc.
Qed.

(** With the collection at hand, [get_collection] returns the target and
    leaves a client cached. *)
Lemma get_collection_at_hand w :
  collection_at_hand w ->
  exists w1,
    Db.get_collection None w = (Returned (target w), w1)
    /\ Db._ensure_client w = (Returned tt, w1)
    /\ target w1 = target w /\ collection_at_hand w1
    /\ is_Some (Db._client w1)
    /\ Db.reachable w1 = Db.reachable w
    /\ Db.deployment w1 = Db.deployment w /\ Db.accepts w1 = Db.accepts w
    /\ Db.collections w1 = Db.collections w
    /\ Db.calls w1
       = Db.calls w
         ++ match Db._client w with
            | Some _ => []
            | None => [Db.Connect (uri_in_effect w); Db.Ping (uri_in_effect w)]
            end.
Proof.
  intros (Hc & Hdb & Hcoll). pose proof (conj Hdb Hcoll : names_ok w) as Hn.
  destruct (ensure_client_connects w Hc)
    as (w1 & He & Hcl & Hu & Hd & Hco & Hin & Henv & Hre & Hdep & Hacc & Hcols & Hcalls).
  exists w1. unfold Db.get_collection. rewrite He, Hcl. cbn [Db.client_uri truthy_opt].
  assert (Hg1 : Db.getenv w1 "MONGO_DB" (Db.MONGO_DB w1) = Db.getenv w "MONGO_DB" (Db.MONGO_DB w))
    by (unfold Db.getenv; by rewrite Henv, Hd).
  assert (Hg2 : Db.getenv w1 "MONGO_COLLECTION" (Db.MONGO_COLLECTION w1)
                = Db.getenv w "MONGO_COLLECTION" (Db.MONGO_COLLECTION w))
    by (unfold Db.getenv; by rewrite Henv, Hco).
  rewrite Hg1, Hg2, Hdb, Hcoll. cbn [negb].
  assert (Ht : target w1 = target w).
  { unfold target, uri_in_effect. by rewrite Hcl, Hg1, Hg2. }
  split_and!; try done.
  split; [|unfold names_ok; by rewrite Hg1, Hg2].
  split; [left; rewrite Hcl; eauto|].
  destruct Hc as [_ Hr]. unfold uri_in_effect at 1. by rewrite Hcl, Hre.
Qed.

(** What [update_one] leaves as it found it. *)
Lemma update_one_globals col key item w :
  let w' := (Db.update_one col key item w).2 in
  Db._client w' = Db._client w /\ Db.environ w' = Db.environ w
  /\ Db.MONGO_URI w' = Db.MONGO_URI w /\ Db.MONGO_DB w' = Db.MONGO_DB w
  /\ Db.MONGO_COLLECTION w' = Db.MONGO_COLLECTION w
  /\ Db.pymongo_installed w' = Db.pymongo_installed w
  /\ Db.reachable w' = Db.reachable w
  /\ Db.deployment w' = Db.deployment w /\ Db.accepts w' = Db.accepts w
  /\ Db.calls w' = Db.calls w ++ [Db.UpdateOne col.1.1 col.1.2 col.2 key item].
Proof.
  destruct col as [[uri db] coll]. unfold Db.update_one. cbn zeta.
  destruct (Db.reachable w uri); cbn [negb]; [|by split_and!].
  destruct (Db.accepts w _ key item); cbn [negb]; [|by split_and!].
  destruct (Db.set_first _ _ _) as [[docs' changed]|]; by split_and!.
Qed.

(** What [update_one] does to the collections when the server answers. *)
Lemma update_one_store col key item w :
  Db.reachable w col.1.1 = true ->
  let r := Db.update_one col key item w in
  let ns := Db.namespace w col in
  let docs := default [] (Db.collections w !! ns) in
  (forall ns', ns' <> ns -> Db.collections r.2 !! ns' = Db.collections w !! ns')
  /\ (if Db.accepts w ns key item
      then (exists res,
              r.1 = Returned res
              /\ Db.upserted res = negb (existsb (Db.selects key) docs))
           /\ Db.collections r.2 !! ns = Some (upserted_docs key item docs)
      else (exists e, r.1 = Raised e) /\ Db.collections r.2 = Db.collections w).
Proof.
  destruct col as [[uri db] coll]. cbn [fst snd]. intros Hr. unfold Db.update_one. cbn zeta.
  rewrite Hr. cbn [negb].
  set (ns := Db.namespace w (uri, db, coll)).
  destruct (Db.accepts w ns key item); cbn [negb]; [|split; [done | eauto]].
  unfold upserted_docs.
  destruct (Db.set_first key item (default [] (Db.collections w !! ns)))
    as [[docs' changed]|] eqn:E; cbn [fst snd Db.set_collection Db.collections Db.log_call].
  - split; [intros ns' Hne; by rewrite lookup_insert_ne|].
    split; [|by rewrite lookup_insert_eq].
    eexists. split; [reflexivity|]. cbn. symmetry. apply negb_false_iff.
    destruct (existsb _ _) eqn:Hx; [done|].
    apply set_first_none with (item := item) in Hx. congruence.
  - split; [intros ns' Hne; by rewrite lookup_insert_ne|].
    split; [|by rewrite lookup_insert_eq].
    eexists. split; [reflexivity|]. cbn. symmetry. apply negb_true_iff.
    by apply set_first_none in E.
Qed.

(** The upsert of a valid item with the collection at hand: the driver is
    asked for the update; when the deployment carries it out the call
    returns and the target collection holds [upserted_docs], otherwise the
    call raises and the collection is as before; every namespace but the
    target's is as before. *)
Lemma upsert_at_hand item key w :
  collection_at_hand w -> item !! "id" = Some key -> truthy key = true ->
  exists o w',
    Db.upsert_hackathon (Db.Dict item) w = (o, w')
    /\ target w' = target w /\ collection_at_hand w'
    /\ Db.deployment w' = Db.deployment w /\ Db.accepts w' = Db.accepts w
    /\ is_Some (Db._client w')
    /\ Db.calls w'
       = Db.calls w
         ++ match Db._client w with
            | Some _ => []
            | None => [Db.Connect (uri_in_effect w); Db.Ping (uri_in_effect w)]
            end
         ++ [Db.UpdateOne (target w).1.1 (target w).1.2 (target w).2 key item]
    /\ (forall col, Db.namespace w col <> Db.namespace w (target w) ->
          docs_of w' col = docs_of w col)
    /\ (if Db.accepts w (Db.namespace w (target w)) key item
        then (exists res,
                o = Returned res
                /\ Db.upserted res = negb (existsb (Db.selects key) (docs_of w (target w))))
             /\ docs_of w' (target w) = upserted_docs key item (docs_of w (target w))
        else (exists e, o = Raised e) /\ docs_of w' (target w) = docs_of w (target w)).
Proof.
  intros Hh Hid Ht.
  destruct (get_collection_at_hand w Hh)
    as (w1 & Hg & _ & Htg & Hh1 & Hcl & Hre & Hdep & Hacc & Hcols & Hcalls).
  unfold Db.upsert_hackathon. rewrite Hid, Ht. cbn [negb]. rewrite Hg.
  destruct (Db.update_one (target w) key item w1) as [o w'] eqn:Eu.
  exists o, w'. split; [reflexivity|].
  pose proof (update_one_globals (target w) key item w1) as G.
  assert (Hr1 : Db.reachable w1 (target w).1.1 = true).
  { destruct Hh as ((_ & Hr) & _). by rewrite Hre. }
  pose proof (update_one_store (target w) key item w1 Hr1) as S.
  rewrite Eu in G, S. cbn [fst snd] in G, S. cbv zeta in G, S.
  destruct G as (G1 & G2 & G3 & G4 & G5 & G6 & G7 & G8 & G9 & G10).
  destruct S as (S1 & S2).
  assert (Hns : forall col, Db.namespace w1 col = Db.namespace w col)
    by (intros col; unfold Db.namespace; by rewrite Hdep).
  assert (Hns' : forall col, Db.namespace w' col = Db.namespace w col)
    by (intros col; unfold Db.namespace; by rewrite G8, Hdep).
  assert (Htg' : target w' = target w).
  { rewrite <- Htg. unfold target, uri_in_effect, Db.getenv. by rewrite G1, G2, G3, G4, G5. }
  split_and!.
  - exact Htg'.
  - destruct Hh1 as ((Hc1 & Hrr) & Hn1 & Hn2). split; [split|split].
    + left. by rewrite G1.
    + unfold uri_in_effect in *. by rewrite G1, G3, G7.
    + unfold Db.getenv in *. by rewrite G2, G4.
    + unfold Db.getenv in *. by rewrite G2, G5.
  - by rewrite G8.
  - by rewrite G9.
  - by rewrite G1.
  - by rewrite G10, Hcalls, <- app_assoc.
  - intros col Hne. unfold docs_of. rewrite Hns'. rewrite S1 by (by rewrite Hns).
    by rewrite Hcols.
  - rewrite Hns, Hacc, Hcols in S2. unfold docs_of. rewrite Hns'.
    destruct (Db.accepts w (Db.namespace w (target w)) key item).
    + destruct S2 as [S2 S3]. split; [exact S2|]. by rewrite S3.
    + destruct S2 as [S2 S3]. split; [exact S2|]. by rewrite S3.
Qed.

(** The same when the deployment carries the update out. *)
Lemma upsert_connected item key w :
  collection_at_hand w -> item !! "id" = Some key -> truthy key = true -> taken w key item ->
  exists res w',
    Db.upsert_hackathon (Db.Dict item) w = (Returned res, w')
    /\ Db.upserted res = negb (existsb (Db.selects key) (docs_of w (target w)))
    /\ docs_of w' (target w) = upserted_docs key item (docs_of w (target w))
    /\ (forall col, Db.namespace w col <> Db.namespace w (target w) ->
          docs_of w' col = docs_of w col)
    /\ target w' = target w /\ collection_at_hand w'
    /\ Db.deployment w' = Db.deployment w /\ Db.accepts w' = Db.accepts w.
Proof.
  intros Hh Hid Ht Hacc.
  destruct (upsert_at_hand item key w Hh Hid Ht)
    as (o & w' & Hup & Htg & Hh' & Hdep & Hac & _ & _ & Hframe & Hres).
  unfold taken in Hacc. rewrite Hacc in Hres. destruct Hres as [(res & -> & Hu) Hdocs].
  exists res, w'. done.
Qed.

(** X1: once a valid item with plain fields is upserted with the
    collection at hand, and the deployment carries the update out, the
    target collection holds a document with every field of the item. *)
Theorem upsert_stores_item item key w :
  collection_at_hand w -> item !! "id" = Some key -> truthy key = true ->
  plain_fields item -> taken w key item ->
  exists res doc,
    (Db.upsert_hackathon (Db.Dict item) w).1 = Returned res
    /\ doc ∈ docs_of (Db.upsert_hackathon (Db.Dict item) w).2 (target w)
    /\ item ⊆ doc.
Proof.
  intros Hc Hid Ht _ Hacc.
  destruct (upsert_connected item key w Hc Hid Ht Hacc) as (res & w' & -> & _ & Hdocs & _).
  destruct (upserted_docs_spec key item (docs_of w (target w)) Hid) as ((doc & Hin & Hsub & _) & _).
  exists res, doc. cbn. rewrite Hdocs. done.
Qed.

Lemma plain_fields_empty : plain_fields ∅.
Proof. intros k [v Hk]. by rewrite lookup_empty in Hk. Qed.

Lemma plain_fields_insert k v m :
  plain_field k = true -> plain_fields m -> plain_fields (<[k := v]> m).
Proof.
  intros Hk Hm k' [v' Hk']. destruct (decide (k = k')) as [<-|Hne]; [exact Hk|].
  rewrite lookup_insert_ne in Hk' by done. apply Hm. eauto.
Qed.

Lemma fresh_world_at_hand : collection_at_hand fresh_world.
Proof. split; [split; [right|]; reflexivity | split; reflexivity]. Qed.

Lemma item_abc_x_plain : plain_fields item_abc_x.
Proof. repeat apply plain_fields_insert; try reflexivity. apply plain_fields_empty. Qed.

Lemma item_abc_y_plain : plain_fields item_abc_y.
Proof. repeat apply plain_fields_insert; try reflexivity. apply plain_fields_empty. Qed.

Lemma upsert_stores_item_witness :
  collection_at_hand fresh_world
  /\ exists res doc,
       (Db.upsert_hackathon (Db.Dict item_abc_x) fresh_world).1 = Returned res
       /\ doc ∈ docs_of (Db.upsert_hackathon (Db.Dict item_abc_x) fresh_world).2 (target fresh_world)
       /\ item_abc_x ⊆ doc.
Proof.
  split; [exact fresh_world_at_hand|].
  apply (upsert_stores_item item_abc_x (VStr "abc") fresh_world fresh_world_at_hand
           eq_refl eq_refl item_abc_x_plain eq_refl).
Defined.

(** After an upsert the filter selects a document. *)
Lemma upserted_docs_selected key item docs :
  item !! "id" = Some key -> existsb (Db.selects key) (upserted_docs key item docs) = true.
Proof.
  intros Hid.
  destruct (upserted_docs_spec key item docs Hid) as ((doc & Hin & _ & Hk) & _).
  apply existsb_exists. exists doc. split; [by apply list_elem_of_In|].
  unfold Db.selects. rewrite Hk. by rewrite bool_decide_eq_true_2.
Qed.

(** X2: with the collection at hand and a deployment that carries both
    updates out, the first upsert of an ['id'] the filter finds in no
    document adds exactly one document; a second upsert with the same
    ['id'] inserts nothing, leaves the number of documents as it is, and
    the collection then holds the fields of the second item. *)
Theorem upsert_same_id_replaces item1 item2 key w :
  collection_at_hand w -> item1 !! "id" = Some key -> item2 !! "id" = Some key ->
  truthy key = true -> plain_fields item1 -> plain_fields item2 ->
  taken w key item1 -> taken w key item2 ->
  let w1 := (Db.upsert_hackathon (Db.Dict item1) w).2 in
  let r2 := Db.upsert_hackathon (Db.Dict item2) w1 in
  (existsb (Db.selects key) (docs_of w (target w)) = false ->
     length (docs_of w1 (target w)) = S (length (docs_of w (target w))))
  /\ (exists res, r2.1 = Returned res /\ Db.upserted res = false)
  /\ length (docs_of r2.2 (target w)) = length (docs_of w1 (target w))
  /\ exists doc, doc ∈ docs_of r2.2 (target w) /\ item2 ⊆ doc.
Proof.
  intros Hc Hid1 Hid2 Ht _ _ Ha1 Ha2. cbn zeta.
  destruct (upsert_connected item1 key w Hc Hid1 Ht Ha1)
    as (res1 & w1 & -> & _ & Hdocs1 & _ & Htg & Hc1 & Hdep & Hacc).
  cbn [snd].
  assert (Ha2' : taken w1 key item2).
  { unfold taken, Db.namespace in *. by rewrite Htg, Hdep, Hacc. }
  destruct (upsert_connected item2 key w1 Hc1 Hid2 Ht Ha2')
    as (res2 & w2 & -> & Hup & Hdocs2 & _).
  cbn [fst snd]. rewrite Htg in *.
  destruct (upserted_docs_spec key item1 (docs_of w (target w)) Hid1)
    as (_ & _ & Hlen1 & _).
  destruct (upserted_docs_spec key item2 (docs_of w1 (target w)) Hid2)
    as ((doc2 & Hin2 & Hsub2 & _) & _ & Hlen2 & _).
  assert (Hheld : existsb (Db.selects key) (docs_of w1 (target w)) = true)
    by (rewrite Hdocs1; by apply upserted_docs_selected).
  rewrite Hheld in Hlen2, Hup.
  split_and!.
  - intros Hn. by rewrite Hdocs1, Hlen1, Hn.
  - eauto.
  - rewrite Hdocs2. exact Hlen2.
  - exists doc2. rewrite Hdocs2. done.
Qed.

Lemma upsert_same_id_replaces_witness :
  length (docs_of (Db.upsert_hackathon (Db.Dict item_abc_x) fresh_world).2 (target fresh_world))
  = 1%nat
  /\ length (docs_of (Db.upsert_hackathon (Db.Dict item_abc_y)
                        (Db.upsert_hackathon (Db.Dict item_abc_x) fresh_world).2).2
               (target fresh_world))
     = length (docs_of (Db.upsert_hackathon (Db.Dict item_abc_x) fresh_world).2
                 (target fresh_world)).
Proof.
  pose proof (upsert_same_id_replaces item_abc_x item_abc_y (VStr "abc") fresh_world
                fresh_world_at_hand eq_refl eq_refl eq_refl item_abc_x_plain item_abc_y_plain
                eq_refl eq_refl) as H.
  cbv zeta in H. destruct H as (H1 & _ & H2 & _).
  split; [|exact H2]. apply H1. reflexivity.
Defined.



(** X4: the process connects once. With the collection at hand, an upsert
    with no client cached asks the driver to connect and ping, then to
    update; with a client cached it asks for the update only; either way a
    client is cached after it. *)
Theorem upsert_connects_once item key w :
  collection_at_hand w -> item !! "id" = Some key -> truthy key = true ->
  let w' := (Db.upsert_hackathon (Db.Dict item) w).2 in
  is_Some (Db._client w')
  /\ Db.calls w'
     = Db.calls w
       ++ match Db._client w with
          | Some _ => []
          | None => [Db.Connect (Db.MONGO_URI w); Db.Ping (Db.MONGO_URI w)]
          end
       ++ [Db.UpdateOne (target w).1.1 (target w).1.2 (target w).2 key item].
Proof.
  intros Hc Hid Ht. cbn zeta.
  destruct (upsert_at_hand item key w Hc Hid Ht)
    as (o & w' & -> & _ & _ & _ & _ & Hcl & Hcalls & _).
  cbn [snd]. split; [exact Hcl|]. rewrite Hcalls.
  unfold uri_in_effect. destruct (Db._client w); reflexivity.
Qed.

Lemma upsert_connects_once_witness :
  Db.calls (Db.upsert_hackathon (Db.Dict item_abc_y)
              (Db.upsert_hackathon (Db.Dict item_abc_x) fresh_world).2).2
  = [Db.Connect "mongodb://localhost:27017"; Db.Ping "mongodb://localhost:27017";
     Db.UpdateOne "mongodb://localhost:27017" "hackathons" "hack-info" (VStr "abc") item_abc_x;
     Db.UpdateOne "mongodb://localhost:27017" "hackathons" "hack-info" (VStr "abc") item_abc_y].
Proof.
  destruct (upsert_at_hand item_abc_x (VStr "abc") fresh_world fresh_world_at_hand eq_refl eq_refl)
    as (o & w' & Hw & _ & Hc' & _).
  pose proof (upsert_connects_once item_abc_y (VStr "abc")
                (Db.upsert_hackathon (Db.Dict item_abc_x) fresh_world).2) as H.
  rewrite Hw in H. cbn [snd] in H. specialize (H Hc' eq_refl eq_refl).
  cbv zeta in H. destruct H as [_ H]. rewrite Hw. cbn [snd]. rewrite H.
  replace w' with (Db.upsert_hackathon (Db.Dict item_abc_x) fresh_world).2 by (by rewrite Hw).
  reflexivity.
Defined.

(** X5: when no client is cached and the configured server does not
    answer, the upsert of a valid item raises [RuntimeError]; the client
    opened for the attempt is closed and dropped, so that the world differs
    from the one before by the three calls of the attempt only, and the
    next operation starts over. *)
Theorem upsert_unreachable item key w :
  Db._client w = None -> Db.pymongo_installed w = true ->
  Db.reachable w (Db.MONGO_URI w) = false ->
  item !! "id" = Some key -> truthy key = true ->
  let r := Db.upsert_hackathon (Db.Dict item) w in
  (exists msg, r.1 = Raised (RuntimeError msg))
  /\ r.2 = Db.log_call (Db.Close (Db.MONGO_URI w))
             (Db.log_call (Db.Ping (Db.MONGO_URI w))
                (Db.log_call (Db.Connect (Db.MONGO_URI w)) w)).
Proof.
  intros Hc Hi Hr Hid Ht. cbn zeta.
  unfold Db.upsert_hackathon. rewrite Hid, Ht. cbn [negb].
  unfold Db.get_collection, Db._ensure_client. rewrite Hc, Hi, Hr. cbn [negb fst snd].
  split; [eauto|].
  destruct w as [uri db coll cl inst env reach dep acc cols cs]. cbn in *. subst cl.
  unfold Db.log_call, Db.set_client. cbn. by rewrite <- !app_assoc.
Qed.

Lemma upsert_unreachable_witness :
  (exists msg, (Db.upsert_hackathon (Db.Dict item_abc_x) offline_world).1
               = Raised (RuntimeError msg))
  /\ Db._client (Db.upsert_hackathon (Db.Dict item_abc_x) offline_world).2 = None
  /\ Db.collections (Db.upsert_hackathon (Db.Dict item_abc_x) offline_world).2 = ∅.
Proof.
  pose proof (upsert_unreachable item_abc_x (VStr "abc") offline_world
                eq_refl eq_refl eq_refl eq_refl eq_refl) as H.
  cbv zeta in H. destruct H as [H1 H2].
  split; [exact H1|]. rewrite H2. split; reflexivity.
Defined.

(** What [set_mongo_uri] with a non-empty URI leaves. *)
Lemma set_mongo_uri_world u w :
  u <> "" ->
  let w1 := (Db.set_mongo_uri (Some u) w).2 in
  Db.MONGO_URI w1 = u /\ Db._client w1 = None
  /\ Db.pymongo_installed w1 = Db.pymongo_installed w
  /\ Db.reachable w1 = Db.reachable w
  /\ Db.deployment w1 = Db.deployment w /\ Db.accepts w1 = Db.accepts w
  /\ Db.collections w1 = Db.collections w
  /\ target w1 = (u, Db.getenv w "MONGO_DB" (Db.MONGO_DB w),
                  Db.getenv w "MONGO_COLLECTION" (Db.MONGO_COLLECTION w)).
Proof.
  intros Hu. cbn zeta. unfold Db.set_mongo_uri. cbn [truthy_opt].
  apply truthy_str_true in Hu. rewrite Hu. cbn [negb snd].
  destruct w as [uri db coll [c|] inst env reach dep acc cols cs]; cbn; by split_and!.
Qed.

(** X6: after [set_mongo_uri] with a non-empty URI, [get_mongo_uri] gives
    that URI, and the next upsert of a valid item goes to the deployment of
    that URI: when the names pass and the update is carried out, the
    collection there holds the item, and the collections of every other
    deployment are as they were before the two calls. *)
Theorem set_mongo_uri_redirects_upsert u item key w :
  u <> "" -> Db.pymongo_installed w = true -> Db.reachable w u = true -> names_ok w ->
  item !! "id" = Some key -> truthy key = true -> plain_fields item ->
  Db.accepts w (Db.namespace w (u, Db.getenv w "MONGO_DB" (Db.MONGO_DB w),
                                Db.getenv w "MONGO_COLLECTION" (Db.MONGO_COLLECTION w)))
    key item = true ->
  let w1 := (Db.set_mongo_uri (Some u) w).2 in
  let w2 := (Db.upsert_hackathon (Db.Dict item) w1).2 in
  (Db.get_mongo_uri w1).1 = Returned u
  /\ (exists doc,
        doc ∈ docs_of w2 (u, Db.getenv w "MONGO_DB" (Db.MONGO_DB w),
                          Db.getenv w "MONGO_COLLECTION" (Db.MONGO_COLLECTION w))
        /\ item ⊆ doc)
  /\ (forall uri db coll, Db.deployment w uri <> Db.deployment w u ->
        docs_of w2 (uri, db, coll) = docs_of w (uri, db, coll)).
Proof.
  intros Hu Hi Hr Hn Hid Ht _ Ha. cbn zeta.
  destruct (set_mongo_uri_world u w Hu) as (Hu1 & Hc1 & Hi1 & Hr1 & Hd1 & Ha1 & Hcols1 & Htg1).
  set (w1 := (Db.set_mongo_uri (Some u) w).2) in *.
  assert (Hhand : collection_at_hand w1).
  { split; [split; [right; by rewrite Hi1|]|].
    - unfold uri_in_effect. by rewrite Hc1, Hu1, Hr1.
    - pose proof Htg1 as Hx. unfold target in Hx. injection Hx as _ Hdb Hcoll.
      destruct Hn as [Hn1 Hn2]. split; [by rewrite Hdb | by rewrite Hcoll]. }
  assert (Htaken : taken w1 key item).
  { unfold taken. rewrite Htg1, Ha1. unfold Db.namespace in *. by rewrite Hd1. }
  destruct (upsert_connected item key w1 Hhand Hid Ht Htaken)
    as (res & w2 & -> & _ & Hdocs & Hother & _).
  cbn [fst snd]. rewrite Htg1 in *.
  split_and!.
  - unfold Db.get_mongo_uri. cbn. by rewrite Hu1.
  - destruct (upserted_docs_spec key item
                (docs_of w1 (u, Db.getenv w "MONGO_DB" (Db.MONGO_DB w),
                             Db.getenv w "MONGO_COLLECTION" (Db.MONGO_COLLECTION w))) Hid)
      as ((doc & Hin & Hsub & _) & _).
    exists doc. rewrite Hdocs. done.
  - intros uri db coll Hne. rewrite Hother.
    + unfold docs_of, Db.namespace. by rewrite Hcols1, Hd1.
    + unfold Db.namespace. cbn [fst snd]. rewrite Hd1. congruence.
Qed.

Lemma set_mongo_uri_redirects_upsert_witness :
  (Db.get_mongo_uri (Db.set_mongo_uri (Some "mongodb://localhost:27017") offline_world).2).1
  = Returned "mongodb://localhost:27017"
  /\ docs_of (Db.upsert_hackathon (Db.Dict item_abc_x)
                (Db.set_mongo_uri (Some "mongodb://localhost:27017") connected_world).2).2
       ("mongodb://db.example:27017", "hackathons", "hack-info") = [].
Proof.
  split; [reflexivity|].
  pose proof (set_mongo_uri_redirects_upsert "mongodb://localhost:27017" item_abc_x (VStr "abc")
                connected_world ltac:(discriminate) eq_refl eq_refl
                (conj eq_refl eq_refl) eq_refl eq_refl item_abc_x_plain eq_refl) as H.
  cbv zeta in H. destruct H as (_ & _ & H).
  rewrite H by (cbn; discriminate). reflexivity.
Defined.

(** ** The record and the date normaliser *)

Lemma to_dict_lookups h :
  Models.to_dict h !! "id" = Some (VStr (Models.id h))
  /\ Models.to_dict h !! "name" = Some (VStr (Models.name h))
  /\ Models.to_dict h !! "startDate" = Some (VStr (Models.startDate h))
  /\ Models.to_dict h !! "endDate" = Some (VStr (Models.endDate h))
  /\ Models.to_dict h !! "status" = Some (VStr (Models.status h))
  /\ Models.to_dict h !! "testHack" = Some (VBool (Models.testHack h))
  /\ Models.to_dict h !! "tags"
     = Some (match Models.tags h with Some l => VStrList l | None => VNone end).
Proof. unfold Models.to_dict. split_and!; by simplify_map_eq. Qed.

(** X7: [to_dict] loses nothing: two items with the same dict are the same
    item. *)
Theorem to_dict_inj h1 h2 : Models.to_dict h1 = Models.to_dict h2 -> h1 = h2.
Proof.
  intros Heq.
  destruct (to_dict_lookups h1) as (A1 & B1 & C1 & D1 & E1 & F1 & G1).
  destruct (to_dict_lookups h2) as (A2 & B2 & C2 & D2 & E2 & F2 & G2).
  rewrite Heq in A1, B1, C1, D1, E1, F1, G1.
  destruct h1 as [i1 n1 s1 e1 st1 t1 tg1], h2 as [i2 n2 s2 e2 st2 t2 tg2]. cbn in *.
  assert (tg1 = tg2) by (destruct tg1, tg2; congruence).
  congruence.
Qed.

Lemma to_dict_inj_witness :
  Models.Make_HackathonItem "abc" "X" "2030-01-01" "2030-02-01" "upcoming" false None
  = Models.Make_HackathonItem "abc" "X" "2030-01-01" "2030-02-01" "upcoming" false None.
Proof. apply to_dict_inj. reflexivity. Defined.

(** X8: the dict of an item is refused by [upsert_hackathon] with the
    validation error exactly when the item's [id] is the empty string; in
    that case the world is left as it was. *)
Theorem to_dict_upsert_validation h w :
  (is_validation_error (Db.upsert_hackathon (Db.Dict (Models.to_dict h)) w).1
   <-> Models.id h = "")
  /\ (Models.id h = "" -> (Db.upsert_hackathon (Db.Dict (Models.to_dict h)) w).2 = w).
Proof.
  destruct (to_dict_lookups h) as (Hid & _).
  unfold Db.upsert_hackathon. rewrite Hid. cbn [truthy]. fold (truthy_str (Models.id h)).
  destruct (truthy_str (Models.id h)) eqn:Ht; cbn [negb].
  - apply truthy_str_true in Ht. split; [|done]. split; [|done].
    intros Hv. exfalso. revert Hv.
    pose proof (get_collection_not_validation None w) as Hg.
    destruct (Db.get_collection None w) as [[col|e] w1]; cbn in *; [|exact Hg].
    apply update_one_not_validation.
  - apply truthy_str_false in Ht. cbn. done.
Qed.

Lemma all_chars_append p a b : all_chars p (a +:+ b) = all_chars p a && all_chars p b.
Proof.
  induction a as [|c a IH]; [done|].
  rewrite app_cons. cbn. rewrite IH. by rewrite andb_assoc.
Qed.

Lemma all_chars_digits p w n :
  (forall z, 0 <= z < 10 -> p (digit_char z) = true) -> all_chars p (digits w n) = true.
Proof.
  intros Hp. induction w as [|w IH]; [done|]. cbn [digits all_chars].
  rewrite Hp by (apply Z.mod_pos_bound; lia). exact IH.
Qed.

Lemma bytewise_digits w n : bytewise (digits w n) = true.
Proof.
  apply all_chars_digits. intros z Hz.
  apply negb_true_iff, isdigit_bytewise, digit_char_isdigit, Hz.
Qed.

Lemma chars_digits w n : chars (digits w n) = map single (list_ascii_of_string (digits w n)).
Proof. apply chars_bytewise, bytewise_digits. Qed.

(** Strings without continuation bytes are joined character by character. *)
Lemma chars_append_bytewise a b :
  bytewise a = true -> bytewise b = true -> chars (a +:+ b) = chars a ++ chars b.
Proof.
  intros Ha Hb.
  rewrite !chars_bytewise by (rewrite ?bytewise_append, ?Ha, ?Hb; done).
  by rewrite list_ascii_append, map_app.
Qed.

Lemma no_space_bytewise s :
  bytewise s = true -> no_space (chars s) = all_chars (fun c => negb (isspace c)) s.
Proof.
  intros Hs. rewrite (chars_bytewise _ Hs). clear Hs. unfold no_space.
  induction s as [|c s IH]; [done|]. cbn [list_ascii_of_string map forallb all_chars].
  by rewrite char_isspace_single, IH.
Qed.

Lemma int_blank_digit c : isdigit c = true -> int_blank (single c) = false.
Proof. destruct c as [[] [] [] [] [] [] [] []]; done. Qed.

Lemma digits_head_digit w n :
  digits (S w) n = String (digit_char ((n / 10 ^ Z.of_nat w) mod 10)) (digits w n).
Proof. reflexivity. Qed.

Lemma digits_not_blank w n :
  forallb (fun t => negb (int_blank t)) (map single (list_ascii_of_string (digits w n))) = true.
Proof.
  induction w as [|w IH]; [done|]. rewrite digits_head_digit.
  cbn [list_ascii_of_string map forallb].
  rewrite int_blank_digit by (apply digit_char_isdigit, Z.mod_pos_bound; lia). exact IH.
Qed.

Lemma days_in_month_le y m : days_in_month y m <= 31.
Proof. unfold days_in_month. repeat case_match; lia. Qed.

Lemma valid_date_bounds y m d :
  valid_date y m d = true -> 1 <= y <= 9999 /\ 1 <= m <= 12 /\ 1 <= d <= 31.
Proof.
  unfold valid_date. rewrite !andb_true_iff, !Z.leb_le.
  pose proof (days_in_month_le y m). lia.
Qed.

Lemma pattern_ymd r : re_month_day = Some r -> pattern "%Y-%m-%d" = Some (Seq re_year r).
Proof. unfold re_month_day. intros Hr. change (pattern "%Y-%m-%d") with (p ← pattern "-%m-%d"; Some (Seq re_year p)). rewrite Hr. reflexivity. Qed.

Section DateText.
Context `{UnicodeData}.

Lemma char_decimal_digit z : 0 <= z < 10 -> char_decimal (single (digit_char z)) = Some z.
Proof.
  intros Hz.
  assert (Hc : z = 0 \/ z = 1 \/ z = 2 \/ z = 3 \/ z = 4 \/ z = 5 \/ z = 6 \/ z = 7
               \/ z = 8 \/ z = 9) by lia.
  repeat (destruct Hc as [->|Hc]; [reflexivity|]). subst z. reflexivity.
Qed.

Lemma in_class_digit z : 0 <= z < 10 -> in_class Digit (single (digit_char z)) = true.
Proof. intros Hz. unfold in_class. by rewrite char_decimal_digit. Qed.

(** Reading back the [w] digits of [n]. *)
Lemma int_from_digits w : forall acc n,
  int_from acc (map single (list_ascii_of_string (digits w n)))
  = acc * 10 ^ Z.of_nat w + n mod 10 ^ Z.of_nat w.
Proof.
  induction w as [|w IH]; intros acc n.
  - cbn. rewrite Z.mod_1_r. lia.
  - rewrite digits_head_digit. cbn [list_ascii_of_string map int_from].
    rewrite char_decimal_digit by (apply Z.mod_pos_bound; lia). cbn [default].
    rewrite IH. rewrite Nat2Z.inj_succ, Z.pow_succ_r by lia.
    rewrite (Z.mul_comm 10 (10 ^ Z.of_nat w)).
    rewrite (Z.rem_mul_r n (10 ^ Z.of_nat w) 10) by lia. unfold id. lia.
Qed.

Lemma int_of_digits w n :
  0 <= n < 10 ^ Z.of_nat w -> int_of (digits w n) = n.
Proof.
  intros Hn. unfold int_of. rewrite chars_digits.
  rewrite lstrip_list_none, rstrip_list_none by apply digits_not_blank.
  rewrite int_from_digits. rewrite Z.mod_small by lia. lia.
Qed.

(** What [%Y] followed by [r] matches on four digits followed by [t]. *)
Lemma rmatch_year r y t :
  rmatch (Seq re_year r) (chars (digits 4 y) ++ t)
  = map (fun m2 => (chars (digits 4 y) ++ m2.1.1, ("Y"%char, digits 4 y) :: m2.1.2, m2.2))
      (rmatch r t).
Proof.
  rewrite chars_digits.
  assert (Hs : map single (list_ascii_of_string (digits 4 y))
               = [single (digit_char ((y / 10 ^ Z.of_nat 3) mod 10));
                  single (digit_char ((y / 10 ^ Z.of_nat 2) mod 10));
                  single (digit_char ((y / 10 ^ Z.of_nat 1) mod 10));
                  single (digit_char ((y / 10 ^ Z.of_nat 0) mod 10))])
    by reflexivity.
  rewrite Hs. unfold re_year.
  cbn [rmatch flat_map map app].
  repeat (rewrite in_class_digit by (apply Z.mod_pos_bound; lia);
          cbn [rmatch flat_map map app fst snd]).
  rewrite app_nil_r. reflexivity.
Qed.

(** What [-%m-%d] matches first on the text of a month and a day: all of
    it, with the two groups. *)
Lemma rmatch_month_day m d :
  1 <= m <= 12 -> 1 <= d <= 31 ->
  exists r rest,
    re_month_day = Some r
    /\ rmatch r (chars ("-" +:+ digits 2 m +:+ "-" +:+ digits 2 d))
       = (chars ("-" +:+ digits 2 m +:+ "-" +:+ digits 2 d),
          [("m"%char, digits 2 m); ("d"%char, digits 2 d)], []) :: rest.
Proof.
  intros Hm Hd.
  assert (Hmc : m = 1 \/ m = 2 \/ m = 3 \/ m = 4 \/ m = 5 \/ m = 6 \/ m = 7 \/ m = 8
                \/ m = 9 \/ m = 10 \/ m = 11 \/ m = 12) by lia.
  assert (Hdc : d = 1 \/ d = 2 \/ d = 3 \/ d = 4 \/ d = 5 \/ d = 6 \/ d = 7 \/ d = 8
                \/ d = 9 \/ d = 10 \/ d = 11 \/ d = 12 \/ d = 13 \/ d = 14 \/ d = 15
                \/ d = 16 \/ d = 17 \/ d = 18 \/ d = 19 \/ d = 20 \/ d = 21 \/ d = 22
                \/ d = 23 \/ d = 24 \/ d = 25 \/ d = 26 \/ d = 27 \/ d = 28 \/ d = 29
                \/ d = 30 \/ d = 31) by lia.
  clear Hm Hd.
  repeat (destruct Hmc as [->|Hmc]); try subst m;
    repeat (destruct Hdc as [->|Hdc]); try subst d;
    do 2 eexists; (split; [reflexivity|]); vm_compute; reflexivity.
Qed.

(** [strptime] under [%Y-%m-%d] reads the text of a valid date back. *)
Lemma strptime_date_text y m d :
  valid_date y m d = true ->
  strptime (date_text y m d) "%Y-%m-%d" = Returned (naive (Timestamp y m d 0 0 0 0)).
Proof.
  intros Hv. destruct (valid_date_bounds _ _ _ Hv) as (Hy & Hm & Hd).
  destruct (rmatch_month_day m d Hm Hd) as (r & rest & Hr & Hmatch).
  unfold strptime, date_text. rewrite (pattern_ymd _ Hr).
  rewrite chars_append_bytewise
    by (rewrite ?bytewise_append, ?bytewise_digits; reflexivity).
  rewrite rmatch_year, Hmatch.
  cbn [map fst snd app].
  change (group "Y" _) with (Some (digits 4 y)).
  change (group "d" _) with (Some (digits 2 d)).
  change (month_of _) with (Some (int_of (digits 2 m))).
  cbn [fmap option_fmap option_map default].
  rewrite !int_of_digits by (cbn; lia). unfold id. rewrite Hv. reflexivity.
Qed.

(** X9: the text [YYYY-MM-DD] of a valid date (year 1 to 9999) is
    normalised to the ISO form of that date at midnight, which is the text
    followed by [T00:00:00]. *)
Theorem parse_iso_date_reads_date y m d :
  valid_date y m d = true ->
  Models.parse_iso_date (date_text y m d)
  = Returned (isoformat (naive (Timestamp y m d 0 0 0 0)))
  /\ isoformat (naive (Timestamp y m d 0 0 0 0)) = date_text y m d +:+ "T00:00:00".
Proof.
  intros Hv. split.
  - unfold Models.parse_iso_date.
    rewrite strip_no_space.
    + unfold Models.date_formats. cbn [Models.first_parse].
      rewrite (strptime_date_text _ _ _ Hv). reflexivity.
    + rewrite no_space_bytewise
        by (unfold date_text; rewrite ?bytewise_append, ?bytewise_digits; reflexivity).
      unfold date_text. rewrite !all_chars_append.
      rewrite !all_chars_digits; [reflexivity|..]; intros z Hz;
        apply negb_true_iff, isdigit_not_space, digit_char_isdigit, Hz.
  - unfold isoformat, date_text. cbn [fields tzinfo naive year month day hour minute second microsecond].
    rewrite !app_assoc_s. reflexivity.
Qed.

(** X10: [parse_iso_date] does not see whitespace around its input, and
    what it returns has none around it: it is the ISO form of a date at
    midnight or the trimmed input. *)
Theorem parse_iso_date_trimmed s :
  exists r,
    Models.parse_iso_date s = Returned r
    /\ Models.parse_iso_date (strip s) = Returned r
    /\ strip r = r
    /\ (midnight_form r \/ r = strip s).
Proof.
  unfold Models.parse_iso_date. rewrite strip_idem.
  destruct (first_parse_spec (strip s) Models.date_formats)
    as [(tried & fmt & rest & d & Hf & Ht & Hd & Hp)|[Hall Hp]]; rewrite Hp.
  - exists (isoformat d). destruct (strptime_midnight _ _ _ Hd) as (y & m & dd & ->).
    pose proof (isoformat_midnight y m dd) as Hm.
    split_and!; [reflexivity | reflexivity | apply midnight_form_strip, Hm | left; exact Hm].
  - exists (strip s). split_and!; [reflexivity | reflexivity | apply strip_idem | by right].
Qed.

End DateText.

Lemma parse_iso_date_reads_date_witness :
  valid_date 2024 2 29 = true
  /\ Models.parse_iso_date (date_text 2024 2 29)
     = Returned (isoformat (naive (Timestamp 2024 2 29 0 0 0 0))).
Proof.
  split; [reflexivity|].
  apply (parse_iso_date_reads_date 2024 2 29). reflexivity.
Defined.

(** ** Status derivation: what each answer means *)

Section StatusMeaning.
Context `{IsoParser}.

Local Ltac status_fact :=
  cbn [fields tzinfo]; cbv delta [before not_after after]; cbv beta;
  repeat match goal with
  | E : cmp_fields _ _ = _ |- _ => rewrite E; clear E
  end;
  first [reflexivity | exact I].

(** The status computed, case by case on how the two arguments read and on
    whether the parsed timestamps carry an offset. *)
Lemma determine_status_cases clock s e :
  exists st,
    determine_status_from_iso clock s e = Returned st
    /\ (st = "upcoming"
        \/ (st = "running"
            /\ exists sd ed,
                 read s = Parsed sd /\ read e = Parsed ed
                 /\ tzinfo sd = None /\ tzinfo ed = None
                 /\ not_after (fields sd) clock = true
                 /\ not_after clock (fields ed) = true)
        \/ (st = "ended"
            /\ exists ed,
                 read e = Parsed ed /\ tzinfo ed = None
                 /\ after clock (fields ed) = true
                 /\ match read s with
                    | Absent => True
                    | Unparsable => False
                    | Parsed sd => tzinfo sd = None /\ before clock (fields sd) = false
                    end)).
Proof.
  pose proof (parse_optional_cases s) as Ps.
  pose proof (parse_optional_cases e) as Pe.
  unfold determine_status_from_iso, status_body.
  destruct (read s) as [| |[sf [soff|]]], (read e) as [| |[ef [eoff|]]];
    repeat match goal with
    | P : exists _, _ |- _ => destruct P as [? P]
    end;
    rewrite ?Ps, ?Pe;
    unfold before, not_after, after, dt_lt, dt_le, dt_gt, dt_cmp, utcnow, naive;
    cbn [mbind mret outcome_bind outcome_ret fields tzinfo];
    repeat match goal with
    | |- context [cmp_fields ?a ?b] =>
        let E := fresh "E" in destruct (cmp_fields a b) eqn:E
    end;
    cbn [is_lt is_gt negb mbind mret outcome_bind outcome_ret];
    eexists; (split; [reflexivity|]);
    first [ left; reflexivity
          | right; left; split; [reflexivity|]; do 2 eexists;
            (split; [reflexivity|]); (split; [reflexivity|]); split_and!; status_fact
          | right; right; split; [reflexivity|]; eexists;
            (split; [reflexivity|]); split_and!; status_fact ].
Qed.

(** X11: the status is always one of "upcoming", "running", "ended". *)
Theorem determine_status_one_of_three clock s e :
  determine_status_from_iso clock s e = Returned "upcoming"
  \/ determine_status_from_iso clock s e = Returned "running"
  \/ determine_status_from_iso clock s e = Returned "ended".
Proof.
  destruct (determine_status_cases clock s e) as (st & -> & [->|[[-> _]|[-> _]]]); auto.
Qed.

(** X12: "running" is answered only when both timestamps parse without
    offset and start <= now <= end; "ended" only when the end parses
    without offset and now > end, and the start is absent or parses without
    offset and is not in the future. *)
Theorem determine_status_sound clock s e :
  (determine_status_from_iso clock s e = Returned "running" ->
     exists sd ed,
       read s = Parsed sd /\ read e = Parsed ed
       /\ tzinfo sd = None /\ tzinfo ed = None
       /\ not_after (fields sd) clock = true
       /\ not_after clock (fields ed) = true)
  /\ (determine_status_from_iso clock s e = Returned "ended" ->
      exists ed,
        read e = Parsed ed /\ tzinfo ed = None
        /\ after clock (fields ed) = true
        /\ match read s with
           | Absent => True
           | Unparsable => False
           | Parsed sd => tzinfo sd = None /\ before clock (fields sd) = false
           end).
Proof.
  destruct (determine_status_cases clock s e) as (st & -> & [->|[[-> Hr]|[-> He]]]);
    split; intros [=]; assumption.
Qed.

(** X13: a timestamp that parses with a UTC offset, in either place,
    makes the answer "upcoming" whatever the clock reads: the comparison
    of the naive clock with it raises. *)
Theorem determine_status_offset_upcoming clock s e d off :
  (read s = Parsed d \/ read e = Parsed d) -> tzinfo d = Some off ->
  determine_status_from_iso clock s e = Returned "upcoming".
Proof.
  intros Hd Hoff.
  destruct (determine_status_cases clock s e) as (st & -> & [->|[[-> Hr]|[-> He]]]);
    [reflexivity | exfalso | exfalso].
  - destruct Hr as (sd & ed & Hs & He & Hso & Heo & _).
    destruct Hd as [Hd|Hd]; congruence.
  - destruct He as (ed & He & Heo & _ & Hs).
    destruct Hd as [Hd|Hd]; [|congruence].
    rewrite Hd in Hs. destruct Hs as [Hs _]. congruence.
Qed.

End StatusMeaning.

Lemma determine_status_sound_witness :
  exists sd ed,
    read (Some "2020-01-01T00:00:00") = Parsed sd /\ read (Some "2040-01-01T00:00:00") = Parsed ed
    /\ tzinfo sd = None /\ tzinfo ed = None
    /\ not_after (fields sd) clock_2026 = true
    /\ not_after clock_2026 (fields ed) = true.
Proof.
  apply (proj1 (determine_status_sound clock_2026 (Some "2020-01-01T00:00:00")
                  (Some "2040-01-01T00:00:00"))).
  reflexivity.
Defined.

Lemma determine_status_offset_upcoming_witness :
  determine_status_from_iso clock_2026 (Some "2020-01-01T00:00:00")
    (Some "2021-01-01T00:00:00+02:00") = Returned "upcoming".
Proof.
  apply (determine_status_offset_upcoming clock_2026 (Some "2020-01-01T00:00:00")
           (Some "2021-01-01T00:00:00+02:00")
           (Make_datetime (Timestamp 2021 1 1 0 0 0 0) (Some 7200000000)) 7200000000);
    [right; reflexivity | reflexivity].
Defined.

(** ** Slugs: the characters of the result *)

Lemma split_pieces_no_sep sep s piece :
  piece ∈ split sep s -> contains sep piece = false.
Proof.
  revert piece. induction s as [|c s IH]; intros piece; cbn.
  - intros ->%list_elem_of_singleton. reflexivity.
  - destruct (Ascii.eqb_spec c sep) as [->|Hne].
    + intros [->|Hin]%elem_of_cons; [reflexivity | by apply IH].
    + pose proof (split_nonempty sep s) as Hn.
      destruct (split sep s) as [|h t]; [done|].
      intros [->|Hin]%elem_of_cons.
      * cbn. apply Ascii.eqb_neq in Hne. rewrite Hne. cbn. apply IH. left.
      * apply IH. by right.
Qed.

Lemma last_item_in l : l <> [] -> last_item l ∈ l.
Proof.
  unfold last_item. induction l as [|x l IH]; [done|]. intros _.
  destruct l as [|y l]; [left|]. right. apply IH. done.
Qed.

Lemma contains_append c a b : contains c (a +:+ b) = contains c a || contains c b.
Proof.
  induction a as [|x a IH]; [done|]. rewrite app_cons. cbn. rewrite IH. by rewrite orb_assoc.
Qed.

(** Replacing a character by a text without it leaves none of it. *)
Lemma replace_char_removes old new s :
  contains old new = false -> contains old (replace (String old "") new s) = false.
Proof.
  intros Hn. unfold replace. induction s as [|c s IH]; [done|].
  cbn [replace_from String.length Nat.pred].
  destruct (String.prefix (String old "") (String c s)) eqn:E.
  - rewrite contains_append, Hn, IH. reflexivity.
  - cbn [contains]. rewrite IH, orb_false_r.
    cbn in E. destruct (ascii_dec old c) as [->|Hne].
    + replace (String.prefix "" s) with true in E by (destruct s; reflexivity). discriminate.
    + apply Ascii.eqb_neq. congruence.
Qed.

Section SlugChars.
Context `{UrlLib}.

(** X14: a slug taken from the path holds no ["/"], and a slug taken from
    the network location holds no ["."]. *)
Theorem slug_from_url_clean url p slug :
  urlparse url = Returned p -> slug_from_url url = Returned slug ->
  if no_segment (rstrip "/" (path p)) then contains "." slug = false
  else contains "/" slug = false.
Proof.
  intros Hp. rewrite (slug_from_url_value url p Hp). intros [= <-].
  destruct (no_segment _).
  - apply replace_char_removes. reflexivity.
  - apply split_pieces_no_sep with (s := rstrip "/" (path p)).
    apply last_item_in, split_nonempty.
Qed.

End SlugChars.

Lemma slug_from_url_clean_witness :
  slug_from_url "https://devpost.com/software/alpha//" = Returned "alpha"
  /\ contains "/" "alpha" = false.
Proof.
  split; [reflexivity|].
  apply (slug_from_url_clean "https://devpost.com/software/alpha//"
           (Make_ParseResult "https" "devpost.com" "/software/alpha//" "" "" "") "alpha");
    reflexivity.
Defined.

(** ** Listing extraction: where the entries come from *)

Section ListingProvenance.
Context `{UrlLib} (page : Page).

Lemma make_entry_title h3 t u : title (make_entry page h3 t u) = t.
Proof. unfold make_entry. destruct (submission_walk _ _ _); reflexivity. Qed.

Lemma fold_listing_facts hs :
  let acc := fold_left (listing_step page) hs (∅, []) in
  (forall u, u ∈ acc.1 <-> u ∈ map url acc.2)
  /\ (forall it, it ∈ acc.2 ->
        exists h href,
          h ∈ hs /\ heading_href page h = Some href /\ href <> ""
          /\ url it = resolve_url page href
          /\ title it = strip (text_content page h))
  /\ (forall h href,
        h ∈ hs -> heading_href page h = Some href -> href <> "" ->
        resolve_url page href <> "" ->
        resolve_url page href ∈ map url acc.2)
  /\ (length acc.2 <= length hs)%nat.
Proof.
  induction hs as [|h hs IH] using rev_ind; cbn zeta.
  - cbn. split_and!; [set_solver | set_solver | set_solver | lia].
  - rewrite fold_left_app. cbn [fold_left].
    cbn zeta in IH. destruct (fold_left (listing_step page) hs (∅, [])) as [seen items].
    destruct IH as (Hseen & Hfrom & Hall & Hlen). cbn [fst snd] in *.
    assert (Hkeep : (forall u, u ∈ seen <-> u ∈ map url items)
              /\ (forall it, it ∈ items ->
                    exists h0 href, h0 ∈ hs ++ [h] /\ heading_href page h0 = Some href
                      /\ href <> "" /\ url it = resolve_url page href
                      /\ title it = strip (text_content page h0))
              /\ (length items <= length (hs ++ [h]))%nat).
    { split_and!; [done| |rewrite length_app; cbn; lia].
      intros it Hit. destruct (Hfrom it Hit) as (h0 & href & Hin & ?).
      exists h0, href. split; [apply elem_of_app; by left | done]. }
    destruct Hkeep as (K1 & K2 & K3).
    unfold listing_step.
    destruct (heading_href page h) as [href|] eqn:Eh.
    2:{ cbn [fst snd]. split_and!; [done|done| |done].
        intros h0 href0 [Hin| ->%list_elem_of_singleton]%elem_of_app; [by apply Hall | congruence]. }
    destruct (truthy_str href) eqn:Et; cbn [negb].
    2:{ cbn [fst snd]. split_and!; [done|done| |done].
        apply truthy_str_false in Et.
        intros h0 href0 [Hin| ->%list_elem_of_singleton]%elem_of_app; [by apply Hall | congruence]. }
    apply truthy_str_true in Et.
    destruct (truthy_str (resolve_url page href)) eqn:Eu; cbn [negb orb].
    2:{ cbn [fst snd]. split_and!; [done|done| |done].
        apply truthy_str_false in Eu.
        intros h0 href0 [Hin| ->%list_elem_of_singleton]%elem_of_app; [by apply Hall |].
        intros Hh _ Hne. congruence. }
    apply truthy_str_true in Eu.
    case_bool_decide as Hs; cbn [fst snd].
    + split_and!; [done|done| |done].
      intros h0 href0 [Hin| ->%list_elem_of_singleton]%elem_of_app; [by apply Hall |].
      intros Hh _ _. assert (href0 = href) as -> by congruence. by apply Hseen.
    + rewrite map_app. cbn [map]. rewrite make_entry_url.
      split_and!.
      * intros u. rewrite elem_of_union, elem_of_singleton, elem_of_app, list_elem_of_singleton.
        rewrite Hseen. tauto.
      * intros it [Hit| ->%list_elem_of_singleton]%elem_of_app; [by apply K2|].
        exists h, href. rewrite make_entry_url, make_entry_title.
        split_and!; [apply elem_of_app; right; left | done..].
      * intros h0 href0 [Hin| ->%list_elem_of_singleton]%elem_of_app.
        -- intros Hh Hn Hr. apply elem_of_app. left. by apply (Hall h0 href0).
        -- intros Hh _ _. assert (href0 = href) as -> by congruence.
           apply elem_of_app. right. left.
      * rewrite !length_app. cbn. lia.
Qed.

(** X15: every entry returned comes from a marked heading: its URL is the
    resolved [href] of that heading and its title the heading's trimmed
    text. Conversely the resolved URL of every marked heading that has an
    [href] is among the URLs returned, unless it is empty. There are no more
    entries than headings. *)
Theorem listing_entries_from_headings :
  (forall it, it ∈ extract_listing_items page ->
     exists h href,
       h ∈ page_query_selector_all page h3_marker
       /\ heading_href page h = Some href /\ href <> ""
       /\ url it = resolve_url page href
       /\ title it = strip (text_content page h))
  /\ (forall h href,
        h ∈ page_query_selector_all page h3_marker ->
        heading_href page h = Some href -> href <> "" ->
        resolve_url page href <> "" ->
        resolve_url page href ∈ map url (extract_listing_items page))
  /\ (length (extract_listing_items page)
      <= length (page_query_selector_all page h3_marker))%nat.
Proof.
  pose proof (fold_listing_facts (page_query_selector_all page h3_marker)) as F.
  cbn zeta in F. destruct F as (_ & F1 & F2 & F3). done.
Qed.

End ListingProvenance.

Lemma listing_entries_from_headings_witness :
  resolve_url listing_page "https://alpha.devpost.com/"
  ∈ map url (extract_listing_items listing_page).
Proof.
  apply (proj1 (proj2 (listing_entries_from_headings listing_page))
           [0; 1; 0]%nat "https://alpha.devpost.com/");
    [ | reflexivity | discriminate | discriminate].
  apply list_elem_of_In. vm_compute. right. left. reflexivity.
Defined.

(** ** The detail page *)

Section EnrichFacts.
Context `{Browser}.

Lemma or_else_keeps x y : or_else x y = y \/ truthy_opt (or_else x y) = true.
Proof. unfold or_else. destruct (truthy_opt x) eqn:E; [right; exact E | left; reflexivity]. Qed.

(** X16: the visit of the detail page never erases what the listing gave:
    the title after it is the listing's or a non-empty one, and each date
    after it is the listing's or a non-empty one. *)
Theorem enrich_keeps_known item_url name b e name' b' e' :
  enrich item_url name b e = Returned (name', b', e') ->
  (name' = name \/ name' <> "")
  /\ (b' = b \/ truthy_opt b' = true)
  /\ (e' = e \/ truthy_opt e' = true).
Proof.
  unfold enrich. destruct (goto item_url) as [dp| |err]; [|intros [= <- <- <-]; auto|discriminate].
  intros [= <- <- <-]. split_and!.
  - destruct (page_query_selector dp sel_h1) as [h1|]; [|by left].
    destruct (truthy_str _) eqn:E; [right; by apply truthy_str_true | by left].
  - destruct (_ !! 0%nat); [apply or_else_keeps | by left].
  - destruct (_ !! 1%nat); [apply or_else_keeps | by left].
Qed.

End EnrichFacts.

Lemma enrich_keeps_known_witness :
  (Some "2030-01-01T00:00:00Z" = Some "2030-01-01T00:00:00Z"
   \/ truthy_opt (Some "2030-01-01T00:00:00Z") = true).
Proof.
  apply (enrich_keeps_known "https://alpha.devpost.com/" "Alpha Hack"
           (Some "2030-01-01T00:00:00Z") None "Alpha Hack" (Some "2030-01-01T00:00:00Z") None).
  reflexivity.
Defined.

(** ** Elements found by a selector *)

Lemma resolve_app n h1 h2 : resolve n (h1 ++ h2) = (n1 ← resolve n h1; resolve n1 h2).
Proof.
  revert n. induction h1 as [|i h1 IH]; intros n; cbn; [done|].
  destruct (children_of n !! i) as [c|]; cbn; [apply IH | done].
Qed.

(** Induction over a tree of nodes. *)
Lemma node_forall_ind (P : node -> Prop) :
  (forall s, P (Text s)) ->
  (forall tag attrs cs, Forall P cs -> P (Elem tag attrs cs)) ->
  forall n, P n.
Proof.
  intros HT HE. fix IH 1. intros [s|tag attrs cs]; [apply HT|].
  apply HE. induction cs as [|c cs IHcs]; constructor; [apply IH | apply IHcs].
Qed.

(** Each element listed below [n] is an element, and its path leads to it. *)
Lemma descendants_resolve n : forall rel n',
  In (rel, n') (descendants n) ->
  resolve n rel = Some n' /\ exists tag attrs cs, n' = Elem tag attrs cs.
Proof.
  induction n as [s|tag attrs cs HP] using node_forall_ind; intros rel n';
    cbn [descendants]; [intros []|].
  assert (Hgo : forall (l : list node) (i : nat),
            Forall (fun c => forall rel n', In (rel, n') (descendants c) ->
                      resolve c rel = Some n'
                      /\ exists tag attrs cs, n' = Elem tag attrs cs) l ->
            (forall j c, l !! j = Some c -> cs !! (i + j)%nat = Some c) ->
            In (rel, n')
              ((fix go (i : nat) (l : list node) : list (handle * node) :=
                  match l with
                  | [] => []
                  | c :: l' =>
                      match c with
                      | Elem _ _ _ => [([i], c)]
                      | Text _ => []
                      end
                      ++ map (fun hn => (i :: hn.1, hn.2)) (descendants c)
                      ++ go (S i) l'
                  end) i l) ->
            resolve (Elem tag attrs cs) rel = Some n'
            /\ exists tag' attrs' cs', n' = Elem tag' attrs' cs').
  { induction l as [|c l IHl]; intros i HF Hl; [intros []|].
    apply Forall_cons in HF as [Hc HF].
    rewrite !in_app_iff. intros [Hself|[Hsub|Hrest]].
    - destruct c as [s|t a k]; [destruct Hself|].
      destruct Hself as [[= <- <-]|[]]. split; [|eauto].
      cbn. specialize (Hl 0%nat _ eq_refl). rewrite Nat.add_0_r in Hl. rewrite Hl. reflexivity.
    - apply in_map_iff in Hsub as ([rel0 n0] & [= <- <-] & Hin).
      destruct (Hc _ _ Hin) as [Hr He]. split; [|exact He].
      cbn. specialize (Hl 0%nat _ eq_refl). rewrite Nat.add_0_r in Hl. rewrite Hl. exact Hr.
    - apply (IHl (S i)); [exact HF| |exact Hrest].
      intros j c' Hj. specialize (Hl (S j) c' Hj). rewrite Nat.add_succ_r in Hl. exact Hl. }
  apply (Hgo cs 0%nat); [exact HP|]. intros j c Hj. exact Hj.
Qed.

Section SelectorFacts.
Context (page : Page).

(** What [query_selector_all] lists are elements that match, and it lists
    every match below [el] that another selector lists. *)
Lemma query_selector_all_elem el sel h :
  h ∈ query_selector_all page el sel ->
  exists rel n_el tag attrs cs,
    h = el ++ rel
    /\ resolve (root page) el = Some n_el
    /\ In (rel, Elem tag attrs cs) (descendants n_el)
    /\ resolve (root page) h = Some (Elem tag attrs cs)
    /\ sel_matches sel (Elem tag attrs cs) = true.
Proof.
  unfold query_selector_all.
  destruct (resolve (root page) el) as [n_el|] eqn:Er; [|by intros ?%elem_of_nil].
  intros Hin%list_elem_of_In. apply in_map_iff in Hin as ([rel n] & <- & Hf).
  apply filter_In in Hf as [Hd Hm]. cbn in *.
  destruct (descendants_resolve _ _ _ Hd) as [Hr (tag & attrs & cs & ->)].
  exists rel, n_el, tag, attrs, cs. split_and!; try done.
  rewrite resolve_app, Er. exact Hr.
Qed.

Lemma query_selector_all_other el sel1 sel2 h n :
  h ∈ query_selector_all page el sel1 ->
  resolve (root page) h = Some n -> sel_matches sel2 n = true ->
  h ∈ query_selector_all page el sel2.
Proof.
  intros Hin Hr Hm.
  destruct (query_selector_all_elem _ _ _ Hin) as (rel & n_el & tag & attrs & cs & -> & Er & Hd & Hr' & _).
  rewrite Hr in Hr'. injection Hr' as ->.
  unfold query_selector_all. rewrite Er.
  apply list_elem_of_In, in_map_iff. exists (rel, Elem tag attrs cs). split; [done|].
  apply filter_In. done.
Qed.

Lemma sel_matches_td_iso tag attrs cs :
  sel_matches sel_td_iso_date (Elem tag attrs cs)
  = String.eqb "td" tag && bool_decide (is_Some (assoc "data-iso-date" attrs)).
Proof. unfold sel_matches. cbn [sel_td_iso_date by_tag_attr sel_tag sel_class sel_attr]. by rewrite andb_true_r. Qed.

Lemma sel_matches_td tag attrs cs :
  sel_matches (by_tag "td") (Elem tag attrs cs) = String.eqb "td" tag.
Proof. unfold sel_matches. cbn [by_tag sel_tag sel_class sel_attr]. by rewrite !andb_true_r. Qed.

Lemma dated_cell_has_date el h :
  h ∈ query_selector_all page el sel_td_iso_date ->
  is_Some (get_attribute page h "data-iso-date").
Proof.
  intros Hin.
  destruct (query_selector_all_elem _ _ _ Hin) as (rel & n_el & tag & attrs & cs & _ & _ & _ & Hr & Hm).
  unfold get_attribute. rewrite Hr. rewrite sel_matches_td_iso in Hm.
  apply andb_true_iff in Hm as [_ Hm]. by apply bool_decide_eq_true in Hm.
Qed.

Lemma undated_cell_no_date el h :
  query_selector_all page el sel_td_iso_date = [] ->
  h ∈ query_selector_all page el (by_tag "td") ->
  get_attribute page h "data-iso-date" = None.
Proof.
  intros Hnone Hin.
  destruct (get_attribute page h "data-iso-date") as [v|] eqn:Ea; [|done]. exfalso.
  destruct (query_selector_all_elem _ _ _ Hin) as (rel & n_el & tag & attrs & cs & _ & _ & _ & Hr & Hm).
  assert (Hd : h ∈ query_selector_all page el sel_td_iso_date).
  { apply (query_selector_all_other el (by_tag "td") _ h _ Hin Hr).
    unfold get_attribute in Ea. rewrite Hr in Ea.
    rewrite sel_matches_td in Hm. rewrite sel_matches_td_iso, Hm, Ea.
    apply bool_decide_eq_true. eauto. }
  rewrite Hnone in Hd. by apply elem_of_nil in Hd.
Qed.

(** X17: the card extractor gives a start date exactly when the card has
    a [td] carrying [data-iso-date], and an end date exactly when it has
    two; the fallback that looks for the "submissions" label never gives a
    date. *)
Theorem card_dates_need_dated_cells card :
  let r := extract_submission_period_from_listing_card page card in
  (is_Some r.1.2 <-> query_selector_all page card sel_td_iso_date <> [])
  /\ (is_Some r.2 <-> (2 <= length (query_selector_all page card sel_td_iso_date))%nat).
Proof.
  cbn zeta. unfold extract_submission_period_from_listing_card.
  destruct (query_selector_all page card sel_td_iso_date) as [|td0 rest] eqn:Etd.
  - assert (Hb : forall h, h ∈ query_selector_all page card (by_tag "td") ->
                   get_attribute page h "data-iso-date" = None)
      by (intros h; apply undated_cell_no_date; exact Etd).
    destruct (query_selector_all page card (by_tag "td")) as [|td0 [|td1 [|td2 tds]]];
      [split; split; [intros [? [=]] | done | intros [? [=]] | cbn; lia] ..|].
    destruct (bool_decide _); cbn [fst snd].
    + rewrite (Hb td1), (Hb td2) by (repeat constructor).
      split; split; [intros [? [=]] | done | intros [? [=]] | cbn; lia].
    + split; split; [intros [? [=]] | done | intros [? [=]] | cbn; lia].
  - cbn [fst snd lookup list_lookup mbind option_bind].
    assert (H0 : is_Some (get_attribute page td0 "data-iso-date")).
    { apply (dated_cell_has_date card). rewrite Etd. left. }
    split; [split; [done | intros _; exact H0]|].
    destruct rest as [|td1 rest]; cbn.
    + split; [intros [? [=]] | lia].
    + split; [lia|]. intros _. apply (dated_cell_has_date card). rewrite Etd. right. left.
Qed.

End SelectorFacts.

(** ** The batch *)

Section BatchFacts.
Context `{IsoParser} `{UrlLib} `{Browser}.

(** The documents returned do not depend on the gateway. *)
Lemma process_items_results clock idx items results w :
  (process_items clock idx items results w).1 = results ++ assembled clock idx items.
Proof.
  revert idx results w. induction items as [|it items IH]; intros idx results w; cbn.
  - by rewrite app_nil_r.
  - destruct (assemble (clock idx) it) as [doc|e].
    + rewrite IH, <- app_assoc. reflexivity.
    + apply IH.
Qed.

Lemma assembled_length clock idx items :
  (length (assembled clock idx items) <= length items)%nat.
Proof.
  revert idx. induction items as [|it items IH]; intros idx; cbn; [lia|].
  destruct (assemble (clock idx) it); cbn; specialize (IH (S idx)); lia.
Qed.

(** X18: what the batch returns does not depend on the gateway: a failed
    connection or a refused upsert never removes a document from the
    result. When it returns, the listing was loaded, there are no more
    documents than entries on the listing, and no more than [limit] when
    [limit] is positive. *)
Theorem scrape_result_regardless_of_store clock listing_url limit w1 w2 :
  (scrape_all_from_listing clock listing_url limit w1).1
  = (scrape_all_from_listing clock listing_url limit w2).1
  /\ (forall docs,
        (scrape_all_from_listing clock listing_url limit w1).1 = Returned docs ->
        exists page,
          goto listing_url = Loaded page
          /\ (length docs <= length (extract_listing_items page))%nat
          /\ (0 < limit -> (length docs <= Z.to_nat limit)%nat)).
Proof.
  unfold scrape_all_from_listing.
  destruct (goto listing_url) as [page| |e]; [|split; [done|discriminate]..].
  set (items := if 0 <? limit then take (Z.to_nat limit) (extract_listing_items page)
                else extract_listing_items page).
  pose proof (process_items_results clock 1 items [] w1) as R1.
  pose proof (process_items_results clock 1 items [] w2) as R2.
  destruct (process_items clock 1 items [] w1) as [r1 w1'].
  destruct (process_items clock 1 items [] w2) as [r2 w2'].
  cbn in *. subst r1 r2. split; [reflexivity|].
  intros docs [= <-]. exists page. split; [reflexivity|].
  pose proof (assembled_length clock 1 items) as Hl.
  subst items. destruct (0 <? limit) eqn:El.
  - rewrite length_take in Hl. split; [lia|]. intros _. lia.
  - split; [lia|]. intros Hp. apply Z.ltb_ge in El. lia.
Qed.

Lemma join_nonempty sep x l : x <> "" -> join sep (x :: l) <> "".
Proof.
  intros Hx. destruct l as [|y l]; cbn [join]; [done|].
  destruct x as [|c x]; [done|]. rewrite app_cons. discriminate.
Qed.

Lemma period_of_nonempty it b e :
  period_of it b e = None \/ exists p, period_of it b e = Some p /\ p <> "".
Proof.
  unfold period_of.
  destruct (truthy_opt (submission_period it)) eqn:Es.
  - right. destruct (submission_period it) as [p|]; [|discriminate].
    exists p. split; [done|]. by apply truthy_str_true.
  - destruct (truthy_opt b) eqn:Eb.
    + right. destruct b as [bs|]; [|discriminate]. cbn [default app].
      eexists. split; [reflexivity|]. apply join_nonempty. by apply truthy_str_true.
    + destruct (truthy_opt e) eqn:Ee; [|by left].
      right. destruct e as [es|]; [|discriminate]. cbn [default app].
      eexists. split; [reflexivity|]. apply join_nonempty. by apply truthy_str_true.
Qed.

Lemma assemble_document clock it doc :
  assemble clock it = Returned doc -> batch_document doc.
Proof.
  unfold assemble.
  destruct (if truthy_str (url it) then _ else _) as [[[name b] e]|err];
    cbn [mbind outcome_bind]; [|discriminate].
  destruct (determine_status_cases clock b e) as (st & -> & Hst). cbn [mbind outcome_bind].
  destruct (if truthy_str (url it) then _ else _) as [i|err]; cbn [mbind outcome_bind];
    [|discriminate].
  intros [= <-]. unfold batch_document. split_and!.
  - rewrite !dom_insert_L, dom_empty_L. set_solver.
  - eexists. by simplify_map_eq.
  - eexists. by simplify_map_eq.
  - destruct (period_of_nonempty it b e) as [->|(p & -> & Hp)]; [left|right; exists p];
      by simplify_map_eq.
  - destruct Hst as [->|[[-> _]|[-> _]]]; [left|right; left|right; right];
      by simplify_map_eq.
Qed.

Lemma assembled_documents clock idx items :
  Forall batch_document (assembled clock idx items).
Proof.
  revert idx. induction items as [|it items IH]; intros idx; cbn; [constructor|].
  destruct (assemble (clock idx) it) as [doc|e] eqn:E; [|apply IH].
  constructor; [apply (assemble_document _ _ _ E) | apply IH].
Qed.

(** X19: every document the batch returns has exactly the keys [id],
    [name], [submission_period] and [status]; its status is "upcoming",
    "running" or "ended"; its submission period is [None] or a non-empty
    text. *)
Theorem scrape_documents_shape clock listing_url limit w docs :
  (scrape_all_from_listing clock listing_url limit w).1 = Returned docs ->
  Forall batch_document docs.
Proof.
  unfold scrape_all_from_listing.
  destruct (goto listing_url) as [page| |e]; [|discriminate..].
  set (items := if 0 <? limit then _ else _).
  pose proof (process_items_results clock 1 items [] w) as R.
  destruct (process_items clock 1 items [] w) as [r w']. cbn in *. subst r.
  intros [= <-]. apply assembled_documents.
Qed.

End BatchFacts.

Lemma scrape_documents_shape_witness :
  Forall batch_document
    (assembled (fun _ => clock_2026) 1 (extract_listing_items listing_page)).
Proof.
  apply (scrape_documents_shape (fun _ => clock_2026) "https://devpost.com/hackathons" 0
           fresh_world).
  vm_compute. reflexivity.
Defined.

Section BatchStore.
Context `{IsoParser} `{UrlLib} `{Browser}.

Lemma upsert_ids_grow item w :
  collection_at_hand w -> takes_all w ->
  let w' := (Db.upsert_hackathon (Db.Dict item) w).2 in
  collection_at_hand w' /\ takes_all w' /\ target w' = target w
  /\ (forall k, scalar k -> k ∈ doc_ids (docs_of w (target w)) ->
        k ∈ doc_ids (docs_of w' (target w)))
  /\ (forall i, item !! "id" = Some (VStr i) -> i <> "" ->
        VStr i ∈ doc_ids (docs_of w' (target w))).
Proof.
  intros Hc Ha. cbn zeta.
  destruct (item !! "id") as [key|] eqn:Hid.
  2:{ unfold Db.upsert_hackathon. rewrite Hid. cbn. split_and!; try done. }
  destruct (truthy key) eqn:Ht.
  2:{ unfold Db.upsert_hackathon. rewrite Hid, Ht. cbn. split_and!; try done.
      intros i [= ->] Hi. cbn in Ht. apply negb_false_iff, String.eqb_eq in Ht. done. }
  destruct (upsert_connected item key w Hc Hid Ht (Ha key item))
    as (res & w' & -> & _ & Hdocs & _ & Htg & Hc' & Hdep & Hacc).
  cbn [snd]. rewrite Hdocs.
  destruct (upserted_docs_spec key item (docs_of w (target w)) Hid)
    as ((doc & Hin & _ & Hk) & _ & _ & Hkeep & _).
  split_and!; [done | | done | exact Hkeep |].
  - intros key' item'. unfold Db.namespace. rewrite Htg, Hdep, Hacc. apply Ha.
  - intros i [= ->] _. unfold doc_ids. apply list_elem_of_omap. eauto.
Qed.

Lemma process_items_store clock items : forall idx results w,
  collection_at_hand w -> takes_all w ->
  let w' := (process_items clock idx items results w).2 in
  collection_at_hand w' /\ takes_all w' /\ target w' = target w
  /\ (forall k, scalar k -> k ∈ doc_ids (docs_of w (target w)) ->
        k ∈ doc_ids (docs_of w' (target w)))
  /\ (forall doc i, doc ∈ assembled clock idx items -> doc !! "id" = Some (VStr i) -> i <> "" ->
        VStr i ∈ doc_ids (docs_of w' (target w))).
Proof.
  induction items as [|it items IH]; intros idx results w Hc Ha; cbn zeta.
  - cbn. split_and!; try done. intros doc i Hin. by apply elem_of_nil in Hin.
  - cbn [process_items assembled].
    destruct (assemble (clock idx) it) as [doc|e].
    + destruct (upsert_ids_grow doc w Hc Ha) as (Hc1 & Ha1 & Ht1 & Hg1 & Hn1).
      destruct (IH (S idx) (results ++ [doc]) _ Hc1 Ha1) as (Hc2 & Ha2 & Ht2 & Hg2 & Hn2).
      rewrite Ht1 in *. split_and!; [done | done | done | auto |].
      intros d i [->|Hin]%elem_of_cons Hid Hi; [apply Hg2; [exact I | by apply Hn1] | by apply (Hn2 d)].
    + apply (IH (S idx) results w Hc Ha).
Qed.

Lemma scrape_store_facts clock listing_url limit w docs :
  collection_at_hand w -> takes_all w ->
  (scrape_all_from_listing clock listing_url limit w).1 = Returned docs ->
  let w' := (scrape_all_from_listing clock listing_url limit w).2 in
  (forall doc i, doc ∈ docs -> doc !! "id" = Some (VStr i) -> i <> "" ->
     VStr i ∈ doc_ids (docs_of w' (target w)))
  /\ (forall k, scalar k -> k ∈ doc_ids (docs_of w (target w)) ->
        k ∈ doc_ids (docs_of w' (target w))).
Proof.
  intros Hc Ha. unfold scrape_all_from_listing.
  destruct (goto listing_url) as [page| |e]; [|discriminate..].
  set (items := if 0 <? limit then _ else _).
  pose proof (process_items_results clock 1 items [] w) as R.
  pose proof (process_items_store clock items 1%nat [] w Hc Ha) as S. cbn zeta in S.
  destruct (process_items clock 1 items [] w) as [r w']. cbn in *. subst r.
  intros [= <-]. destruct S as (_ & _ & _ & Hg & Hn). split; [exact Hn | exact Hg].
Qed.

(** X20: with the collection at hand and a deployment that refuses no
    update, after the batch the target collection holds a document for
    every returned document that has a non-empty [id], and still holds
    every [id] it held before that is not an array. *)
Theorem scrape_persists_documents clock listing_url limit w docs :
  collection_at_hand w -> takes_all w ->
  (scrape_all_from_listing clock listing_url limit w).1 = Returned docs ->
  let w' := (scrape_all_from_listing clock listing_url limit w).2 in
  (forall doc i, doc ∈ docs -> doc !! "id" = Some (VStr i) -> i <> "" ->
     VStr i ∈ doc_ids (docs_of w' (target w)))
  /\ (forall k, scalar k -> k ∈ doc_ids (docs_of w (target w)) ->
        k ∈ doc_ids (docs_of w' (target w))).
Proof. apply scrape_store_facts. Qed.

End BatchStore.

Lemma scrape_persists_documents_witness :
  VStr "alpha-devpost-com"
  ∈ doc_ids (docs_of (scrape_all_from_listing (fun _ => clock_2026)
                        "https://devpost.com/hackathons" 0 fresh_world).2
               (target fresh_world)).
Proof.
  assert (Hres : (scrape_all_from_listing (fun _ => clock_2026)
                    "https://devpost.com/hackathons" 0 fresh_world).1
                 = Returned [doc_alpha]) by (vm_compute; reflexivity).
  pose proof (scrape_persists_documents (fun _ => clock_2026) "https://devpost.com/hackathons" 0
                fresh_world [doc_alpha] fresh_world_at_hand (fun _ _ => eq_refl) Hres) as Hp.
  cbv zeta in Hp. destruct Hp as [Hp _].
  apply (Hp doc_alpha "alpha-devpost-com"); [left | reflexivity | discriminate].
Defined.

(** ** The diagnostic and the command line *)

Lemma sample_fields_dom s :
  dom (Cli.sample_fields s)
  = ({["id"; "name"; "submission_period"; "status"; "_id"]} : gset string).
Proof.
  unfold Cli.sample_fields. cbn [map list_to_map foldr fst snd curry].
  rewrite !dom_insert_L, dom_empty_L. set_solver.
Qed.

(** X21: the diagnostic prints at most three samples however many
    documents the collection holds, each with exactly the keys [id], [name],
    [submission_period], [status] and [_id]; the count it prints is the
    number of documents of the collection named by the environment. *)
Theorem diagnose_db_samples r w :
  (length (List.filter (fun line => match line with Cli.Sample _ => true | _ => false end)
             (Cli.diagnose_db r w).1) <= 3)%nat
  /\ (forall f, Cli.Sample f ∈ (Cli.diagnose_db r w).1 ->
        dom f = ({["id"; "name"; "submission_period"; "status"; "_id"]} : gset string))
  /\ (forall coll n, Cli.Connected coll n ∈ (Cli.diagnose_db r w).1 ->
        coll = Db.getenv w "MONGO_COLLECTION" "hack-info"
        /\ n = length (docs_of w (Db.getenv w "MONGO_URI" "mongodb://localhost:27017",
                                  Db.getenv w "MONGO_DB" "hackathons",
                                  Db.getenv w "MONGO_COLLECTION" "hack-info"))).
Proof.
  unfold Cli.diagnose_db, docs_of.
  set (uri := Db.getenv w "MONGO_URI" _). set (db := Db.getenv w "MONGO_DB" _).
  set (coll := Db.getenv w "MONGO_COLLECTION" _).
  set (docs := default [] _).
  assert (Hfil : forall l : list (gmap string pyval),
            List.filter (fun line => match line with Cli.Sample _ => true | _ => false end)
              (map (fun s => Cli.Sample (Cli.sample_fields s)) l)
            = map (fun s => Cli.Sample (Cli.sample_fields s)) l).
  { induction l as [|x l IH]; [done|]. cbn [map List.filter]. by rewrite IH. }
  assert (Hno : forall pre : list Cli.report,
            Forall (fun line => match line with
                                | Cli.Sample _ | Cli.Connected _ _ => False
                                | _ => True
                                end) pre ->
            (length (List.filter (fun line => match line with Cli.Sample _ => true | _ => false end)
                       pre) <= 3)%nat
            /\ (forall f, Cli.Sample f ∈ pre ->
                  dom f = ({["id"; "name"; "submission_period"; "status"; "_id"]} : gset string))
            /\ (forall c n, Cli.Connected c n ∈ pre -> c = coll /\ n = length docs)).
  { intros pre Hpre. split_and!.
    - induction Hpre as [|x l Hx _ IH]; cbn; [lia|]. destruct x; cbn; done || lia.
    - intros f Hin. apply (proj1 (Forall_forall _ _) Hpre) in Hin. destruct Hin.
    - intros c n Hin. apply (proj1 (Forall_forall _ _) Hpre) in Hin. destruct Hin. }
  destruct (truthy_str uri); cbn [negb]; [|apply Hno; repeat constructor].
  destruct (Db.pymongo_installed w); cbn [negb]; [|apply Hno; repeat constructor].
  destruct (Db.reachable w uri); cbn [negb]; [|apply Hno; repeat constructor].
  destruct (Db.database_name_ok db && Db.collection_name_ok coll); cbn [negb];
    [|apply Hno; repeat constructor].
  destruct r; cbn [fst]; [|apply Hno; repeat constructor|].
  - split_and!.
    + rewrite !List.filter_app, Hfil. cbn [List.filter app]. rewrite length_map, length_take. lia.
    + intros f Hin. rewrite !elem_of_app in Hin. destruct Hin as [Hin|[Hin|Hin]].
      * repeat (apply elem_of_cons in Hin as [[=]|Hin]). by apply elem_of_nil in Hin.
      * repeat (apply elem_of_cons in Hin as [[=]|Hin]). by apply elem_of_nil in Hin.
      * apply list_elem_of_In, in_map_iff in Hin as (s & [= <-] & _). apply sample_fields_dom.
    + intros c n Hin. rewrite !elem_of_app in Hin. destruct Hin as [Hin|[Hin|Hin]].
      * repeat (apply elem_of_cons in Hin as [[=]|Hin]). by apply elem_of_nil in Hin.
      * apply elem_of_cons in Hin as [[= -> ->]|Hin]; [done|].
        repeat (apply elem_of_cons in Hin as [[=]|Hin]). by apply elem_of_nil in Hin.
      * apply list_elem_of_In, in_map_iff in Hin as (s & [=] & _).
  - split_and!.
    + cbn. lia.
    + intros f Hin. repeat (apply elem_of_cons in Hin as [[=]|Hin]). by apply elem_of_nil in Hin.
    + intros c n Hin. do 2 (apply elem_of_cons in Hin as [[=]|Hin]).
      apply elem_of_cons in Hin as [[= -> ->]|Hin]; [done|].
      repeat (apply elem_of_cons in Hin as [[=]|Hin]). by apply elem_of_nil in Hin.
Qed.

(** X22: the client the diagnostic opens is closed at the end whenever the
    server answered the ping, whether the reads go through or not; when the
    ping fails the function leaves without closing it; when the URI is
    empty or the driver is missing no call is made. *)
Theorem diagnose_db_closes_client r w :
  let uri := Db.getenv w "MONGO_URI" "mongodb://localhost:27017" in
  let driver := (Cli.diagnose_db r w).2 in
  if negb (truthy_str uri) || negb (Db.pymongo_installed w) then driver = []
  else if Db.reachable w uri
  then exists reads, driver = [Cli.DConnect uri; Cli.DPing uri] ++ reads ++ [Cli.DClose uri]
                     /\ Cli.DClose uri ∉ reads
  else driver = [Cli.DConnect uri; Cli.DPing uri].
Proof.
  cbn zeta. unfold Cli.diagnose_db.
  destruct (truthy_str _), (Db.pymongo_installed w); cbn [negb orb]; try reflexivity.
  destruct (Db.reachable w _); cbn [negb]; [|reflexivity].
  set (uri := Db.getenv w "MONGO_URI" _). set (db := Db.getenv w "MONGO_DB" _).
  set (coll := Db.getenv w "MONGO_COLLECTION" _).
  destruct (Db.database_name_ok db && Db.collection_name_ok coll); cbn [negb snd];
    [|exists []; split; [reflexivity | apply not_elem_of_nil]].
  destruct r; cbn [snd];
    [ exists [Cli.DCount uri db coll; Cli.DFind uri db coll 3]
    | exists [Cli.DCount uri db coll]
    | exists [Cli.DCount uri db coll; Cli.DFind uri db coll 3] ];
    (split; [reflexivity|]);
    intros Hin; repeat (apply elem_of_cons in Hin as [[=]|Hin]); by apply elem_of_nil in Hin.
Qed.

Section MainFacts.
Context `{IsoParser} `{UrlLib} `{Browser}.

Lemma diagnose_db_after_set_mongo_uri r uri w :
  Cli.diagnose_db r (Db.set_mongo_uri uri w).2 = Cli.diagnose_db r w.
Proof.
  unfold Db.set_mongo_uri. destruct (truthy_opt uri); [|reflexivity].
  destruct w as [u db coll [c|] inst env reach dep acc cols cs]; reflexivity.
Qed.

(** X23: with [--diagnose-db], [main] reports on the server named by the
    environment, whatever [--mongo-uri] says: the lines printed and the
    calls made are those of the diagnostic before the override. The
    override is still applied to the module, no collection is written, and
    the batch does not run. *)
Theorem main_diagnose_ignores_override a r clock w :
  Cli.diagnose a = true ->
  (Cli.main a r clock w).1 = Cli.Diagnosed (Cli.diagnose_db r w).1 (Cli.diagnose_db r w).2
  /\ Db.collections (Cli.main a r clock w).2 = Db.collections w
  /\ (forall u, Cli.mongo_uri a = Some u -> u <> "" ->
        Db.MONGO_URI (Cli.main a r clock w).2 = u).
Proof.
  intros Hd. unfold Cli.main. rewrite Hd. cbn [fst snd].
  destruct (truthy_opt (Cli.mongo_uri a)) eqn:Et.
  - rewrite diagnose_db_after_set_mongo_uri. split; [reflexivity|].
    unfold Db.set_mongo_uri. rewrite Et. cbn [negb snd].
    destruct w as [u0 db coll [c|] inst env reach dep acc cols cs]; cbn;
      (split; [reflexivity|]); intros u -> _; reflexivity.
  - split; [reflexivity|]. split; [reflexivity|].
    intros u Hu Hne. rewrite Hu in Et. cbn in Et. apply truthy_str_false in Et. done.
Qed.

(** X24: without [--diagnose-db], [main] returns what the batch returns
    on the world the override leaves, so that with a connection to be had
    at the overriding URI, names that pass, and a deployment there that
    refuses no update, every returned document with a non-empty [id] is
    stored in the collection of that URI. *)
Theorem main_override_directs_batch a r clock w u docs :
  Cli.diagnose a = false -> Cli.mongo_uri a = Some u -> u <> "" ->
  Db.pymongo_installed w = true -> Db.reachable w u = true -> names_ok w ->
  (forall key item,
     Db.accepts w (Db.namespace w (u, Db.getenv w "MONGO_DB" (Db.MONGO_DB w),
                                   Db.getenv w "MONGO_COLLECTION" (Db.MONGO_COLLECTION w)))
       key item = true) ->
  (Cli.main a r clock w).1 = Cli.Scraped (Returned docs) ->
  forall doc i, doc ∈ docs -> doc !! "id" = Some (VStr i) -> i <> "" ->
    VStr i ∈ doc_ids (docs_of (Cli.main a r clock w).2
                        (u, Db.getenv w "MONGO_DB" (Db.MONGO_DB w),
                         Db.getenv w "MONGO_COLLECTION" (Db.MONGO_COLLECTION w))).
Proof.
  intros Hd Hu Hne Hi Hr Hn Ha. unfold Cli.main. rewrite Hd, Hu. cbn [truthy_opt].
  pose proof (set_mongo_uri_world u w Hne) as W. cbv zeta in W.
  apply truthy_str_true in Hne. rewrite Hne. cbn [fst snd].
  set (w1 := (Db.set_mongo_uri (Some u) w).2) in *.
  destruct W as (Hu1 & Hc1 & Hi1 & Hr1 & Hd1 & Ha1 & Hcols1 & Htg1).
  assert (Hhand : collection_at_hand w1).
  { split; [split; [right; by rewrite Hi1|]|].
    - unfold uri_in_effect. by rewrite Hc1, Hu1, Hr1.
    - pose proof Htg1 as Hx. unfold target in Hx. injection Hx as _ Hdb Hcoll.
      destruct Hn as [Hn1 Hn2]. split; [by rewrite Hdb | by rewrite Hcoll]. }
  assert (Htakes : takes_all w1).
  { intros key item. rewrite Htg1, Ha1. unfold Db.namespace in *. rewrite Hd1. apply Ha. }
  intros [= Hres] doc i Hin Hid Hi'.
  destruct (scrape_store_facts clock (Cli.listing_url a) (Cli.limit a) w1 docs Hhand Htakes Hres)
    as [Hp _].
  rewrite <- Htg1. by apply (Hp doc i).
Qed.

End MainFacts.

Lemma main_diagnose_ignores_override_witness :
  (Cli.main diagnose_args Cli.ReadsOk (fun _ => clock_2026) stocked_world).1
  = Cli.Diagnosed (Cli.diagnose_db Cli.ReadsOk stocked_world).1
      (Cli.diagnose_db Cli.ReadsOk stocked_world).2
  /\ length (List.filter (fun line => match line with Cli.Sample _ => true | _ => false end)
               (Cli.diagnose_db Cli.ReadsOk stocked_world).1) = 3%nat.
Proof.
  split; [|vm_compute; reflexivity].
  apply (main_diagnose_ignores_override diagnose_args Cli.ReadsOk (fun _ => clock_2026)
           stocked_world eq_refl).
Defined.

Lemma main_override_directs_batch_witness :
  VStr "alpha-devpost-com"
  ∈ doc_ids (docs_of (Cli.main batch_args Cli.ReadsOk (fun _ => clock_2026)
                        misconfigured_world).2
               ("mongodb://localhost:27017",
                Db.getenv misconfigured_world "MONGO_DB" (Db.MONGO_DB misconfigured_world),
                Db.getenv misconfigured_world "MONGO_COLLECTION"
                  (Db.MONGO_COLLECTION misconfigured_world))).
Proof.
  assert (Hres : (Cli.main batch_args Cli.ReadsOk (fun _ => clock_2026) misconfigured_world).1
                 = Cli.Scraped (Returned [doc_alpha])) by (vm_compute; reflexivity).
  apply (main_override_directs_batch batch_args Cli.ReadsOk (fun _ => clock_2026)
           misconfigured_world "mongodb://localhost:27017" [doc_alpha] eq_refl eq_refl
           ltac:(discriminate) eq_refl eq_refl (conj eq_refl eq_refl) (fun _ _ => eq_refl)
           Hres doc_alpha "alpha-devpost-com");
    [left | reflexivity | discriminate].
Defined.

(** ** Listing extraction: the period and the dates of an entry *)

Section ListingDates.
Context `{UrlLib} (page : Page).

Lemma marked_date_has_date el h :
  h ∈ query_selector_all page el sel_iso_date ->
  is_Some (get_attribute page h "data-iso-date").
Proof.
  intros Hin.
  destruct (query_selector_all_elem _ _ _ _ Hin)
    as (rel & n_el & tag & attrs & cs & _ & _ & _ & Hr & Hm).
  unfold get_attribute. rewrite Hr.
  unfold sel_matches in Hm. cbn [sel_iso_date by_attr sel_tag sel_class sel_attr] in Hm.
  by apply bool_decide_eq_true in Hm.
Qed.

Lemma submission_walk_finds n h sp :
  submission_walk page n h = Some sp ->
  exists tag attrs cs,
    resolve (root page) sp = Some (Elem tag attrs cs)
    /\ sel_matches sel_submission_period (Elem tag attrs cs) = true.
Proof.
  revert h. induction n as [|n IH]; intros h; cbn [submission_walk]; [done|].
  destruct (parent_element h) as [p|]; [|done].
  destruct (query_selector page p sel_submission_period) as [s|] eqn:Eq.
  - intros [= ->]. unfold query_selector in Eq.
    apply head_Some_elem_of in Eq.
    destruct (query_selector_all_elem _ _ _ _ Eq)
      as (rel & n_el & tag & attrs & cs & _ & _ & _ & Hr & Hm).
    eauto.
  - apply IH.
Qed.

Lemma make_entry_dates h3 t u :
  match submission_period (make_entry page h3 t u) with
  | None => begins_iso (make_entry page h3 t u) = None
            /\ ends_iso (make_entry page h3 t u) = None
  | Some text =>
      exists sp tag attrs cs,
        resolve (root page) sp = Some (Elem tag attrs cs)
        /\ sel_matches sel_submission_period (Elem tag attrs cs) = true
        /\ text = strip (text_content page sp)
        /\ (is_Some (begins_iso (make_entry page h3 t u))
            <-> (1 <= length (query_selector_all page sp sel_iso_date))%nat)
        /\ (is_Some (ends_iso (make_entry page h3 t u))
            <-> (2 <= length (query_selector_all page sp sel_iso_date))%nat)
  end.
Proof.
  unfold make_entry. destruct (submission_walk page 6 h3) as [sp|] eqn:Ew; cbn; [|done].
  destruct (submission_walk_finds _ _ _ Ew) as (tag & attrs & cs & Hr & Hm).
  exists sp, tag, attrs, cs. split_and!; [done..| |].
  - destruct (query_selector_all page sp sel_iso_date) as [|d0 ds] eqn:Eq; cbn.
    + split; [by intros [? [=]] | lia].
    + split; [lia|]. intros _. apply (marked_date_has_date sp). rewrite Eq. left.
  - destruct (query_selector_all page sp sel_iso_date) as [|d0 [|d1 ds]] eqn:Eq; cbn.
    + split; [by intros [? [=]] | lia].
    + split; [by intros [? [=]] | lia].
    + split; [lia|]. intros _. apply (marked_date_has_date sp). rewrite Eq. right. left.
Qed.

Lemma fold_listing_made hs it :
  it ∈ (fold_left (listing_step page) hs (∅, [])).2 ->
  exists h t u, it = make_entry page h t u.
Proof.
  induction hs as [|h hs IH] using rev_ind; [by intros ?%elem_of_nil|].
  rewrite fold_left_app. cbn [fold_left].
  destruct (fold_left (listing_step page) hs (∅, [])) as [seen items]. cbn [snd] in IH.
  unfold listing_step.
  destruct (heading_href page h) as [href|]; [|exact IH].
  destruct (negb (truthy_str href)); [exact IH|].
  destruct (negb (truthy_str (resolve_url page href)) || bool_decide (_ ∈ seen)); [exact IH|].
  cbn [snd]. intros [Hin| ->%list_elem_of_singleton]%elem_of_app; [by apply IH | eauto].
Qed.

(** X25: an entry of the listing without a period text has no date. One
    with a period text has the trimmed text of a [div.submission-period]
    element; it has a start date exactly when that element holds an element
    carrying [data-iso-date], and an end date exactly when it holds two. So
    no entry has an end date without a start date. *)
Theorem listing_entry_dates it :
  it ∈ extract_listing_items page ->
  match submission_period it with
  | None => begins_iso it = None /\ ends_iso it = None
  | Some text =>
      exists sp tag attrs cs,
        resolve (root page) sp = Some (Elem tag attrs cs)
        /\ sel_matches sel_submission_period (Elem tag attrs cs) = true
        /\ text = strip (text_content page sp)
        /\ (is_Some (begins_iso it)
            <-> (1 <= length (query_selector_all page sp sel_iso_date))%nat)
        /\ (is_Some (ends_iso it)
            <-> (2 <= length (query_selector_all page sp sel_iso_date))%nat)
  end.
Proof.
  intros Hin. apply fold_listing_made in Hin as (h & t & u & ->). apply make_entry_dates.
Qed.

End ListingDates.

Lemma listing_entry_dates_witness :
  entry_alpha ∈ extract_listing_items listing_page
  /\ exists sp tag attrs cs,
       resolve (root listing_page) sp = Some (Elem tag attrs cs)
       /\ sel_matches sel_submission_period (Elem tag attrs cs) = true
       /\ "Jan 01 - Feb 01, 2030" = strip (text_content listing_page sp)
       /\ (is_Some (begins_iso entry_alpha)
           <-> (1 <= length (query_selector_all listing_page sp sel_iso_date))%nat)
       /\ (is_Some (ends_iso entry_alpha)
           <-> (2 <= length (query_selector_all listing_page sp sel_iso_date))%nat).
Proof.
  assert (Hin : entry_alpha ∈ extract_listing_items listing_page).
  { assert (Hl : extract_listing_items listing_page = [entry_alpha]) by (vm_compute; reflexivity).
    rewrite Hl. left. }
  split; [exact Hin|].
  exact (listing_entry_dates listing_page entry_alpha Hin).
Defined.
